(** * Honeypot fleet: decoy handlers, HTTP attack classifier, alert engine

    A shallow embedding of the Python sources
      - honeypots/telnet/telnet_honeypot.py
      - honeypots/http/http_honeypot.py
      - honeypots/ftp/ftp_honeypot.py
      - honeypots/ssh/ssh_honeypot.py
      - services/alerts/alert_service.py
    and the properties of the specification that concern them.

    Conventions.  A Python [str] is a list of Unicode code points, a
    [bytes] value a list of [byte]; dictionaries that the code uses as
    counters or stores are [gmap]s, dictionary literals that are built
    once and shipped as events are association lists in insertion order.
    Effects (socket traffic, emitted events, the alert store) are threaded
    through explicit state. *)

From Stdlib Require Import ZArith NArith List Bool Lia.
From Stdlib.Strings Require Import String Ascii Byte.
From stdpp Require Import base option list gmap.

Local Open Scope N_scope.

(** ** Python built-ins used by the sources *)

Module Py.

Abbreviation str := (list N) (only parsing).
Abbreviation bytes := (list byte) (only parsing).

(** An ASCII literal as a [str]. *)
Definition lit (s : string) : str :=
  map N_of_ascii (list_ascii_of_string s).

(** An ASCII literal as [bytes]. *)
Definition blit (s : string) : bytes := list_byte_of_string s.

Definition CR : byte := x0d.
Definition LF : byte := x0a.
Definition crlf : str := [13; 10].
Definition bcrlf : bytes := [CR; LF].

(** [str.isspace] for one code point (the set CPython uses for
    [str.strip()] and [str.split()] without arguments). *)
Definition isspace (c : N) : bool :=
  ((9 <=? c) && (c <=? 13)) || ((28 <=? c) && (c <=? 32))
  || (c =? 133) || (c =? 160) || (c =? 5760)
  || ((8192 <=? c) && (c <=? 8202))
  || (c =? 8232) || (c =? 8233) || (c =? 8239) || (c =? 8287)
  || (c =? 12288).

Fixpoint lstrip (s : str) : str :=
  match s with
  | c :: r => if isspace c then lstrip r else s
  | [] => []
  end.

Definition rstrip (s : str) : str := rev (lstrip (rev s)).

(** [s.strip()] *)
Definition strip (s : str) : str := rstrip (lstrip s).

(** [s.split()]: maximal runs of non-space code points.  [cur] is the
    word being read, reversed. *)
Fixpoint split_go (cur : str) (s : str) : list str :=
  match s with
  | [] => match cur with [] => [] | _ => [rev cur] end
  | c :: r =>
      if isspace c
      then match cur with [] => split_go [] r | _ => rev cur :: split_go [] r end
      else split_go (c :: cur) r
  end.

Definition split (s : str) : list str := split_go [] s.

Fixpoint startswith (s p : str) : bool :=
  match p, s with
  | [], _ => true
  | _ :: _, [] => false
  | a :: p', b :: s' => (a =? b) && startswith s' p'
  end.

(** [p in s] for strings. *)
Fixpoint contains (s p : str) : bool :=
  startswith s p ||
  match s with
  | [] => false
  | _ :: r => contains r p
  end.

(** [any(p in s for p in ps)] *)
Definition any_in (ps : list str) (s : str) : bool :=
  existsb (contains s) ps.

Definition str_eqb (a b : str) : bool := bool_decide (a = b).

(** [x in [a, b, ...]] for strings. *)
Definition mem (x : str) (l : list str) : bool := existsb (str_eqb x) l.

Definition is_ascii (s : str) : bool := forallb (fun c => c <? 128) s.

(** What [str.lower] does on code points below 128. *)
Definition ascii_lower_cp (c : N) : N :=
  if (65 <=? c) && (c <=? 90) then c + 32 else c.

Definition ascii_lower (s : str) : str := map ascii_lower_cp s.

(** Decimal digits of a natural number, as [str(n)] prints them. *)
Fixpoint digits_go (fuel : nat) (n : N) (acc : str) : str :=
  match fuel with
  | O => acc
  | S f =>
      let acc' := (48 + n mod 10) :: acc in
      if n <? 10 then acc' else digits_go f (n / 10) acc'
  end.

Definition str_of_N (n : N) : str := digits_go (S (N.to_nat (N.log2 n))) n [].

Definition str_of_Z (z : Z) : str :=
  match z with
  | Zneg p => 45 :: str_of_N (Npos p)
  | _ => str_of_N (Z.to_N z)
  end.

(** [sep.join(l)] *)
Fixpoint join (sep : str) (l : list str) : str :=
  match l with
  | [] => []
  | [x] => x
  | x :: r => x ++ sep ++ join sep r
  end.

(** *** UTF-8 *)

Definition is_cont (b : N) : bool := (128 <=? b) && (b <? 192).

(** [data.decode('utf-8', errors='ignore')].  The decoder of CPython
    reports, for an ill-formed sequence, the longest prefix that could
    still have started a character (one byte for a bad lead byte, one to
    three bytes for a bad continuation, the whole rest for a truncated
    character at the end); with [errors='ignore'] that range is dropped
    and decoding resumes behind it. *)
Fixpoint decode_utf8_ignore (s : bytes) : str :=
  match s with
  | [] => []
  | b1 :: r1 =>
    let c1 := Byte.to_N b1 in
    if c1 <? 128 then c1 :: decode_utf8_ignore r1
    else if c1 <? 194 then decode_utf8_ignore r1
    else if c1 <? 224 then
      match r1 with
      | [] => []
      | b2 :: r2 =>
        let c2 := Byte.to_N b2 in
        if is_cont c2
        then ((c1 - 192) * 64 + (c2 - 128)) :: decode_utf8_ignore r2
        else decode_utf8_ignore r1
      end
    else if c1 <? 240 then
      match r1 with
      | [] => []
      | b2 :: r2 =>
        let c2 := Byte.to_N b2 in
        if negb (is_cont c2) || (if c2 <? 160 then c1 =? 224 else c1 =? 237)
        then decode_utf8_ignore r1
        else
          match r2 with
          | [] => []
          | b3 :: r3 =>
            let c3 := Byte.to_N b3 in
            if is_cont c3
            then ((c1 - 224) * 4096 + (c2 - 128) * 64 + (c3 - 128))
                   :: decode_utf8_ignore r3
            else decode_utf8_ignore r2
          end
      end
    else if c1 <? 245 then
      match r1 with
      | [] => []
      | b2 :: r2 =>
        let c2 := Byte.to_N b2 in
        if negb (is_cont c2) || (if c2 <? 144 then c1 =? 240 else c1 =? 244)
        then decode_utf8_ignore r1
        else
          match r2 with
          | [] => []
          | b3 :: r3 =>
            let c3 := Byte.to_N b3 in
            if negb (is_cont c3) then decode_utf8_ignore r2
            else
              match r3 with
              | [] => []
              | b4 :: r4 =>
                let c4 := Byte.to_N b4 in
                if is_cont c4
                then ((c1 - 240) * 262144 + (c2 - 128) * 4096
                      + (c3 - 128) * 64 + (c4 - 128))
                       :: decode_utf8_ignore r4
                else decode_utf8_ignore r3
              end
          end
      end
    else decode_utf8_ignore r1
  end.

Definition byte_of (n : N) : byte :=
  match Byte.of_N n with Some b => b | None => x00 end.

(** UTF-8 encoding of one code point; [None] for a surrogate or a value
    beyond U+10FFFF, where [str.encode()] raises [UnicodeEncodeError]. *)
Definition encode_cp (c : N) : option bytes :=
  if c <? 128 then Some [byte_of c]
  else if c <? 2048 then Some [byte_of (192 + c / 64); byte_of (128 + c mod 64)]
  else if (55296 <=? c) && (c <? 57344) then None
  else if c <? 65536 then
    Some [byte_of (224 + c / 4096); byte_of (128 + (c / 64) mod 64);
          byte_of (128 + c mod 64)]
  else if c <? 1114112 then
    Some [byte_of (240 + c / 262144); byte_of (128 + (c / 4096) mod 64);
          byte_of (128 + (c / 64) mod 64); byte_of (128 + c mod 64)]
  else None.

(** [s.encode()] *)
Fixpoint encode_utf8 (s : str) : option bytes :=
  match s with
  | [] => Some []
  | c :: r =>
      match encode_cp c, encode_utf8 r with
      | Some b, Some br => Some (b ++ br)
      | _, _ => None
      end
  end.

(** *** Dictionaries built from literals

    Kept as association lists in insertion order, with the value types the
    sources put in them. *)
Inductive value : Type :=
| VStr (s : str)
| VInt (z : Z)
| VBool (b : bool)
| VList (l : list str)
| VStrDict (d : list (str * str))
| VUtcNow                 (* datetime.utcnow().isoformat() at emission *)
| VIpTime (ip : str).     (* f"{ip}_{int(time.time())}" at emission *)

Abbreviation dict := (list (string * value)) (only parsing).

Fixpoint dict_get (d : dict) (k : string) : option value :=
  match d with
  | [] => None
  | (k', v) :: r => if String.eqb k k' then Some v else dict_get r k
  end.

(** [d[k] = v] *)
Fixpoint dict_set (d : dict) (k : string) (v : value) : dict :=
  match d with
  | [] => [(k, v)]
  | (k', v') :: r =>
      if String.eqb k k' then (k', v) :: r else (k', v') :: dict_set r k v
  end.

(** [d.update(u)] *)
Definition dict_update (d u : dict) : dict :=
  fold_left (fun acc kv => dict_set acc (fst kv) (snd kv)) u d.

(** [d[k] = d.get(k, 0) + 1] *)
Definition bump (k : str) (d : gmap str Z) : gmap str Z :=
  <[k := (default 0 (d !! k) + 1)%Z]> d.

End Py.

(** ** Effects: state and Python exceptions *)

Module Eff.

Inductive exn : Type :=
| SocketTimeout          (* socket.timeout *)
| SocketError            (* any other OSError of a socket call *)
| UnicodeEncodeError
| OverflowError
| AuthenticationFailed.  (* Exception("Authentication failed") *)

(** Outcome of a computation: a value, a Python exception, or the
    iteration bound of the embedding reached ([OutOfFuel], shown below
    never to happen where it could). *)
Inductive res (A : Type) : Type :=
| Ret (a : A)
| Exc (e : exn)
| OutOfFuel.
Arguments Ret {A} a.
Arguments Exc {A} e.
Arguments OutOfFuel {A}.

Definition M (W A : Type) : Type := W -> res A * W.

#[global] Instance M_ret {W} : MRet (M W) := fun A a w => (Ret a, w).
#[global] Instance M_bind {W} : MBind (M W) := fun A B f m w =>
  match m w with
  | (Ret a, w') => f a w'
  | (Exc e, w') => (Exc e, w')
  | (OutOfFuel, w') => (OutOfFuel, w')
  end.

Definition raise {W A} (e : exn) : M W A := fun w => (Exc e, w).
Definition get_world {W} : M W W := fun w => (Ret w, w).
Definition modify {W} (f : W -> W) : M W unit := fun w => (Ret tt, f w).

(** [try: m  except Exception as e: h e] *)
Definition try_except {W A} (m : M W A) (h : exn -> M W A) : M W A := fun w =>
  match m w with
  | (Exc e, w') => h e w'
  | r => r
  end.

(** [try: m  finally: f] *)
Definition try_finally {W A} (m : M W A) (f : M W unit) : M W A := fun w =>
  match m w with
  | (OutOfFuel, w') => (OutOfFuel, w')
  | (r, w') =>
      match f w' with
      | (Ret _, w'') => (r, w'')
      | (Exc e, w'') => (Exc e, w'')
      | (OutOfFuel, w'') => (OutOfFuel, w'')
      end
  end.

(** [wp m w Q]: running [m] from [w] ends in an outcome and a state that
    satisfy [Q]. *)
Definition wp {W A} (m : M W A) (w : W) (Q : res A -> W -> Prop) : Prop :=
  Q (m w).1 (m w).2.
Arguments wp : simpl never.

End Eff.

(** ** honeypots/telnet/telnet_honeypot.py *)

Module Telnet.
Import Py Eff.

(** What one [client_socket.recv(1)] can do: deliver a byte, deliver
    [b''] (peer closed), run into the 30 second timeout set by
    [settimeout(30)], or fail with another socket error. *)
Inductive recv_event : Type :=
| RData (b : byte)
| REof
| RTimeout
| RError.

(** What the handler does to the outside, in order. *)
Inductive action : Type :=
| Send (data : bytes)      (* client_socket.send(data) went through *)
| Close                    (* client_socket.close() *)
| Log (event : dict)       (* self.log_event(event) *)
| Sleep (secs : Z).        (* time.sleep(secs) *)

(** [self.stats] *)
Record stats_t : Type := mkStats {
  total_connections : Z;
  login_attempts : Z;
  unique_ips : gset str;
  common_usernames : gmap str Z;
  common_passwords : gmap str Z;
  commands_executed : gmap str Z
}.

(** The honeypot object together with the connection it serves.
    [inbox] is what the peer makes successive [recv(1)] calls see (once it
    is used up the peer stays silent and [recv] times out), [send_faults]
    tells for each successive [send] whether it raises (none does once the
    list is used up), [close_fault] whether [close()] raises. *)
Record world : Type := mkWorld {
  port : Z;
  stats : stats_t;
  inbox : list recv_event;
  send_faults : list bool;
  close_fault : bool;
  trace : list action
}.

Definition set_stats (f : stats_t -> stats_t) (w : world) : world :=
  mkWorld (port w) (f (stats w)) (inbox w) (send_faults w) (close_fault w) (trace w).
Definition set_inbox (i : list recv_event) (w : world) : world :=
  mkWorld (port w) (stats w) i (send_faults w) (close_fault w) (trace w).
Definition set_send_faults (f : list bool) (w : world) : world :=
  mkWorld (port w) (stats w) (inbox w) f (close_fault w) (trace w).
Definition push (a : action) (w : world) : world :=
  mkWorld (port w) (stats w) (inbox w) (send_faults w) (close_fault w) (trace w ++ [a]).

Abbreviation M := (Eff.M world).

(** [client_socket.send(data)] *)
Definition send (data : bytes) : M unit := fun w =>
  match send_faults w with
  | true :: fs => (Exc SocketError, set_send_faults fs w)
  | false :: fs => (Ret tt, push (Send data) (set_send_faults fs w))
  | [] => (Ret tt, push (Send data) w)
  end.

(** [client_socket.send(s.encode())] *)
Definition send_str (s : str) : M unit :=
  match encode_utf8 s with
  | Some b => send b
  | None => raise UnicodeEncodeError
  end.

(** [client_socket.close()]: the descriptor is released even when the
    call raises. *)
Definition close : M unit := fun w =>
  if close_fault w then (Exc SocketError, push Close w) else (Ret tt, push Close w).

Definition sleep (secs : Z) : M unit := modify (push (Sleep secs)).

(** [log_event]: the four common fields are added, then the record goes
    to the log file and to Logstash; both writes swallow their errors. *)
Definition log_event (event_data : dict) : M unit :=
  modify (push (Log (dict_update event_data
    [("timestamp"%string, VUtcNow);
     ("service"%string, VStr (lit "telnet"));
     ("honeypot_type"%string, VStr (lit "telnet_honeypot"));
     ("version"%string, VStr (lit "1.0.0"))]))).

Definition BS : byte := x08.
Definition DEL : byte := x7f.

(** The [while True] loop of [get_input]; [pending] is the peer's input
    not yet received, [data] the line buffer. *)
Fixpoint get_input_loop (hide : bool) (pending : list recv_event) (data : bytes)
  : M bytes :=
  match pending with
  | [] => raise SocketTimeout
  | ev :: rest =>
      modify (set_inbox rest) ;;
      match ev with
      | RTimeout => raise SocketTimeout
      | RError => raise SocketError
      | REof => mret data
      | RData chunk =>
          if Byte.eqb chunk CR || Byte.eqb chunk LF then mret data
          else if Byte.eqb chunk BS || Byte.eqb chunk DEL then
            match data with
            | [] => get_input_loop hide rest data
            | _ :: _ =>
                (if negb hide then send [BS; x20; BS] else mret tt) ;;
                get_input_loop hide rest (removelast data)
            end
          else
            (if negb hide then send [chunk] else send (blit "*")) ;;
            get_input_loop hide rest (data ++ [chunk])
      end
  end.

(** [get_input]: the decoded, stripped line, or [None] after a timeout or
    any other exception. *)
Definition get_input (prompt : str) (hide : bool) : M (option str) :=
  try_except
    (w ← get_world;
     data ← get_input_loop hide (inbox w) [];
     mret (Some (strip (decode_utf8_ignore data))))
    (fun _ => mret None).

Definition iot_credentials : list (str * str) :=
  [(lit "admin", lit "admin"); (lit "root", lit "root"); (lit "admin", lit "password");
   (lit "root", lit "password"); (lit "admin", lit "123456"); (lit "root", lit "123456");
   (lit "user", lit "user"); (lit "guest", lit "guest"); (lit "support", lit "support");
   (lit "admin", lit ""); (lit "root", lit ""); (lit "", lit ""); (lit "admin", lit "1234");
   (lit "root", lit "toor"); (lit "admin", lit "pass")].

(** The pair [(attack_type, threat_level)] chosen by
    [handle_login_attempt]. *)
Definition classify_login (username password : str) : str * str :=
  if bool_decide ((username, password) ∈ iot_credentials)
  then (lit "iot_botnet", lit "high")
  else (lit "brute_force", lit "medium").

Definition login_event (client_ip username password : str) : dict :=
  let '(attack_type, threat_level) := classify_login username password in
  [("event_type"%string, VStr (lit "login_attempt"));
   ("source_ip"%string, VStr client_ip);
   ("username"%string, VStr username);
   ("password"%string, VStr password);
   ("success"%string, VBool false);
   ("attack_type"%string, VStr attack_type);
   ("threat_level"%string, VStr threat_level);
   ("session_id"%string, VIpTime client_ip)].

Definition handle_login_attempt (client_ip username password : str) : M unit :=
  modify (set_stats (fun s =>
    mkStats (total_connections s) (login_attempts s + 1)%Z (unique_ips s)
            (bump username (common_usernames s))
            (bump password (common_passwords s))
            (commands_executed s))) ;;
  log_event (login_event client_ip username password).

Section WithCaseTable.

(** [str.lower]: the case mapping of the Unicode database is not part of
    the sources and is taken as given. *)
Variable lower : str -> str.

Definition simulate_command_response (command : str) : str :=
  let cmd := strip (lower command) in
  if mem cmd [lit "ls"; lit "dir"] then
    crlf ++ lit "bin  boot  dev  etc  home  lib  media  mnt  opt  proc  root  run  sbin  srv  sys  tmp  usr  var" ++ crlf
  else if str_eqb cmd (lit "pwd") then crlf ++ lit "/home/user" ++ crlf
  else if str_eqb cmd (lit "whoami") then crlf ++ lit "user" ++ crlf
  else if str_eqb cmd (lit "id") then
    crlf ++ lit "uid=1000(user) gid=1000(user) groups=1000(user)" ++ crlf
  else if startswith cmd (lit "cat ") then crlf ++ lit "cat: permission denied" ++ crlf
  else if str_eqb cmd (lit "ps") then
    crlf ++ lit "  PID TTY          TIME CMD" ++ crlf ++ lit " 1234 pts/0    00:00:00 bash" ++ crlf
  else if str_eqb cmd (lit "uname -a") then
    crlf ++ lit "Linux honeypot 5.4.0-74-generic #83-Ubuntu SMP Sat May 8 02:35:39 UTC 2021 x86_64 x86_64 x86_64 GNU/Linux" ++ crlf
  else if mem cmd [lit "exit"; lit "quit"; lit "logout"] then crlf ++ lit "logout" ++ crlf
  else crlf ++ cmd ++ lit ": command not found" ++ crlf.

Definition command_event (client_ip username command : str) : dict :=
  [("event_type"%string, VStr (lit "command_execution"));
   ("source_ip"%string, VStr client_ip);
   ("username"%string, VStr username);
   ("command"%string, VStr command);
   ("attack_type"%string, VStr (lit "command_injection"))].

(** How one pass through the body of the [while True] loop of
    [simulate_shell] ends. *)
Inductive ctl : Type := Continue | Break.

Definition shell_body (client_ip username prompt : str) : M ctl :=
  command ← get_input prompt false;
  match command with
  | Some ((_ :: _) as command) =>
      modify (set_stats (fun s =>
        mkStats (total_connections s) (login_attempts s) (unique_ips s)
                (common_usernames s) (common_passwords s)
                (bump command (commands_executed s)))) ;;
      log_event (command_event client_ip username command) ;;
      send_str (simulate_command_response command) ;;
      send_str prompt ;;
      if (10 <? length (split command))%nat then mret Break else mret Continue
  | _ => mret Break
  end.

Fixpoint shell_loop (fuel : nat) (client_ip username prompt : str) : M unit :=
  match fuel with
  | O => fun w => (OutOfFuel, w)
  | S n =>
      c ← shell_body client_ip username prompt;
      match c with
      | Break => mret tt
      | Continue => shell_loop n client_ip username prompt
      end
  end.

Definition simulate_shell (client_ip username : str) : M unit :=
  try_except
    (let prompt := username ++ lit "@honeypot:~$ " in
     send_str prompt ;;
     w ← get_world;
     shell_loop (S (length (inbox w))) client_ip username prompt)
    (fun _ => mret tt).

Definition connection_event (client_ip : str) (source_port destination_port : Z) : dict :=
  [("event_type"%string, VStr (lit "connection"));
   ("source_ip"%string, VStr client_ip);
   ("source_port"%string, VInt source_port);
   ("destination_port"%string, VInt destination_port);
   ("protocol"%string, VStr (lit "telnet"));
   ("connection_id"%string, VIpTime client_ip)].

Definition disconnect_event (client_ip : str) : dict :=
  [("event_type"%string, VStr (lit "disconnect"));
   ("source_ip"%string, VStr client_ip);
   ("duration"%string, VStr (lit "unknown"))].

Definition banner : bytes := blit "Ubuntu 20.04.3 LTS" ++ bcrlf ++ blit "login: ".

(** [handle_client].  The tests [if username:] and [if password:] are
    true of a non-empty string only: [None] and the empty string both take
    the other branch. *)
Definition handle_client (client_addr : str * Z) : M unit :=
  let client_ip := fst client_addr in
  modify (set_stats (fun s =>
    mkStats (total_connections s + 1)%Z (login_attempts s) ({[client_ip]} ∪ unique_ips s)
            (common_usernames s) (common_passwords s) (commands_executed s))) ;;
  w ← get_world;
  log_event (connection_event client_ip (snd client_addr) (port w)) ;;
  try_finally
    (try_except
       (send banner ;;
        username ← get_input (lit "login: ") false;
        match username with
        | Some ((_ :: _) as username) =>
            send (blit "Password: ") ;;
            password ← get_input (lit "Password: ") true;
            match password with
            | Some ((_ :: _) as password) =>
                handle_login_attempt client_ip username password ;;
                send (bcrlf ++ blit "Login incorrect" ++ bcrlf) ;;
                sleep 2 ;;
                simulate_shell client_ip username
            | _ => mret tt
            end
        | _ => mret tt
        end)
       (fun _ => mret tt))
    (try_except close (fun _ => mret tt) ;;
     log_event (disconnect_event client_ip)).

End WithCaseTable.

(** *** The line editor, as a function of the keys typed

    Reference description of [get_input] in the words of the
    specification: bytes are collected up to CR or LF, an erase key
    (backspace or DEL) removes the last collected byte. *)
Definition is_erase (k : byte) : bool := Byte.eqb k BS || Byte.eqb k DEL.
Definition is_eol (k : byte) : bool := Byte.eqb k CR || Byte.eqb k LF.

(** Line buffer after the keys [keys], starting from [data]. *)
Fixpoint edit (keys : bytes) (data : bytes) : bytes :=
  match keys with
  | [] => data
  | k :: r => if is_erase k then edit r (removelast data) else edit r (data ++ [k])
  end.

(** What is echoed for the keys [keys], starting from the buffer [data]:
    masked, a star per accepted byte and nothing for an erase key; plain,
    the byte itself, and backspace-space-backspace for an erase key that
    removes something. *)
Fixpoint echo (hide : bool) (keys : bytes) (data : bytes) : list action :=
  match keys with
  | [] => []
  | k :: r =>
      if is_erase k then
        match data with
        | [] => echo hide r data
        | _ :: _ =>
            (if hide then [] else [Send [BS; x20; BS]]) ++ echo hide r (removelast data)
        end
      else (if hide then Send (blit "*") else Send [k]) :: echo hide r (data ++ [k])
  end.

(** Number of accepted (buffered) bytes among [keys]. *)
Definition accepted (keys : bytes) : nat :=
  length (List.filter (fun k => negb (is_erase k)) keys).

(** No pending [send] raises. *)
Definition sends_ok (w : world) : Prop := Forall (fun b => b = false) (send_faults w).

(** *** Reading the trace *)

Definition event_type (ev : dict) : option value := dict_get ev "event_type".

Definition is_event (t : string) (a : action) : bool :=
  match a with
  | Log ev =>
      match event_type ev with
      | Some (VStr s) => str_eqb s (lit t)
      | _ => false
      end
  | _ => false
  end.

Definition is_close (a : action) : bool :=
  match a with Close => true | _ => false end.

(** The events of the trace, by their [event_type]. *)
Definition events (t : string) (tr : list action) : list action :=
  List.filter (is_event t) tr.

(** *** Vocabulary and sample connections for the properties *)

Definition idle_stats : stats_t := mkStats 0 0 ∅ ∅ ∅ ∅.

(** A shell session in which the peer types [exit] and then [ls], and
    every send goes through. *)
Definition exit_world : world :=
  mkWorld 23 idle_stats
    (map RData (blit "exit") ++ [RData CR] ++ map RData (blit "ls") ++ [RData CR])
    [] false [].

(** The keys a, b, c, backspace, d, and a connection on which they are
    typed and ended with CR. *)
Definition abd_keys : bytes := blit "abc" ++ [BS] ++ blit "d".

Definition abd_world (hide_faults : list bool) : world :=
  mkWorld 23 (mkStats 0 0 ∅ ∅ ∅ ∅) (map RData abd_keys ++ [RData CR]) hide_faults false [].

(** An action other than closing the socket or logging a disconnect. *)
Definition inner (a : action) : bool :=
  negb (is_event "disconnect" a) && negb (is_close a).

(** [w'] continues [w]: the trace has grown by inner actions only, no
    input has come back, and the pending [send] outcomes are what is left
    of the earlier ones. *)
Definition extends (w w' : world) : Prop :=
  (exists ext, trace w' = trace w ++ ext /\ Forall (fun a => inner a = true) ext)
  /\ (length (inbox w') <= length (inbox w))%nat
  /\ send_faults w' `suffix_of` send_faults w.

(** A computation that keeps the connection going: it returns or raises
    (never runs out of fuel) in a world that continues the one it started
    in. *)
Definition steady {A} (w : world) (r : res A) (w' : world) : Prop :=
  extends w w' /\ r <> OutOfFuel.

(** The record that [log_event] writes for a disconnect. *)
Definition logged_disconnect (client_ip : str) : dict :=
  [("event_type"%string, VStr (lit "disconnect"));
   ("source_ip"%string, VStr client_ip);
   ("duration"%string, VStr (lit "unknown"));
   ("timestamp"%string, VUtcNow);
   ("service"%string, VStr (lit "telnet"));
   ("honeypot_type"%string, VStr (lit "telnet_honeypot"));
   ("version"%string, VStr (lit "1.0.0"))].

(** The record that [log_event] writes for a command. *)
Definition logged_command (client_ip username command : str) : dict :=
  [("event_type"%string, VStr (lit "command_execution"));
   ("source_ip"%string, VStr client_ip);
   ("username"%string, VStr username);
   ("command"%string, VStr command);
   ("attack_type"%string, VStr (lit "command_injection"));
   ("timestamp"%string, VUtcNow);
   ("service"%string, VStr (lit "telnet"));
   ("honeypot_type"%string, VStr (lit "telnet_honeypot"));
   ("version"%string, VStr (lit "1.0.0"))].

(** The peer types [ls] and [pwd]; echoing goes through, the third send
    (the response to [ls]) raises. *)
Definition broken_pipe_world : world :=
  mkWorld 23 idle_stats
    (map RData (blit "ls") ++ [RData CR] ++ map RData (blit "pwd") ++ [RData CR])
    [false; false; true] false [].

(** The peer answers [login:] with [admin] and [Password:] with an empty
    line; every send goes through. *)
Definition empty_password_world : world :=
  mkWorld 23 idle_stats (map RData (blit "admin") ++ [RData CR; RData CR]) [] false [].

(** The peer answers [login:] and [Password:] with admin and then stays
    silent. *)
Definition admin_admin_world : world :=
  mkWorld 23 idle_stats
    (map RData (blit "admin") ++ [RData CR]
     ++ map RData (blit "admin") ++ [RData CR])
    [] false [].

End Telnet.

(** ** honeypots/http/http_honeypot.py *)

Module Http.
Import Py Eff.

(** [self.stats] *)
Record stats_t : Type := mkStats {
  total_requests : Z;
  unique_ips : gset str;
  attack_types : gmap str Z;
  user_agents : gmap str Z;
  request_methods : gmap str Z
}.

(** The [HTTPHoneypot] object and the events it has logged. *)
Record HTTPHoneypot : Type := mkHoneypot {
  stats : stats_t;
  logged : list dict
}.

Definition sql_patterns : list str :=
  [lit "union"; lit "select"; lit "insert"; lit "update"; lit "delete"; lit "drop";
   lit "create"; lit "alter"; [39]; [34]; lit "--"; lit "/*"].
Definition xss_patterns : list str :=
  [lit "<script"; lit "javascript:"; lit "onload="; lit "onerror="; lit "alert(";
   lit "document.cookie"].
Definition admin_patterns : list str :=
  [lit "admin"; lit "wp-admin"; lit "phpmyadmin"; lit "login"; lit "administrator";
   lit "manager"].
Definition scanner_agents : list str :=
  [lit "bot"; lit "crawler"; lit "scanner"; lit "nikto"; lit "sqlmap"; lit "nmap";
   lit "masscan"].
Definition cmd_patterns : list str :=
  [lit "|"; lit ";"; lit "&&"; lit "||"; lit "`"; lit "$"; lit "$("].

(** [request_data.get(k, '')] where a [str] is expected: [None] stands for
    the [AttributeError] of calling [.lower()] on another kind of value. *)
Definition get_str (request_data : dict) (k : string) : option str :=
  match dict_get request_data k with
  | None => Some []
  | Some (VStr s) => Some s
  | Some _ => None
  end.

(** One detection block: [if hit: attack_types.append(tag); threat_level = level]. *)
Definition detect (hit : bool) (tag level : str) (st : list str * str) : list str * str :=
  if hit then (st.1 ++ [tag], level) else st.

Section WithCaseTable.

(** [str.lower], taken as given (Unicode case mapping). *)
Variable lower : str -> str.

Definition analyze_request (self : HTTPHoneypot) (request_data : dict)
  : option (list str * str) :=
  uri ← lower <$> get_str request_data "request_uri";
  user_agent ← lower <$> get_str request_data "user_agent";
  let method := default (VStr []) (dict_get request_data "method") in
  let st := ([], lit "low") in
  let st := detect (any_in sql_patterns uri) (lit "sql_injection") (lit "high") st in
  let st := detect (any_in xss_patterns uri) (lit "xss") (lit "high") st in
  let st := detect (contains uri (lit "../") || contains uri [46; 46; 92])
                   (lit "directory_traversal") (lit "medium") st in
  let st := detect (any_in admin_patterns uri) (lit "admin_access") (lit "medium") st in
  let st := detect (any_in scanner_agents user_agent) (lit "automated_scan") (lit "medium") st in
  let st := detect (contains uri (lit "include") || contains uri (lit "require"))
                   (lit "file_inclusion") (lit "high") st in
  let st := detect (any_in cmd_patterns uri) (lit "command_injection") (lit "high") st in
  Some st.

End WithCaseTable.

(** *** Reading the classifier

    The seven detection blocks in source order: whether the block fires on
    the lower-cased URI and User-Agent, its tag, its level. *)
Definition rules (uri user_agent : str) : list (bool * (str * str)) :=
  [(any_in sql_patterns uri, (lit "sql_injection", lit "high"));
   (any_in xss_patterns uri, (lit "xss", lit "high"));
   (contains uri (lit "../") || contains uri [46; 46; 92],
    (lit "directory_traversal", lit "medium"));
   (any_in admin_patterns uri, (lit "admin_access", lit "medium"));
   (any_in scanner_agents user_agent, (lit "automated_scan", lit "medium"));
   (contains uri (lit "include") || contains uri (lit "require"),
    (lit "file_inclusion", lit "high"));
   (any_in cmd_patterns uri, (lit "command_injection", lit "high"))].

(** The rules that fire. *)
Definition fired (rs : list (bool * (str * str))) : list (str * str) :=
  map snd (List.filter fst rs).

(** Severity order: critical > high > medium > low. *)
Definition severity (level : str) : nat :=
  if str_eqb level (lit "critical") then 3
  else if str_eqb level (lit "high") then 2
  else if str_eqb level (lit "medium") then 1
  else 0.

(** The highest level among fired rules, [low] when none fires: what the
    specification asks [threat_level] to be. *)
Definition max_level (fs : list (str * str)) : str :=
  fold_left (fun best r => if (severity best <? severity r.2)%nat then r.2 else best)
            fs (lit "low").

(** The level of the last fired rule, [low] when none fires. *)
Definition last_level (fs : list (str * str)) : str :=
  List.last (map snd fs) (lit "low").

(** [log_event] of the HTTP honeypot. *)
Definition log_event (event_data : dict) (self : HTTPHoneypot) : HTTPHoneypot :=
  mkHoneypot (stats self)
    (logged self ++ [dict_update event_data
      [("timestamp"%string, VUtcNow);
       ("service"%string, VStr (lit "http"));
       ("honeypot_type"%string, VStr (lit "http_honeypot"));
       ("version"%string, VStr (lit "1.0.0"))]]).

(** What [fake_login] reads of the Flask request. *)
Record request : Type := mkRequest {
  method : str;
  form : list (str * str);
  remote_addr : str;
  forwarded_for : option str     (* environ.get('HTTP_X_FORWARDED_FOR') *)
}.

(** [request.form.get(k, '')] *)
Fixpoint form_get (f : list (str * str)) (k : str) : str :=
  match f with
  | [] => []
  | (k', v) :: r => if str_eqb k k' then v else form_get r k
  end.

Inductive page : Type := LoginFailedPage | LoginFormPage.

Definition fake_login (req : request) (self : HTTPHoneypot) : page * HTTPHoneypot :=
  if str_eqb (method req) (lit "POST") then
    let username := form_get (form req) (lit "username") in
    let password := form_get (form req) (lit "password") in
    let login_event :=
      [("event_type"%string, VStr (lit "login_attempt"));
       ("source_ip"%string, VStr (default (remote_addr req) (forwarded_for req)));
       ("username"%string, VStr username);
       ("password"%string, VStr password);
       ("success"%string, VBool false);
       ("attack_type"%string, VStr (lit "credential_stuffing"))] in
    (LoginFailedPage, log_event login_event self)
  else (LoginFormPage, self).

(** *** Sample requests for the properties *)

(** A request for [/download?file=../../etc/passwd'] sent with curl. *)
Definition probe_uri : str := lit "/download?file=../../etc/passwd'".
Definition probe_agent : str := lit "curl/8.4.0".

Definition probe : dict :=
  [("event_type"%string, VStr (lit "http_request"));
   ("source_ip"%string, VStr (lit "10.0.0.1"));
   ("method"%string, VStr (lit "GET"));
   ("request_uri"%string, VStr probe_uri);
   ("user_agent"%string, VStr probe_agent)].

(** A honeypot object that has served nothing yet. *)
Definition no_requests : HTTPHoneypot := mkHoneypot (mkStats 0 ∅ ∅ ∅ ∅) [].

(** The same probe as another visitor sends it, to a honeypot that has
    already served requests. *)
Definition probe_again : dict :=
  [("event_type"%string, VStr (lit "http_request"));
   ("source_ip"%string, VStr (lit "192.168.7.7"));
   ("method"%string, VStr (lit "GET"));
   ("request_uri"%string, VStr probe_uri);
   ("user_agent"%string, VStr probe_agent);
   ("referer"%string, VStr (lit "http://example.org/"))].

Definition busy : HTTPHoneypot :=
  mkHoneypot (mkStats 17 {[lit "10.0.0.1"]} (bump (lit "xss") ∅) ∅ (bump (lit "GET") ∅))
             [probe].

End Http.

(** ** honeypots/ftp/ftp_honeypot.py *)

Module Ftp.
Import Py Eff.

Record stats_t : Type := mkStats {
  total_connections : Z;
  login_attempts : Z;
  unique_ips : gset str;
  common_usernames : gmap str Z;
  common_passwords : gmap str Z;
  file_operations : gmap str Z
}.

(** The module-level [honeypot] object and the events it has logged. *)
Record FTPHoneypot : Type := mkHoneypot {
  stats : stats_t;
  logged : list dict
}.

Abbreviation M := (Eff.M FTPHoneypot).

Definition log_event (event_data : dict) : M unit :=
  modify (fun h => mkHoneypot (stats h)
    (logged h ++ [dict_update event_data
      [("timestamp"%string, VUtcNow);
       ("service"%string, VStr (lit "ftp"));
       ("honeypot_type"%string, VStr (lit "ftp_honeypot"));
       ("version"%string, VStr (lit "1.0.0"))]])).

(** [HoneypotAuthorizer.validate_authentication]; [remote_ip] is
    [handler.remote_ip]. *)
Definition validate_authentication (username password remote_ip : str) : M unit :=
  let client_ip := remote_ip in
  modify (fun h => mkHoneypot
    (let s := stats h in
     mkStats (total_connections s) (login_attempts s + 1)%Z (unique_ips s)
             (bump username (common_usernames s))
             (bump password (common_passwords s))
             (file_operations s))
    (logged h)) ;;
  log_event
    [("event_type"%string, VStr (lit "login_attempt"));
     ("source_ip"%string, VStr client_ip);
     ("username"%string, VStr username);
     ("password"%string, VStr password);
     ("success"%string, VBool false);
     ("attack_type"%string, VStr (lit "brute_force"));
     ("session_id"%string, VIpTime client_ip)] ;;
  raise AuthenticationFailed.

End Ftp.

(** ** honeypots/ssh/ssh_honeypot.py *)

Module Ssh.
Import Py Eff.

Record stats_t : Type := mkStats {
  total_connections : Z;
  auth_attempts : Z;
  unique_ips : gset str;
  common_usernames : gmap str Z;
  common_passwords : gmap str Z
}.

Record SSHHoneypot : Type := mkHoneypot {
  stats : stats_t;
  logged : list dict
}.

Abbreviation M := (Eff.M SSHHoneypot).

Definition log_event (event_data : dict) : M unit :=
  modify (fun h => mkHoneypot (stats h)
    (logged h ++ [dict_update event_data
      [("timestamp"%string, VUtcNow);
       ("service"%string, VStr (lit "ssh"));
       ("honeypot_type"%string, VStr (lit "ssh_honeypot"));
       ("version"%string, VStr (lit "1.0.0"))]])).

Definition handle_auth (username password client_ip : str) : M bool :=
  modify (fun h => mkHoneypot
    (let s := stats h in
     mkStats (total_connections s) (auth_attempts s + 1)%Z ({[client_ip]} ∪ unique_ips s)
             (bump username (common_usernames s))
             (bump password (common_passwords s)))
    (logged h)) ;;
  log_event
    [("event_type"%string, VStr (lit "auth_attempt"));
     ("source_ip"%string, VStr client_ip);
     ("username"%string, VStr username);
     ("password"%string, VStr password);
     ("success"%string, VBool false);
     ("session_id"%string, VIpTime client_ip);
     ("user_agent"%string, VStr (lit "ssh_client"));
     ("attack_type"%string, VStr (lit "brute_force"))] ;;
  mret false.

(** Answers of [paramiko.ServerInterface] to an authentication request. *)
Inductive auth_result : Type := AUTH_SUCCESSFUL | AUTH_PARTIALLY_SUCCESSFUL | AUTH_FAILED.

(** [SSHServerInterface.check_auth_password]; [client_ip] is [self.client_ip]. *)
Definition check_auth_password (client_ip username password : str) : M auth_result :=
  handle_auth username password client_ip ;;
  mret AUTH_FAILED.

End Ssh.

(** ** services/alerts/alert_service.py *)

Module Alerts.
Import Py Eff.

(** A naive [datetime.datetime]: its seven fields. *)
Record datetime : Type := mkDatetime {
  year : N;
  month : N;
  day : N;
  hour : N;
  minute : N;
  second : N;
  microsecond : N
}.

Definition is_leap (y : N) : bool :=
  (y mod 4 =? 0) && (negb (y mod 100 =? 0) || (y mod 400 =? 0)).

Definition days_in_month (y m : N) : N :=
  if m =? 2 then (if is_leap y then 29 else 28)
  else if (m =? 4) || (m =? 6) || (m =? 9) || (m =? 11) then 30
  else 31.

(** The values a [datetime] object can hold. *)
Definition valid (d : datetime) : Prop :=
  1 <= year d <= 9999 /\ 1 <= month d <= 12
  /\ 1 <= day d <= days_in_month (year d) (month d)
  /\ hour d < 24 /\ minute d < 60 /\ second d < 60 /\ microsecond d < 1000000.

Definition fields (d : datetime) : list N :=
  [year d; month d; day d; hour d; minute d; second d; microsecond d].

Fixpoint lex_ltb (a b : list N) : bool :=
  match a, b with
  | x :: a', y :: b' => (x <? y) || ((x =? y) && lex_ltb a' b')
  | _, _ => false
  end.

(** [a < b] on datetimes: field by field, most significant first. *)
Definition dt_ltb (a b : datetime) : bool := lex_ltb (fields a) (fields b).

(** [d - timedelta(hours=24)]: the same time on the previous calendar day;
    [None] stands for the [OverflowError] below year 1. *)
Definition minus_24h (d : datetime) : option datetime :=
  if 1 <? day d then
    Some (mkDatetime (year d) (month d) (day d - 1)
            (hour d) (minute d) (second d) (microsecond d))
  else if 1 <? month d then
    Some (mkDatetime (year d) (month d - 1) (days_in_month (year d) (month d - 1))
            (hour d) (minute d) (second d) (microsecond d))
  else if 1 <? year d then
    Some (mkDatetime (year d - 1) 12 31
            (hour d) (minute d) (second d) (microsecond d))
  else None.

Definition digit (n : N) : N := 48 + n mod 10.
Definition pad2 (n : N) : str := [digit (n / 10); digit n].
Definition pad4 (n : N) : str := [digit (n / 1000); digit (n / 100); digit (n / 10); digit n].

(** [d.strftime('%Y%m%d%H')] *)
Definition strftime_YmdH (d : datetime) : str :=
  pad4 (year d) ++ pad2 (month d) ++ pad2 (day d) ++ pad2 (hour d).

(** [self.thresholds] *)
Record thresholds_t : Type := mkThresholds {
  high_volume_attacks : Z;
  unique_ips_per_hour : Z;
  brute_force_attempts : Z;
  iot_botnet_activity : Z
}.

Inductive channel : Type := Email | Slack.

(** One call of [send_alert]: its arguments and the channels it fans out
    to.  [sent_key] is the [alert_key] of the branch that made the call;
    [send_alert] does not receive it, it is kept to state the
    deduplication property. *)
Record alert : Type := mkAlert {
  sent_key : str;
  subject : str;
  message : str;
  severity : str;
  metadata : dict;
  channels : list channel
}.

(** The [AlertService] object.  [ticks] counts the readings of
    [datetime.now()] made so far, [dispatched] lists the calls of
    [send_alert], oldest first. *)
Record AlertService : Type := mkService {
  thresholds : thresholds_t;
  alert_email : option str;
  smtp_username : option str;
  smtp_password : option str;
  slack_webhook : option str;
  sent_alerts : gmap str datetime;
  ticks : nat;
  dispatched : list alert
}.

Definition set_sent_alerts (m : gmap str datetime) (s : AlertService) : AlertService :=
  mkService (thresholds s) (alert_email s) (smtp_username s) (smtp_password s)
            (slack_webhook s) m (ticks s) (dispatched s).
Definition set_ticks (n : nat) (s : AlertService) : AlertService :=
  mkService (thresholds s) (alert_email s) (smtp_username s) (smtp_password s)
            (slack_webhook s) (sent_alerts s) n (dispatched s).
Definition set_dispatched (l : list alert) (s : AlertService) : AlertService :=
  mkService (thresholds s) (alert_email s) (smtp_username s) (smtp_password s)
            (slack_webhook s) (sent_alerts s) (ticks s) l.

Abbreviation M := (Eff.M AlertService).

(** Truth value of an optional setting: unset and empty are false. *)
Definition is_set (o : option str) : bool :=
  match o with Some (_ :: _) => true | _ => false end.

(** [send_alert]: one attempt per configured channel; a channel that fails
    logs the error and changes nothing. *)
Definition send_alert (alert_key : str) (subject message severity : str) (metadata : dict)
  : M unit :=
  modify (fun s =>
    let email := if is_set (alert_email s) && is_set (smtp_username s)
                    && is_set (smtp_password s) then [Email] else [] in
    let slack := if is_set (slack_webhook s) then [Slack] else [] in
    set_dispatched
      (dispatched s ++ [mkAlert alert_key subject message severity metadata (email ++ slack)])
      s).

Section WithClock.

(** The successive readings of [datetime.now()]. *)
Variable clock : nat -> datetime.

Definition now : M datetime := fun s => (Ret (clock (ticks s)), set_ticks (S (ticks s)) s).

(** [response] is the count the search returned, [None] when the search
    or the reading of its answer raised. *)
Definition check_high_volume_attacks (response : option Z) : M unit :=
  match response with
  | None => mret tt
  | Some attack_count =>
      s ← get_world;
      if (high_volume_attacks (thresholds s) <? attack_count)%Z then
        t ← now;
        let alert_key := lit "high_volume_" ++ strftime_YmdH t in
        s ← get_world;
        if decide (sent_alerts s !! alert_key = None) then
          send_alert alert_key (lit "High Volume Attack Detected")
            (lit "Detected " ++ str_of_Z attack_count
             ++ lit " attacks in the last hour (threshold: "
             ++ str_of_Z (high_volume_attacks (thresholds s)) ++ lit ")")
            (lit "high")
            [("attack_count"%string, VInt attack_count);
             ("timeframe"%string, VStr (lit "1 hour"))] ;;
          t' ← now;
          modify (fun s => set_sent_alerts (<[alert_key := t']> (sent_alerts s)) s)
        else mret tt
      else mret tt
  end.

Definition check_unique_ips (response : option Z) : M unit :=
  match response with
  | None => mret tt
  | Some unique_ip_count =>
      s ← get_world;
      if (unique_ips_per_hour (thresholds s) <? unique_ip_count)%Z then
        t ← now;
        let alert_key := lit "unique_ips_" ++ strftime_YmdH t in
        s ← get_world;
        if decide (sent_alerts s !! alert_key = None) then
          send_alert alert_key (lit "Unusual IP Activity Detected")
            (lit "Detected " ++ str_of_Z unique_ip_count
             ++ lit " unique IPs in the last hour (threshold: "
             ++ str_of_Z (unique_ips_per_hour (thresholds s)) ++ lit ")")
            (lit "medium")
            [("unique_ip_count"%string, VInt unique_ip_count);
             ("timeframe"%string, VStr (lit "1 hour"))] ;;
          t' ← now;
          modify (fun s => set_sent_alerts (<[alert_key := t']> (sent_alerts s)) s)
        else mret tt
      else mret tt
  end.

(** The [for bucket in ...['buckets']] loop of [check_brute_force_attacks];
    a bucket is [(bucket['key'], bucket['doc_count'])]. *)
Fixpoint brute_force_buckets (buckets : list (str * Z)) : M unit :=
  match buckets with
  | [] => mret tt
  | (ip, attempt_count) :: rest =>
      s ← get_world;
      (if (brute_force_attempts (thresholds s) <? attempt_count)%Z then
         t ← now;
         let alert_key := lit "brute_force_" ++ ip ++ lit "_" ++ strftime_YmdH t in
         s ← get_world;
         if decide (sent_alerts s !! alert_key = None) then
           send_alert alert_key (lit "Brute Force Attack Detected")
             (lit "IP " ++ ip ++ lit " made " ++ str_of_Z attempt_count
              ++ lit " login attempts in the last hour (threshold: "
              ++ str_of_Z (brute_force_attempts (thresholds s)) ++ lit ")")
             (lit "high")
             [("source_ip"%string, VStr ip);
              ("attempt_count"%string, VInt attempt_count);
              ("timeframe"%string, VStr (lit "1 hour"))] ;;
           t' ← now;
           modify (fun s => set_sent_alerts (<[alert_key := t']> (sent_alerts s)) s)
         else mret tt
       else mret tt) ;;
      brute_force_buckets rest
  end.

Definition check_brute_force_attacks (response : option (list (str * Z))) : M unit :=
  match response with
  | None => mret tt
  | Some buckets => brute_force_buckets buckets
  end.

(** [response] is [(iot_count, keys of the by_ip buckets)]. *)
Definition check_iot_botnet_activity (response : option (Z * list str)) : M unit :=
  match response with
  | None => mret tt
  | Some (iot_count, by_ip) =>
      s ← get_world;
      if (iot_botnet_activity (thresholds s) <? iot_count)%Z then
        t ← now;
        let alert_key := lit "iot_botnet_" ++ strftime_YmdH t in
        s ← get_world;
        if decide (sent_alerts s !! alert_key = None) then
          let top_ips := firstn 5 by_ip in
          send_alert alert_key (lit "IoT Botnet Activity Detected")
            (lit "Detected " ++ str_of_Z iot_count
             ++ lit " IoT botnet attempts in the last hour (threshold: "
             ++ str_of_Z (iot_botnet_activity (thresholds s)) ++ lit ")"
             ++ [10] ++ lit "Top IPs: " ++ join (lit ", ") top_ips)
            (lit "critical")
            [("iot_attempt_count"%string, VInt iot_count);
             ("top_ips"%string, VList top_ips);
             ("timeframe"%string, VStr (lit "1 hour"))] ;;
          t' ← now;
          modify (fun s => set_sent_alerts (<[alert_key := t']> (sent_alerts s)) s)
        else mret tt
      else mret tt
  end.

(** [cleanup_old_alerts]; [del] cannot fail here, the keys come from the
    store itself. *)
Definition cleanup_old_alerts : M unit :=
  t ← now;
  match minus_24h t with
  | None => raise OverflowError
  | Some cutoff_time =>
      s ← get_world;
      let keys_to_remove :=
        map fst (List.filter (fun kv => dt_ltb (snd kv) cutoff_time)
                             (map_to_list (sent_alerts s))) in
      modify (set_sent_alerts (foldl (fun m key => delete key m) (sent_alerts s) keys_to_remove))
  end.

Definition run_checks (r1 r2 : option Z) (r3 : option (list (str * Z)))
    (r4 : option (Z * list str)) : M unit :=
  try_except
    (check_high_volume_attacks r1 ;;
     check_unique_ips r2 ;;
     check_brute_force_attacks r3 ;;
     check_iot_botnet_activity r4)
    (fun _ => mret tt).

(** What the scheduler of [run] starts: a round of checks, with the
    answers the four searches get, or a cleanup.  An exception of a job is
    logged by the loop of [run], which goes on. *)
Inductive job : Type :=
| RunChecks (r1 r2 : option Z) (r3 : option (list (str * Z))) (r4 : option (Z * list str))
| Cleanup.

Definition run_job (j : job) : M unit :=
  match j with
  | RunChecks r1 r2 r3 r4 => run_checks r1 r2 r3 r4
  | Cleanup => try_except cleanup_old_alerts (fun _ => mret tt)
  end.

Fixpoint run_jobs (js : list job) : M unit :=
  match js with
  | [] => mret tt
  | j :: rest => run_job j ;; run_jobs rest
  end.

End WithClock.

(** A freshly constructed service. *)
Definition init (th : thresholds_t) (email user pass slack : option str) : AlertService :=
  mkService th email user pass slack ∅ 0 [].

(** *** Reading the dispatch log *)

(** What a deduplication key is about: the check and, for the per-IP
    check, the address. *)
Inductive topic : Type :=
| HighVolume
| UniqueIps
| BruteForce (ip : str)
| IotBotnet.

Definition topic_prefix (c : topic) : str :=
  match c with
  | HighVolume => lit "high_volume_"
  | UniqueIps => lit "unique_ips_"
  | BruteForce ip => lit "brute_force_" ++ ip ++ lit "_"
  | IotBotnet => lit "iot_botnet_"
  end.

(** The [alert_key] of a topic at a time, as the four checks build it. *)
Definition key_of (c : topic) (t : datetime) : str :=
  match c with
  | HighVolume => lit "high_volume_" ++ strftime_YmdH t
  | UniqueIps => lit "unique_ips_" ++ strftime_YmdH t
  | BruteForce ip => lit "brute_force_" ++ ip ++ lit "_" ++ strftime_YmdH t
  | IotBotnet => lit "iot_botnet_" ++ strftime_YmdH t
  end.

(** The threshold a topic is compared with. *)
Definition threshold_of (c : topic) (th : thresholds_t) : Z :=
  match c with
  | HighVolume => high_volume_attacks th
  | UniqueIps => unique_ips_per_hour th
  | BruteForce _ => brute_force_attempts th
  | IotBotnet => iot_botnet_activity th
  end.

(** One check for one topic, with the aggregate [n] as the answer of its
    search ([by_ip] are the bucket keys the botnet search returns as well). *)
Definition check_of (clock : nat -> datetime) (c : topic) (n : Z) (by_ip : list str)
  : M unit :=
  match c with
  | HighVolume => check_high_volume_attacks clock (Some n)
  | UniqueIps => check_unique_ips clock (Some n)
  | BruteForce ip => check_brute_force_attacks clock (Some [(ip, n)])
  | IotBotnet => check_iot_botnet_activity clock (Some (n, by_ip))
  end.

(** The store [m'] is the store [m] without the entries older than
    [cutoff]. *)
Definition evicted (cutoff : datetime) (m m' : gmap str datetime) : Prop :=
  forall k,
    m' !! k = match m !! k with
              | Some ts => if dt_ltb ts cutoff then None else Some ts
              | None => None
              end.

(** The hour bucket of a time. *)
Definition hour_bucket (t : datetime) : N * N * N * N := (year t, month t, day t, hour t).

(** Order-preserving numbering of the valid datetimes, used to reason
    about the comparison. *)
Definition rank (d : datetime) : N :=
  (((((year d * 13 + month d) * 32 + day d) * 24 + hour d) * 60 + minute d) * 60
   + second d) * 1000000 + microsecond d.

(** The position of a datetime on the time line, in microseconds, by the
    proleptic Gregorian day count that [datetime] arithmetic uses
    ([toordinal]). *)
Definition days_before_year (y : Z) : Z :=
  ((y - 1) * 365 + (y - 1) / 4 - (y - 1) / 100 + (y - 1) / 400)%Z.

Definition days_before_month (y m : N) : Z :=
  (nth (Nat.pred (N.to_nat m)) [0; 31; 59; 90; 120; 151; 181; 212; 243; 273; 304; 334] 0
   + (if (2 <? m)%N && is_leap y then 1 else 0))%Z.

Definition toordinal (d : datetime) : Z :=
  (days_before_year (Z.of_N (year d)) + days_before_month (year d) (month d)
   + Z.of_N (day d))%Z.

Definition microseconds (d : datetime) : Z :=
  ((((toordinal d * 24 + Z.of_N (hour d)) * 60 + Z.of_N (minute d)) * 60
    + Z.of_N (second d)) * 1000000 + Z.of_N (microsecond d))%Z.

(** The extra day of a leap year. *)
Definition leap (y : N) : Z := if is_leap y then 1 else 0.

(** Twenty-four hours, in microseconds. *)
Definition day_us : Z := (24 * 3600 * 1000000)%Z.

(** The hour bucket as a number, and the bounds on the fields under which
    [rank] follows the field-wise order. *)
Definition hour_rank (d : datetime) : N :=
  ((year d * 13 + month d) * 32 + day d) * 24 + hour d.

Definition bounded (d : datetime) : Prop :=
  month d <= 12 /\ day d <= 31 /\ hour d < 24 /\ minute d < 60 /\ second d < 60
  /\ microsecond d < 1000000.

(** Twenty-four hours and one hour in units of [rank]. *)
Definition rank_day : N := 24 * 3600 * 1000000.
Definition rank_hour : N := 3600 * 1000000.

(** The clock shows valid datetimes and never runs backwards. *)
Definition clock_ok (clock : nat -> datetime) : Prop :=
  (forall i, valid (clock i)) /\
  (forall i j, (i <= j)%nat -> dt_ltb (clock j) (clock i) = false).

(** *** Vocabulary and sample runs for the properties *)

(** The first character of a key tells the check. *)
Definition initial (c : topic) : N :=
  match c with
  | HighVolume => 104
  | UniqueIps => 117
  | BruteForce _ => 98
  | IotBotnet => 105
  end.

(** What the checks pass to [send_alert]. *)
Definition volume_message (n : Z) (s : AlertService) : str :=
  lit "Detected " ++ str_of_Z n ++ lit " attacks in the last hour (threshold: "
  ++ str_of_Z (high_volume_attacks (thresholds s)) ++ lit ")".

Definition ips_message (n : Z) (s : AlertService) : str :=
  lit "Detected " ++ str_of_Z n ++ lit " unique IPs in the last hour (threshold: "
  ++ str_of_Z (unique_ips_per_hour (thresholds s)) ++ lit ")".

Definition brute_message (ip : str) (n : Z) (s : AlertService) : str :=
  lit "IP " ++ ip ++ lit " made " ++ str_of_Z n
  ++ lit " login attempts in the last hour (threshold: "
  ++ str_of_Z (brute_force_attempts (thresholds s)) ++ lit ")".

Definition iot_message (n : Z) (by_ip : list str) (s : AlertService) : str :=
  lit "Detected " ++ str_of_Z n ++ lit " IoT botnet attempts in the last hour (threshold: "
  ++ str_of_Z (iot_botnet_activity (thresholds s)) ++ lit ")"
  ++ [10] ++ lit "Top IPs: " ++ join (lit ", ") (firstn 5 by_ip).

(** What a topic passes to [send_alert]. *)
Definition subject_of (c : topic) : str :=
  match c with
  | HighVolume => lit "High Volume Attack Detected"
  | UniqueIps => lit "Unusual IP Activity Detected"
  | BruteForce _ => lit "Brute Force Attack Detected"
  | IotBotnet => lit "IoT Botnet Activity Detected"
  end.

Definition severity_of (c : topic) : str :=
  match c with
  | HighVolume => lit "high"
  | UniqueIps => lit "medium"
  | BruteForce _ => lit "high"
  | IotBotnet => lit "critical"
  end.

Definition message_of (c : topic) (n : Z) (by_ip : list str) : AlertService -> str :=
  match c with
  | HighVolume => volume_message n
  | UniqueIps => ips_message n
  | BruteForce ip => brute_message ip n
  | IotBotnet => iot_message n by_ip
  end.

Definition metadata_of (c : topic) (n : Z) (by_ip : list str) : dict :=
  match c with
  | HighVolume =>
      [("attack_count"%string, VInt n); ("timeframe"%string, VStr (lit "1 hour"))]
  | UniqueIps =>
      [("unique_ip_count"%string, VInt n); ("timeframe"%string, VStr (lit "1 hour"))]
  | BruteForce ip =>
      [("source_ip"%string, VStr ip); ("attempt_count"%string, VInt n);
       ("timeframe"%string, VStr (lit "1 hour"))]
  | IotBotnet =>
      [("iot_attempt_count"%string, VInt n); ("top_ips"%string, VList (firstn 5 by_ip));
       ("timeframe"%string, VStr (lit "1 hour"))]
  end.

Section Protocol.
Variable clock : nat -> datetime.

(** The branch that the four checks share once the threshold is
    exceeded. *)
Definition once (c : topic) (subject severity : str) (message : AlertService -> str)
    (metadata : dict) : M unit :=
  t ← now clock;
  let alert_key := key_of c t in
  s ← get_world;
  if decide (sent_alerts s !! alert_key = None) then
    send_alert alert_key subject (message s) severity metadata ;;
    t' ← now clock;
    modify (fun s => set_sent_alerts (<[alert_key := t']> (sent_alerts s)) s)
  else mret tt.

(** The channels [send_alert] fans out to. *)
Definition fan_out (s : AlertService) : list channel :=
  (if is_set (alert_email s) && is_set (smtp_username s) && is_set (smtp_password s)
   then [Email] else [])
  ++ (if is_set (slack_webhook s) then [Slack] else []).

(** The state after a dispatch under the key of [c]. *)
Definition after_dispatch (c : topic) (subject severity : str)
    (message : AlertService -> str) (metadata : dict) (s : AlertService) : AlertService :=
  let k := key_of c (clock (ticks s)) in
  mkService (thresholds s) (alert_email s) (smtp_username s) (smtp_password s)
    (slack_webhook s)
    (<[k := clock (S (ticks s))]> (sent_alerts s))
    (S (S (ticks s)))
    (dispatched s
     ++ [mkAlert k subject (message (set_ticks (S (ticks s)) s)) severity metadata
                 (fan_out s)]).

(** The three ways in which the service changes its state: a clock reading
    without further effect, the dispatch of a notification under a key
    that the store does not hold, and a cleanup. *)
Inductive step : AlertService -> AlertService -> Prop :=
| step_tick s : step s (set_ticks (S (ticks s)) s)
| step_dispatch s c a :
    sent_alerts s !! key_of c (clock (ticks s)) = None ->
    sent_key a = key_of c (clock (ticks s)) ->
    step s (mkService (thresholds s) (alert_email s) (smtp_username s) (smtp_password s)
              (slack_webhook s)
              (<[key_of c (clock (ticks s)) := clock (S (ticks s))]> (sent_alerts s))
              (S (S (ticks s))) (dispatched s ++ [a]))
| step_evict s cutoff m' :
    minus_24h (clock (ticks s)) = Some cutoff ->
    evicted cutoff (sent_alerts s) m' ->
    step s (mkService (thresholds s) (alert_email s) (smtp_username s) (smtp_password s)
              (slack_webhook s) m' (S (ticks s)) (dispatched s)).

(** What holds of the store and the dispatch log at all times. *)
Record Inv (s : AlertService) : Prop := mkInv {
  inv_store : forall k ts,
    sent_alerts s !! k = Some ts -> k ∈ map sent_key (dispatched s);
  inv_nodup : NoDup (map sent_key (dispatched s));
  inv_log : forall a, a ∈ dispatched s ->
    exists c i, (i < ticks s)%nat /\ sent_key a = key_of c (clock i) /\
      match sent_alerts s !! sent_key a with
      | Some ts => exists i', (i <= i')%nat /\ (i' < ticks s)%nat /\ ts = clock i'
      | None => exists j, (j < ticks s)%nat /\ hour_rank (clock i) < hour_rank (clock j)
      end
}.

End Protocol.

(** A clock that stays in the tenth hour of 17 May 2024 for three
    readings and is in the eleventh hour from then on. *)
Definition two_hours (i : nat) : datetime :=
  mkDatetime 2024 5 17 (if (i <? 3)%nat then 10 else 11) 0 0 0.

(** The default thresholds. *)
Definition limits : thresholds_t := mkThresholds 100 50 20 10.

(** Three rounds of checks in which the volume search answers 150. *)
Definition three_rounds : list job :=
  [RunChecks (Some 150%Z) None None None;
   RunChecks (Some 150%Z) None None None;
   RunChecks (Some 150%Z) None None None].

(** A store with a key filed at 09:30 on 16 May 2024 and a key filed at
    10:30 the same day, and a clock that shows 10:00 on 17 May 2024. *)
Definition old_stamp : datetime := mkDatetime 2024 5 16 9 30 0 0.
Definition young_stamp : datetime := mkDatetime 2024 5 16 10 30 0 0.
Definition cleanup_time (_ : nat) : datetime := mkDatetime 2024 5 17 10 0 0 0.

Definition two_entries : AlertService :=
  mkService limits None None None None
    (<[lit "high_volume_2024051609" := old_stamp]>
       (<[lit "unique_ips_2024051610" := young_stamp]> ∅))
    0 [].

End Alerts.

(** ** Vocabulary for text and counters *)

Module PyText.
Import Py.

(** A code point that UTF-8 can encode: a Unicode scalar value. *)
Definition scalar (c : N) : Prop := c < 55296 \/ 57344 <= c < 1114112.

(** A string without white space at either end. *)
Definition trimmed (s : str) : Prop :=
  match s with
  | [] => True
  | c :: _ => isspace c = false /\ isspace (List.last s 0) = false
  end.

(** A string of white space only. *)
Definition blank (s : str) : Prop := Forall (fun c => isspace c = true) s.

End PyText.

Module Counters.
Import Py.

(** Sum of the counts of a counter dictionary. *)
Definition total (m : gmap str Z) : Z := map_fold (fun _ v acc => (v + acc)%Z) 0%Z m.

(** [for t in tags: d[t] = d.get(t, 0) + 1] *)
Definition bump_all (tags : list str) (m : gmap str Z) : gmap str Z :=
  fold_left (fun m t => bump t m) tags m.

(** How many elements of a list satisfy [p]. *)
Definition tally {A} (p : A -> bool) (l : list A) : Z := Z.of_nat (length (List.filter p l)).

End Counters.

(** ** Observations that a computation leaves unchanged *)

Module Frame.
Import Eff.

(** [m] never changes what [f] observes of the state, however it ends. *)
Definition keeps {W T A} (f : W -> T) (m : M W A) : Prop :=
  forall w, f (m w).2 = f w.

End Frame.

(** ** The Telnet connection, step by step *)

Module TelnetSession.
Import Py Eff Telnet Counters.

(** Number of logged events of one type. *)
Definition count (t : string) (tr : list action) : Z := Z.of_nat (length (events t tr)).

(** What the statistics say beyond the event log: each counter minus the
    number of events it should stand for. *)
Record audit_t : Type := mkAudit {
  a_connections : Z;        (* total_connections *)
  a_connection_events : Z;
  a_disconnect_events : Z;
  a_unique_ips : gset str;
  a_logins : Z;             (* login_attempts - login_attempt events *)
  a_usernames : Z;          (* sum of common_usernames - login_attempts *)
  a_passwords : Z;          (* sum of common_passwords - login_attempts *)
  a_commands : Z            (* sum of commands_executed - command events *)
}.

Definition audit (w : world) : audit_t :=
  let s := stats w in
  mkAudit (total_connections s) (count "connection" (trace w))
    (count "disconnect" (trace w)) (unique_ips s)
    (login_attempts s - count "login_attempt" (trace w))
    (total (common_usernames s) - login_attempts s)
    (total (common_passwords s) - login_attempts s)
    (total (commands_executed s) - count "command_execution" (trace w)).

(** An event as [log_event] ships it: with the four common fields. *)
Definition stamped (event_data : dict) : dict :=
  dict_update event_data
    [("timestamp"%string, VUtcNow);
     ("service"%string, VStr (lit "telnet"));
     ("honeypot_type"%string, VStr (lit "telnet_honeypot"));
     ("version"%string, VStr (lit "1.0.0"))].

(** The [try] block of [handle_client] with its [except] clause. *)
Definition dialogue (lower : str -> str) (client_ip : str) : M unit :=
  try_except
    (send banner ;;
     username ← get_input (lit "login: ") false;
     match username with
     | Some ((_ :: _) as username) =>
         send (blit "Password: ") ;;
         password ← get_input (lit "Password: ") true;
         match password with
         | Some ((_ :: _) as password) =>
             handle_login_attempt client_ip username password ;;
             send (bcrlf ++ blit "Login incorrect" ++ bcrlf) ;;
             sleep 2 ;;
             simulate_shell lower client_ip username
         | _ => mret tt
         end
     | _ => mret tt
     end)
    (fun _ => mret tt).

(** The state in which [handle_client] enters its [try] block: the
    connection is counted and its [connection] event logged. *)
Definition greeted (client_addr : str * Z) (w : world) : world :=
  push (Log (stamped (connection_event (fst client_addr) (snd client_addr) (port w))))
    (set_stats (fun s =>
       mkStats (total_connections s + 1)%Z (login_attempts s)
               ({[fst client_addr]} ∪ unique_ips s)
               (common_usernames s) (common_passwords s) (commands_executed s)) w).

(** The line that [get_input] makes of the keys typed before the line
    end. *)
Definition line_of (keys : bytes) : str := strip (decode_utf8_ignore (edit keys [])).

(** A code point that is neither an erase key nor a line end. *)
Definition plain_cp (c : N) : Prop := c <> 8 /\ c <> 10 /\ c <> 13 /\ c <> 127.

(** What the shell simulation does to the outside: it sends, and it logs
    [command_execution] events. *)
Definition is_shell_action (a : action) : bool :=
  match a with
  | Send _ => true
  | Log _ => is_event "command_execution" a
  | _ => false
  end.

(** The trace without the actions of the shell simulation. *)
Definition others (w : world) : list action :=
  List.filter (fun a => negb (is_shell_action a)) (trace w).

(** Number of [login_attempt] events logged so far. *)
Definition logins (w : world) : Z := count "login_attempt" (trace w).

(** A client that types admin, CR LF, secret, CR LF. *)
Definition crlf_client_world : world :=
  mkWorld 23 idle_stats
    (map RData (blit "admin") ++ RData CR :: RData LF
     :: map RData (blit "secret") ++ [RData CR; RData LF])
    [] false [].

(** The state in which [handle_client] leaves its [finally] block. *)
Definition parted (client_ip : str) (w : world) : world :=
  push (Log (stamped (disconnect_event client_ip))) (push Close w).

(** What the peer sends for a series of lines, each ended by CR. *)
Definition typed (lines : list bytes) : list recv_event :=
  flat_map (fun keys => map RData keys ++ [RData CR]) lines.

(** Keys that make a command on which the shell loop goes on: no line
    end among them, a line that is not empty, at most ten words. *)
Definition command_keys (keys : bytes) : Prop :=
  Forall (fun k => is_eol k = false) keys
  /\ line_of keys <> []
  /\ (length (split (line_of keys)) <= 10)%nat.

(** A shell session in which the peer ends its lines with CR LF. *)
Definition crlf_shell_world : world :=
  mkWorld 23 idle_stats
    (map RData (blit "id") ++ RData CR :: RData LF
     :: map RData (blit "uname -a") ++ [RData CR; RData LF])
    [] false [].

End TelnetSession.

(** ** The request hook of the HTTP decoy *)

Module HttpRequests.
Import Py Http Counters.


(** What the hook reads of the Flask request, beyond what [fake_login]
    reads ([base]): attributes and header look-ups are taken as the values
    they return. *)
Record flask_request : Type := mkFlask {
  base : request;
  full_path : str;                   (* request.full_path *)
  user_agent : option str;           (* request.headers.get('User-Agent') *)
  referer : option str;              (* request.headers.get('Referer') *)
  content_type : option str;         (* request.headers.get('Content-Type') *)
  content_length : option str;       (* request.headers.get('Content-Length') *)
  headers : list (str * str);        (* dict(request.headers) *)
  query_string : bytes               (* request.query_string *)
}.



(** [client_ip]: the forwarded address when the header is there. *)
Definition client_ip (r : flask_request) : str :=
  default (remote_addr (base r)) (forwarded_for (base r)).

(** The dictionary literal [request_data]; [qs] is the decoded query
    string.  [form_data] is the form as [fake_login] reads it: the empty
    dictionary when there is no field. *)
Definition request_data (r : flask_request) (qs : str) : dict :=
  [("event_type"%string, VStr (lit "http_request"));
   ("source_ip"%string, VStr (client_ip r));
   ("method"%string, VStr (method (base r)));
   ("request_uri"%string, VStr (full_path r));
   ("user_agent"%string, VStr (default [] (user_agent r)));
   ("referer"%string, VStr (default [] (referer r)));
   ("content_type"%string, VStr (default [] (content_type r)));
   ("content_length"%string, VStr (default [] (content_length r)));
   ("headers"%string, VStrDict (headers r));
   ("query_string"%string, VStr qs);
   ("form_data"%string, VStrDict (form (base r)));
   ("session_id"%string, VIpTime (client_ip r))].

Section WithCaseTable.
Variable lower : str -> str.



End WithCaseTable.

(** The tags in the order of the detection blocks. *)
Definition all_tags : list str :=
  [lit "sql_injection"; lit "xss"; lit "directory_traversal"; lit "admin_access";
   lit "automated_scan"; lit "file_inclusion"; lit "command_injection"].



(** The probe with text before and behind its URI and its User-Agent. *)
Definition padded_probe : dict :=
  [("event_type"%string, VStr (lit "http_request"));
   ("method"%string, VStr (lit "GET"));
   ("request_uri"%string, VStr (lit "/a/.." ++ probe_uri ++ lit "&x=1"));
   ("user_agent"%string, VStr (lit "Mozilla/5.0 " ++ probe_agent ++ lit " (x11)"))].

End HttpRequests.

(** ** The callbacks of the FTP decoy *)

Module FtpHandler.
Import Py Eff Ftp Counters.

(** [HoneypotFTPHandler.on_connect]; [remote_ip] and [remote_port] are the
    attributes of the handler. *)
Definition on_connect (remote_ip : str) (remote_port : Z) : M unit :=
  let client_ip := remote_ip in
  modify (fun h => mkHoneypot
    (let s := stats h in
     mkStats (total_connections s + 1)%Z (login_attempts s) ({[client_ip]} ∪ unique_ips s)
             (common_usernames s) (common_passwords s) (file_operations s))
    (logged h)) ;;
  log_event
    [("event_type"%string, VStr (lit "connection"));
     ("source_ip"%string, VStr client_ip);
     ("source_port"%string, VInt remote_port);
     ("destination_port"%string, VInt 21);
     ("protocol"%string, VStr (lit "ftp"));
     ("connection_id"%string, VIpTime client_ip)].

Definition on_disconnect (remote_ip : str) : M unit :=
  let client_ip := remote_ip in
  log_event
    [("event_type"%string, VStr (lit "disconnect"));
     ("source_ip"%string, VStr client_ip);
     ("duration"%string, VStr (lit "unknown"))].

Definition on_login (remote_ip username : str) : M unit :=
  let client_ip := remote_ip in
  log_event
    [("event_type"%string, VStr (lit "login_success"));
     ("source_ip"%string, VStr client_ip);
     ("username"%string, VStr username);
     ("success"%string, VBool true)].

Definition on_logout (remote_ip username : str) : M unit :=
  let client_ip := remote_ip in
  log_event
    [("event_type"%string, VStr (lit "logout"));
     ("source_ip"%string, VStr client_ip);
     ("username"%string, VStr username)].

Definition on_file_sent (remote_ip file : str) : M unit :=
  let client_ip := remote_ip in
  log_event
    [("event_type"%string, VStr (lit "file_download"));
     ("source_ip"%string, VStr client_ip);
     ("filename"%string, VStr file);
     ("attack_type"%string, VStr (lit "data_exfiltration"))].

Definition on_file_received (remote_ip file : str) : M unit :=
  let client_ip := remote_ip in
  log_event
    [("event_type"%string, VStr (lit "file_upload"));
     ("source_ip"%string, VStr client_ip);
     ("filename"%string, VStr file);
     ("attack_type"%string, VStr (lit "malware_upload"))].

(** A call that pyftpdlib makes into the decoy, on the handler of one
    connection. *)
Inductive callback : Type :=
| OnConnect (remote_port : Z)
| OnDisconnect
| OnLogin (username : str)
| OnLogout (username : str)
| OnFileSent (file : str)
| OnFileReceived (file : str)
| ValidateAuthentication (username password : str).

Definition dispatch (remote_ip : str) (c : callback) : M unit :=
  match c with
  | OnConnect remote_port => on_connect remote_ip remote_port
  | OnDisconnect => on_disconnect remote_ip
  | OnLogin username => on_login remote_ip username
  | OnLogout username => on_logout remote_ip username
  | OnFileSent file => on_file_sent remote_ip file
  | OnFileReceived file => on_file_received remote_ip file
  | ValidateAuthentication username password =>
      validate_authentication username password remote_ip
  end.

(** The honeypot object after a series of calls, each with the address
    of its connection. *)
Fixpoint after (calls : list (str * callback)) (h : FTPHoneypot) : FTPHoneypot :=
  match calls with
  | [] => h
  | (remote_ip, c) :: rest => after rest (dispatch remote_ip c h).2
  end.

(** The [event_type] that a call logs. *)
Definition kind_of (c : callback) : str :=
  match c with
  | OnConnect _ => lit "connection"
  | OnDisconnect => lit "disconnect"
  | OnLogin _ => lit "login_success"
  | OnLogout _ => lit "logout"
  | OnFileSent _ => lit "file_download"
  | OnFileReceived _ => lit "file_upload"
  | ValidateAuthentication _ _ => lit "login_attempt"
  end.

Definition is_connect (call : str * callback) : bool :=
  match call.2 with OnConnect _ => true | _ => false end.

Definition is_authentication (call : str * callback) : bool :=
  match call.2 with ValidateAuthentication _ _ => true | _ => false end.

(** The statistics after one call. *)
Definition counted (remote_ip : str) (c : callback) (s : stats_t) : stats_t :=
  match c with
  | OnConnect _ =>
      mkStats (total_connections s + 1)%Z (login_attempts s)
              ({[remote_ip]} ∪ unique_ips s)
              (common_usernames s) (common_passwords s) (file_operations s)
  | ValidateAuthentication username password =>
      mkStats (total_connections s) (login_attempts s + 1)%Z (unique_ips s)
              (bump username (common_usernames s))
              (bump password (common_passwords s))
              (file_operations s)
  | _ => s
  end.

(** A fresh honeypot object, and a session: connect, two login tries, an
    upload, disconnect. *)
Definition fresh : FTPHoneypot := mkHoneypot (mkStats 0 0 ∅ ∅ ∅ ∅) [].

Definition session : list (str * callback) :=
  [(lit "10.0.0.1", OnConnect 40000);
   (lit "10.0.0.1", ValidateAuthentication (lit "anonymous") (lit ""));
   (lit "10.0.0.1", ValidateAuthentication (lit "admin") (lit "admin"));
   (lit "10.0.0.1", OnFileReceived (lit "/tmp/x.sh"));
   (lit "10.0.0.1", OnDisconnect)].

End FtpHandler.

(** ** The server interface of the SSH decoy *)

Module SshInterface.
Import Py Eff Ssh Counters.

(** What the decoy reads of a [paramiko.PKey]: [get_name()] and
    [get_fingerprint()]. *)
Record pkey : Type := mkKey {
  key_name : str;
  key_fingerprint : bytes
}.

Definition hex_digit (n : N) : N := if n <? 10 then 48 + n else 87 + n.

(** [bytes.hex()] *)
Definition hex (b : bytes) : str :=
  flat_map (fun x => [hex_digit (Byte.to_N x / 16); hex_digit (Byte.to_N x mod 16)]) b.

(** [SSHServerInterface.check_auth_publickey]; [client_ip] is
    [self.client_ip]. *)
Definition check_auth_publickey (client_ip username : str) (key : pkey) : M auth_result :=
  log_event
    [("event_type"%string, VStr (lit "pubkey_auth"));
     ("source_ip"%string, VStr client_ip);
     ("username"%string, VStr username);
     ("key_type"%string, VStr (key_name key));
     ("key_fingerprint"%string, VStr (hex (key_fingerprint key)));
     ("success"%string, VBool false)] ;;
  mret AUTH_FAILED.

Inductive open_result : Type := OPEN_SUCCEEDED | OPEN_FAILED_ADMINISTRATIVELY_PROHIBITED.

(** [SSHServerInterface.check_channel_request] *)
Definition check_channel_request (kind : str) (chanid : Z) : open_result :=
  if str_eqb kind (lit "session") then OPEN_SUCCEEDED
  else OPEN_FAILED_ADMINISTRATIVELY_PROHIBITED.

(** [SSHServerInterface.get_allowed_auths] *)
Definition get_allowed_auths (username : str) : str := lit "password,publickey".

(** An authentication request that paramiko passes to the server
    interface of a connection. *)
Inductive auth_request : Type :=
| Password (username password : str)
| PublicKey (username : str) (key : pkey).

Definition answer (client_ip : str) (q : auth_request) : M auth_result :=
  match q with
  | Password username password => check_auth_password client_ip username password
  | PublicKey username key => check_auth_publickey client_ip username key
  end.

(** The honeypot object after the requests of one connection, which
    paramiko passes to the server interface one after the other. *)
Fixpoint after (client_ip : str) (requests : list auth_request) (h : SSHHoneypot)
  : SSHHoneypot :=
  match requests with
  | [] => h
  | q :: rest => after client_ip rest (answer client_ip q h).2
  end.

Definition is_password (q : auth_request) : bool :=
  match q with Password _ _ => true | _ => false end.

Definition kind_of (q : auth_request) : str :=
  match q with
  | Password _ _ => lit "auth_attempt"
  | PublicKey _ _ => lit "pubkey_auth"
  end.

Definition username_of (q : auth_request) : str :=
  match q with
  | Password username _ => username
  | PublicKey username _ => username
  end.

(** The statistics after one request. *)
Definition counted (client_ip : str) (q : auth_request) (s : stats_t) : stats_t :=
  match q with
  | Password username password =>
      mkStats (total_connections s) (auth_attempts s + 1)%Z ({[client_ip]} ∪ unique_ips s)
              (bump username (common_usernames s))
              (bump password (common_passwords s))
  | PublicKey _ _ => s
  end.

(** A fresh honeypot object and a client that offers a key and then tries
    two passwords. *)
Definition fresh : SSHHoneypot := mkHoneypot (mkStats 0 0 ∅ ∅ ∅) [].

Definition attempts : list auth_request :=
  [PublicKey (lit "root") (mkKey (lit "ssh-ed25519") [x0f; xa0]);
   Password (lit "root") (lit "");
   Password (lit "root") (lit "toor")].

End SshInterface.

(** ** The channels of an alert *)

Module AlertChannels.
Import Py Eff Alerts.

(** A service with no channel configured. *)
Definition silent : AlertService := init limits None None None None.

(** The buckets of the per-address search whose count is above the
    threshold. *)
Definition offenders (s : AlertService) (buckets : list (str * Z)) : list (str * Z) :=
  List.filter (fun b => (brute_force_attempts (thresholds s) <? b.2)%Z) buckets.

(** The alert that the per-address check sends for a bucket. *)
Definition alert_for (s : AlertService) (b : str * Z) (a : alert) : Prop :=
  subject a = lit "Brute Force Attack Detected"
  /\ severity a = lit "high"
  /\ message a = brute_message b.1 b.2 s
  /\ metadata a = metadata_of (BruteForce b.1) b.2 []
  /\ exists t, sent_key a = key_of (BruteForce b.1) t.

(** An answer of the per-address search with two addresses above the
    default threshold and one below. *)
Definition three_buckets : list (str * Z) :=
  [(lit "10.0.0.1", 40%Z); (lit "10.0.0.2", 7%Z); (lit "10.0.0.3", 21%Z)].

End AlertChannels.

(** * Properties *)

(** ** Rules of the weakest-precondition calculus *)

Module EffFacts.
Import Eff.

Section Rules.
Context {W : Type}.

Lemma wp_run {A} (m : M W A) w Q : wp m w Q -> forall r w', m w = (r, w') -> Q r w'.
Proof. unfold wp. intros H r w' E. now rewrite E in H. Qed.

Lemma wp_intro {A} (m : M W A) w (Q : res A -> W -> Prop) :
  (forall r w', m w = (r, w') -> Q r w') -> wp m w Q.
Proof. unfold wp. intros H. apply H. now destruct (m w). Qed.

Lemma wp_conseq {A} (m : M W A) w (Q Q' : res A -> W -> Prop) :
  wp m w Q -> (forall r w', Q r w' -> Q' r w') -> wp m w Q'.
Proof. unfold wp. auto. Qed.

Lemma wp_ret {A} (a : A) (w : W) (Q : res A -> W -> Prop) :
  Q (Ret a) w -> wp (mret a) w Q.
Proof. auto. Qed.

Lemma wp_raise {A} e (w : W) (Q : res A -> W -> Prop) :
  Q (Exc e) w -> wp (raise e) w Q.
Proof. auto. Qed.

Lemma wp_modify f (w : W) (Q : res unit -> W -> Prop) :
  Q (Ret tt) (f w) -> wp (modify f) w Q.
Proof. auto. Qed.

Lemma wp_get_world (w : W) (Q : res W -> W -> Prop) :
  Q (Ret w) w -> wp get_world w Q.
Proof. auto. Qed.

Lemma wp_bind {A B} (m : M W A) (f : A -> M W B) w (Q : res B -> W -> Prop) :
  wp m w (fun r w1 =>
    match r with
    | Ret a => wp (f a) w1 Q
    | Exc e => Q (Exc e) w1
    | OutOfFuel => Q OutOfFuel w1
    end) ->
  wp (m ≫= f) w Q.
Proof.
  unfold wp, mbind, M_bind. destruct (m w) as [[a|e|] w1]; auto.
Qed.

Lemma bind_eq {A B} (m : M W A) (f : A -> M W B) w :
  (m ≫= f) w =
  match m w with
  | (Ret a, w') => f a w'
  | (Exc e, w') => (Exc e, w')
  | (OutOfFuel, w') => (OutOfFuel, w')
  end.
Proof. reflexivity. Qed.

Lemma bind_unit_then {A B} (m : M W A) (k : M W B) w w' :
  (m ≫= fun _ => mret tt) w = (Ret tt, w') -> (m ≫= fun _ => k) w = k w'.
Proof.
  rewrite !bind_eq. destruct (m w) as [[a|e|] w1]; try discriminate.
  now intros [= ->].
Qed.

Lemma wp_try_except {A} (m : M W A) h w (Q : res A -> W -> Prop) :
  wp m w (fun r w1 =>
    match r with
    | Exc e => wp (h e) w1 Q
    | _ => Q r w1
    end) ->
  wp (try_except m h) w Q.
Proof.
  unfold wp, try_except. destruct (m w) as [[a|e|] w1]; auto.
Qed.

Lemma wp_try_finally {A} (m : M W A) f w (Q : res A -> W -> Prop) :
  wp m w (fun r w1 =>
    match r with
    | OutOfFuel => Q OutOfFuel w1
    | _ => wp f w1 (fun rf w2 =>
             match rf with
             | Ret _ => Q r w2
             | Exc e => Q (Exc e) w2
             | OutOfFuel => Q OutOfFuel w2
             end)
    end) ->
  wp (try_finally m f) w Q.
Proof.
  unfold wp, try_finally. destruct (m w) as [[a|e|] w1]; cbn; auto;
    destruct (f w1) as [[[]|e'|] w2]; auto.
Qed.

End Rules.

End EffFacts.

(** ** The Telnet decoy *)

Module TelnetFacts.
Import Py Eff EffFacts Telnet.

Lemma wp_send data w (Q : res unit -> world -> Prop) :
  (forall fs, send_faults w = true :: fs -> Q (Exc SocketError) (set_send_faults fs w)) ->
  (forall fs, send_faults w = false :: fs ->
     Q (Ret tt) (push (Send data) (set_send_faults fs w))) ->
  (send_faults w = [] -> Q (Ret tt) (push (Send data) w)) ->
  wp (send data) w Q.
Proof.
  unfold wp, send. intros H1 H2 H3.
  destruct (send_faults w) as [|[] fs]; cbn; [apply H3 | apply H1 | apply H2]; reflexivity.
Qed.

Lemma wp_send_ok data w (Q : res unit -> world -> Prop) :
  sends_ok w ->
  (forall w', sends_ok w' -> inbox w' = inbox w -> trace w' = trace w ++ [Send data] ->
     Q (Ret tt) w') ->
  wp (send data) w Q.
Proof.
  unfold sends_ok. intros Hs HQ. apply wp_send.
  - intros fs E. rewrite E in Hs. inversion Hs; discriminate.
  - intros fs E. rewrite E in Hs. inversion Hs; subst. apply HQ; auto.
  - intros E. apply HQ; auto.
Qed.

(** *** The line editor *)

Lemma get_input_loop_keys hide keys : forall data term rest w,
  Forall (fun k => is_eol k = false) keys -> is_eol term = true -> sends_ok w ->
  wp (get_input_loop hide (map RData keys ++ RData term :: rest) data) w
    (fun r w' => r = Ret (edit keys data) /\ sends_ok w' /\ inbox w' = rest
                 /\ trace w' = trace w ++ echo hide keys data).
Proof.
  induction keys as [|k keys IH]; intros data term rest w Hk Ht Hs;
    cbn [map app get_input_loop]; apply wp_bind, wp_modify.
  - unfold is_eol in Ht. rewrite Ht. apply wp_ret. cbn. rewrite app_nil_r. auto.
  - inversion Hk as [|? ? Hk1 Hk2]; subst. unfold is_eol in Hk1. rewrite Hk1.
    cbn [edit echo]. unfold is_erase.
    destruct (Byte.eqb k BS || Byte.eqb k DEL).
    + destruct data as [|d0 data'].
      * eapply wp_conseq; [apply IH; auto|]. cbn. auto.
      * apply wp_bind. destruct hide; cbn [negb].
        -- apply wp_ret. eapply wp_conseq; [apply IH; auto|]. cbn. auto.
        -- apply wp_send_ok; [auto|]. intros w1 Hs1 Hi1 Ht1.
           eapply wp_conseq; [apply IH; auto|]. cbn.
           intros r w' (-> & ? & ? & ->). rewrite Ht1. cbn. rewrite <- app_assoc. auto.
    + apply wp_bind.
      assert ((if negb hide then send [k] else send (blit "*"))
              = send (if hide then blit "*" else [k])) as -> by (destruct hide; reflexivity).
      apply wp_send_ok; [auto|]. intros w1 Hs1 Hi1 Ht1.
      eapply wp_conseq; [apply IH; auto|]. cbn.
      intros r w' (-> & ? & ? & ->). rewrite Ht1. cbn. rewrite <- app_assoc.
      destruct hide; auto.
Qed.

Lemma get_input_line prompt hide keys term rest w :
  Forall (fun k => is_eol k = false) keys -> is_eol term = true -> sends_ok w ->
  inbox w = map RData keys ++ RData term :: rest ->
  wp (get_input prompt hide) w
    (fun r w' => r = Ret (Some (strip (decode_utf8_ignore (edit keys []))))
                 /\ sends_ok w' /\ inbox w' = rest
                 /\ trace w' = trace w ++ echo hide keys []).
Proof.
  intros Hk Ht Hs Hi. unfold get_input.
  apply wp_try_except, wp_bind, wp_get_world. rewrite Hi. apply wp_bind.
  eapply wp_conseq; [apply get_input_loop_keys; auto|]. cbn.
  intros r w' (-> & ? & ? & ?). apply wp_ret. auto.
Qed.

Lemma edit_snoc keys : forall k data,
  edit (keys ++ [k]) data =
  if is_erase k then removelast (edit keys data) else edit keys data ++ [k].
Proof.
  induction keys as [|k0 keys IH]; intros k data; cbn.
  - destruct (is_erase k); reflexivity.
  - destruct (is_erase k0); apply IH.
Qed.

Lemma echo_masked keys : forall data,
  echo true keys data = repeat (Send (blit "*")) (accepted keys).
Proof.
  unfold accepted.
  induction keys as [|k keys IH]; intros data; cbn; [reflexivity|].
  destruct (is_erase k); cbn.
  - destruct data; apply IH.
  - f_equal. apply IH.
Qed.

(** C5.  The line editor of [get_input], when no [send] raises: the keys
    typed before the first CR or LF are collected, an erase key (0x08 or
    0x7F) drops the last collected byte and does nothing on an empty
    buffer; the line returned is the decoded, stripped buffer.  Masked,
    one star is echoed per accepted byte and nothing for an erase key;
    plain, an accepted byte is echoed as it is and an erase key that
    removes a byte is echoed as backspace, space, backspace.  The keys
    a b c backspace d CR give the line abd. *)
Theorem telnet_line_editor :
  (forall prompt hide keys term rest w,
     Forall (fun k => is_eol k = false) keys -> is_eol term = true ->
     sends_ok w -> inbox w = map RData keys ++ RData term :: rest ->
     exists w',
       get_input prompt hide w
         = (Ret (Some (strip (decode_utf8_ignore (edit keys [])))), w')
       /\ inbox w' = rest
       /\ trace w' = trace w ++ echo hide keys [])
  /\ (forall keys k data,
        edit (keys ++ [k]) data =
        if is_erase k then removelast (edit keys data) else edit keys data ++ [k])
  /\ removelast (@nil byte) = []
  /\ (forall keys data, echo true keys data = repeat (Send (blit "*")) (accepted keys))
  /\ (forall k keys data,
        is_erase k = false ->
        echo false (k :: keys) data = Send [k] :: echo false keys (data ++ [k]))
  /\ (forall k keys d data,
        is_erase k = true ->
        echo false (k :: keys) (d :: data)
          = Send [BS; x20; BS] :: echo false keys (removelast (d :: data)))
  /\ (forall hide k keys,
        is_erase k = true -> echo hide (k :: keys) [] = echo hide keys [])
  /\ (get_input [] false (abd_world [])).1 = Ret (Some (lit "abd")).
Proof.
  repeat apply conj.
  - intros prompt hide keys term rest w Hk Ht Hs Hi.
    pose proof (get_input_line prompt hide keys term rest w Hk Ht Hs Hi) as H.
    unfold wp in H. destruct (get_input prompt hide w) as [r w'].
    cbn in H. destruct H as (-> & _ & ? & ?). eauto.
  - intros. apply edit_snoc.
  - reflexivity.
  - apply echo_masked.
  - intros k keys data E. cbn. now rewrite E.
  - intros k keys d data E. cbn. now rewrite E.
  - intros hide k keys E. cbn. now rewrite E.
  - vm_compute. reflexivity.
Qed.

Lemma telnet_line_editor_witness :
  exists w',
    get_input [] true (abd_world [false; false; false; false])
      = (Ret (Some (lit "abd")), w')
    /\ inbox w' = []
    /\ trace w' = repeat (Send (blit "*")) 4.
Proof.
  destruct telnet_line_editor as (H & _).
  destruct (H [] true abd_keys CR [] (abd_world [false; false; false; false]))
    as (w' & E & Hi & Ht).
  - repeat constructor.
  - reflexivity.
  - repeat constructor.
  - reflexivity.
  - exists w'. split; [exact E|]. split; [exact Hi|]. exact Ht.
Defined.

(** *** Classification of login attempts *)

(** C4.  The list of IoT default credentials has fifteen pairs; the
    [login_attempt] event that [handle_login_attempt] emits carries the
    credentials it was given and is tagged [iot_botnet]/[high] when the
    pair is in the list, [brute_force]/[medium] otherwise.  The pair
    admin/admin is tagged [iot_botnet]/[high]. *)
Theorem telnet_login_classification :
  length iot_credentials = 15%nat
  /\ (forall client_ip username password w,
        exists w' ev,
          handle_login_attempt client_ip username password w = (Ret tt, w')
          /\ trace w' = trace w ++ [Log ev]
          /\ event_type ev = Some (VStr (lit "login_attempt"))
          /\ dict_get ev "username" = Some (VStr username)
          /\ dict_get ev "password" = Some (VStr password)
          /\ ((username, password) ∈ iot_credentials ->
              dict_get ev "attack_type" = Some (VStr (lit "iot_botnet"))
              /\ dict_get ev "threat_level" = Some (VStr (lit "high")))
          /\ ((username, password) ∉ iot_credentials ->
              dict_get ev "attack_type" = Some (VStr (lit "brute_force"))
              /\ dict_get ev "threat_level" = Some (VStr (lit "medium"))))
  /\ classify_login (lit "admin") (lit "admin") = (lit "iot_botnet", lit "high").
Proof.
  repeat apply conj.
  - reflexivity.
  - intros client_ip username password w.
    eexists _, _. split; [reflexivity|]. split; [reflexivity|].
    unfold login_event, classify_login.
    case_bool_decide as Hin; repeat apply conj; try reflexivity;
      intros Hin'; try contradiction; split; reflexivity.
  - vm_compute. reflexivity.
Qed.

Lemma telnet_login_classification_witness :
  exists w' ev,
    handle_login_attempt (lit "10.0.0.1") (lit "root") (lit "toor") (abd_world [])
      = (Ret tt, w')
    /\ trace w' = [Log ev]
    /\ dict_get ev "attack_type" = Some (VStr (lit "iot_botnet"))
    /\ dict_get ev "threat_level" = Some (VStr (lit "high")).
Proof.
  destruct telnet_login_classification as (_ & H & _).
  destruct (H (lit "10.0.0.1") (lit "root") (lit "toor") (abd_world []))
    as (w' & ev & E & Ht & _ & _ & _ & Hiot & _).
  exists w', ev. split; [exact E|]. split; [exact Ht|].
  apply Hiot. vm_compute. repeat (first [apply list_elem_of_here | apply list_elem_of_further]).
Defined.

(** *** What a connection leaves in the trace *)

Lemma extends_refl w : extends w w.
Proof. split; [exists []; rewrite app_nil_r; auto | split; [lia | reflexivity]]. Qed.

Lemma extends_trans w1 w2 w3 : extends w1 w2 -> extends w2 w3 -> extends w1 w3.
Proof.
  intros [(e1 & E1 & F1) [L1 S1]] [(e2 & E2 & F2) [L2 S2]].
  split; [|split; [lia | etrans; eauto]].
  exists (e1 ++ e2). rewrite E2, E1, app_assoc. split; [reflexivity|].
  apply Forall_app; auto.
Qed.

Lemma extends_push a w : inner a = true -> extends w (push a w).
Proof. intros H. split; [exists [a]; auto | split; [cbn; lia | reflexivity]]. Qed.

Lemma extends_set_stats f w : extends w (set_stats f w).
Proof.
  split; [exists []; cbn; rewrite app_nil_r; auto | split; [cbn; lia | reflexivity]].
Qed.

Lemma extends_set_send_faults b f w :
  send_faults w = b :: f -> extends w (set_send_faults f w).
Proof.
  intros E. split; [exists []; cbn; rewrite app_nil_r; auto | split; [cbn; lia|]].
  cbn. rewrite E. apply suffix_cons_r. reflexivity.
Qed.

Lemma extends_set_inbox i w :
  (length i <= length (inbox w))%nat -> extends w (set_inbox i w).
Proof.
  intros H. split; [exists []; cbn; rewrite app_nil_r; auto | split; [cbn; lia | reflexivity]].
Qed.

Lemma extends_sends_ok w w' : extends w w' -> sends_ok w -> sends_ok w'.
Proof.
  intros (_ & _ & [k E]) H. unfold sends_ok in *. rewrite E in H.
  now apply Forall_app in H.
Qed.

Lemma extends_inbox w w' : extends w w' -> (length (inbox w') <= length (inbox w))%nat.
Proof. now intros (_ & ? & _). Qed.

Create HintDb telnet.
#[local] Hint Resolve extends_refl extends_push extends_set_stats
  extends_set_send_faults extends_set_inbox : telnet.

Lemma send_steady data w :
  wp (send data) w (fun r w' => steady w r w' /\ inbox w' = inbox w).
Proof.
  apply wp_send; intros; (split; [split; [|discriminate] | reflexivity]).
  - eapply extends_set_send_faults; eassumption.
  - eapply extends_trans; [eapply extends_set_send_faults; eassumption | now apply extends_push].
  - now apply extends_push.
Qed.

Lemma send_str_steady s w :
  wp (send_str s) w (fun r w' => steady w r w' /\ inbox w' = inbox w).
Proof.
  unfold send_str. destruct (encode_utf8 s); [apply send_steady|].
  apply wp_raise. split; [split; [apply extends_refl | discriminate] | reflexivity].
Qed.

Lemma log_event_steady ev w :
  is_event "disconnect" (Log (dict_update ev
    [("timestamp"%string, VUtcNow);
     ("service"%string, VStr (lit "telnet"));
     ("honeypot_type"%string, VStr (lit "telnet_honeypot"));
     ("version"%string, VStr (lit "1.0.0"))])) = false ->
  wp (log_event ev) w (fun r w' => r = Ret tt /\ extends w w' /\ inbox w' = inbox w).
Proof.
  intros H. apply wp_modify. split; [reflexivity|]. split; [|reflexivity].
  apply extends_push. unfold inner. now rewrite H.
Qed.

Lemma get_input_loop_steady hide pending : forall data w,
  inbox w = pending ->
  wp (get_input_loop hide pending data) w
    (fun r w' => steady w r w'
       /\ (forall d, r = Ret d -> (length (inbox w') < length (inbox w))%nat)).
Proof.
  induction pending as [|ev rest IH]; intros data w Hi; cbn [get_input_loop].
  - apply wp_raise. split; [split; [apply extends_refl | discriminate] | discriminate].
  - apply wp_bind, wp_modify.
    assert (Hw1 : extends w (set_inbox rest w))
      by (apply extends_set_inbox; rewrite Hi; cbn; lia).
    assert (Hl : (length rest < length (inbox w))%nat) by (rewrite Hi; cbn; lia).
    assert (Hrec : forall data' w1, extends w w1 -> inbox w1 = rest ->
      wp (get_input_loop hide rest data') w1
        (fun r w' => steady w r w'
           /\ (forall d, r = Ret d -> (length (inbox w') < length (inbox w))%nat))).
    { intros data' w1 He Hi1. eapply wp_conseq; [apply IH; exact Hi1|]. cbn.
      intros r w' ([He' Hr] & _). split; [split; [eapply extends_trans; eauto | exact Hr]|].
      intros _ _. apply extends_inbox in He'. rewrite Hi1 in He'. lia. }
    destruct ev as [chunk| | |].
    + destruct (Byte.eqb chunk CR || Byte.eqb chunk LF).
      { apply wp_ret. split; [split; [exact Hw1 | discriminate] | intros; exact Hl]. }
      destruct (Byte.eqb chunk BS || Byte.eqb chunk DEL).
      * destruct data as [|d0 data']; [apply Hrec; auto|].
        apply wp_bind. destruct hide; cbn [negb].
        -- apply wp_ret. apply Hrec; auto.
        -- eapply wp_conseq; [apply send_steady|]. cbn.
           intros [[]|e|] w1 ([He Hr] & Hi1); try congruence.
           ++ apply Hrec; [eapply extends_trans; eauto | now rewrite Hi1].
           ++ split; [split; [eapply extends_trans; eauto | discriminate]|]. discriminate.
      * apply wp_bind.
        assert ((if negb hide then send [chunk] else send (blit "*"))
                = send (if hide then blit "*" else [chunk])) as ->
          by (destruct hide; reflexivity).
        eapply wp_conseq; [apply send_steady|]. cbn.
        intros [[]|e|] w1 ([He Hr] & Hi1); try congruence.
        -- apply Hrec; [eapply extends_trans; eauto | now rewrite Hi1].
        -- split; [split; [eapply extends_trans; eauto | discriminate]|]. discriminate.
    + apply wp_ret. split; [split; [exact Hw1 | discriminate] | intros; exact Hl].
    + apply wp_raise. split; [split; [exact Hw1 | discriminate] | discriminate].
    + apply wp_raise. split; [split; [exact Hw1 | discriminate] | discriminate].
Qed.

(** [get_input] always returns; when it returns a line, input has been
    consumed. *)
Lemma get_input_steady prompt hide w :
  wp (get_input prompt hide) w
    (fun r w' => extends w w'
       /\ exists o, r = Ret o
            /\ (o <> None -> (length (inbox w') < length (inbox w))%nat)).
Proof.
  unfold get_input. apply wp_try_except, wp_bind, wp_get_world, wp_bind.
  eapply wp_conseq; [apply get_input_loop_steady; reflexivity|]. cbn.
  intros [d|e|] w' ([He Hr] & Hl); try congruence.
  - apply wp_ret. split; [exact He|]. eexists; split; [reflexivity|].
    intros _. eapply Hl; reflexivity.
  - apply wp_ret. split; [exact He|]. eexists; split; [reflexivity|]. congruence.
Qed.

Section Connection.
Variable lower : str -> str.

Lemma shell_body_steady client_ip username prompt w :
  wp (shell_body lower client_ip username prompt) w
    (fun r w' => steady w r w'
       /\ (r = Ret Continue -> (length (inbox w') < length (inbox w))%nat)).
Proof.
  unfold shell_body. apply wp_bind.
  eapply wp_conseq; [apply get_input_steady|]. cbv beta.
  intros r w1 (He1 & o & -> & Hl). cbv beta iota.
  destruct o as [[|c command]|];
    try (apply wp_ret; split; [split; [exact He1 | discriminate] | discriminate]).
  apply wp_bind, wp_modify, wp_bind.
  eapply wp_conseq; [apply log_event_steady; reflexivity|]. cbv beta.
  intros r w2 (-> & He2 & Hi2). cbv beta iota. cbn in Hi2.
  assert (He : extends w w2).
  { eapply extends_trans; [exact He1|].
    eapply extends_trans; [apply extends_set_stats | exact He2]. }
  apply wp_bind. eapply wp_conseq; [apply send_str_steady|]. cbv beta.
  intros [[]|e|] w3 ([He3 Hr3] & Hi3); try congruence; cbv beta iota;
    [|split; [split; [eapply extends_trans; eauto | discriminate] | discriminate]].
  apply wp_bind. eapply wp_conseq; [apply send_str_steady|]. cbv beta.
  intros [[]|e|] w4 ([He4 Hr4] & Hi4); try congruence; cbv beta iota;
    [|split; [split; [repeat (eapply extends_trans; eauto) | discriminate] | discriminate]].
  assert (He' : extends w w4) by (repeat (eapply extends_trans; eauto)).
  assert (Hl' : (length (inbox w4) < length (inbox w))%nat).
  { rewrite Hi4, Hi3, Hi2. apply Hl. discriminate. }
  match goal with |- context [if ?b then _ else _] => destruct b end; apply wp_ret;
    (split; [split; [exact He' | discriminate] | intros _; exact Hl']).
Qed.

(** With more fuel than input, the loop ends by itself. *)
Lemma shell_loop_steady client_ip username prompt fuel : forall w,
  (length (inbox w) < fuel)%nat ->
  wp (shell_loop lower fuel client_ip username prompt) w (fun r w' => steady w r w').
Proof.
  induction fuel as [|n IH]; intros w Hf; [lia|]. cbn [shell_loop].
  apply wp_bind. eapply wp_conseq; [apply shell_body_steady|]. cbv beta.
  intros [[]|e|] w1 ([He Hr] & Hl); try congruence; cbv beta iota.
  - eapply wp_conseq; [apply IH; specialize (Hl eq_refl); lia|]. cbv beta.
    intros r w2 [He2 Hr2]. split; [eapply extends_trans; eauto | exact Hr2].
  - apply wp_ret. split; [exact He | discriminate].
  - split; [exact He | discriminate].
Qed.

Lemma simulate_shell_steady client_ip username w :
  wp (simulate_shell lower client_ip username) w
    (fun r w' => r = Ret tt /\ extends w w').
Proof.
  unfold simulate_shell. apply wp_try_except, wp_bind.
  eapply wp_conseq; [apply send_str_steady|]. cbv beta.
  intros [[]|e|] w1 ([He1 Hr1] & Hi1); try congruence; cbv beta iota; [|apply wp_ret; auto].
  apply wp_bind, wp_get_world.
  eapply wp_conseq; [apply shell_loop_steady; lia|]. cbv beta.
  intros [[]|e|] w2 [He2 Hr2]; try congruence.
  - split; [reflexivity | eapply extends_trans; eauto].
  - apply wp_ret. split; [reflexivity | eapply extends_trans; eauto].
Qed.

(** The login dialogue of [handle_client], inside its [try]. *)
Lemma dialogue_steady client_ip w :
  wp (try_except
       (send banner ;;
        username ← get_input (lit "login: ") false;
        match username with
        | Some ((_ :: _) as username) =>
            send (blit "Password: ") ;;
            password ← get_input (lit "Password: ") true;
            match password with
            | Some ((_ :: _) as password) =>
                handle_login_attempt client_ip username password ;;
                send (bcrlf ++ blit "Login incorrect" ++ bcrlf) ;;
                sleep 2 ;;
                simulate_shell lower client_ip username
            | _ => mret tt
            end
        | _ => mret tt
        end)
       (fun _ => mret tt)) w
    (fun r w' => r = Ret tt /\ extends w w').
Proof.
  apply wp_try_except, wp_bind.
  eapply wp_conseq; [apply send_steady|]. cbv beta.
  intros [[]|e|] w1 ([He1 Hr1] & _); try congruence; cbv beta iota; [|apply wp_ret; auto].
  apply wp_bind. eapply wp_conseq; [apply get_input_steady|]. cbv beta.
  intros r w2 (He2 & o & -> & _). cbv beta iota.
  assert (H2 : extends w w2) by (eapply extends_trans; eauto).
  destruct o as [[|c username]|]; try (apply wp_ret; auto).
  apply wp_bind. eapply wp_conseq; [apply send_steady|]. cbv beta.
  intros [[]|e|] w3 ([He3 Hr3] & _); try congruence; cbv beta iota;
    [|apply wp_ret; split; [reflexivity | eapply extends_trans; eauto]].
  assert (H3 : extends w w3) by (eapply extends_trans; eauto).
  apply wp_bind. eapply wp_conseq; [apply get_input_steady|]. cbv beta.
  intros r w4 (He4 & o & -> & _). cbv beta iota.
  assert (H4 : extends w w4) by (eapply extends_trans; eauto).
  destruct o as [[|c' password]|]; try (apply wp_ret; auto).
  apply wp_bind. unfold handle_login_attempt. apply wp_bind, wp_modify.
  eapply wp_conseq; [apply log_event_steady|].
  { unfold login_event. destruct (classify_login _ _). reflexivity. }
  cbv beta. intros r w5 (-> & He5 & _).
  assert (H5 : extends w w5).
  { eapply extends_trans; [exact H4|].
    eapply extends_trans; [apply extends_set_stats | exact He5]. }
  apply wp_bind. eapply wp_conseq; [apply send_steady|]. cbv beta.
  intros [[]|e|] w6 ([He6 Hr6] & _); try congruence; cbv beta iota;
    [|apply wp_ret; split; [reflexivity | eapply extends_trans; eauto]].
  assert (H6 : extends w w6) by (eapply extends_trans; eauto).
  apply wp_bind, wp_modify.
  eapply wp_conseq; [apply simulate_shell_steady|]. cbv beta.
  intros r w7 (-> & He7). cbv beta iota. split; [reflexivity|].
  eapply extends_trans; [exact H6|].
  eapply extends_trans; [apply (extends_push (Sleep 2)); reflexivity | exact He7].
Qed.

Lemma handle_client_trace client_addr w :
  wp (handle_client lower client_addr) w
    (fun r w' => r = Ret tt
       /\ exists mid,
            trace w' = trace w ++ mid ++ [Close; Log (logged_disconnect (fst client_addr))]
            /\ Forall (fun a => inner a = true) mid).
Proof.
  unfold handle_client. apply wp_bind, wp_modify, wp_bind, wp_get_world, wp_bind.
  eapply wp_conseq; [apply log_event_steady; reflexivity|]. cbv beta.
  intros r w1 (-> & He1 & _). cbv beta iota.
  apply wp_try_finally.
  eapply wp_conseq; [apply dialogue_steady|]. cbv beta.
  intros r w2 (-> & He2). cbv beta iota.
  assert (He : extends w w2).
  { eapply extends_trans; [apply extends_set_stats|].
    eapply extends_trans; [exact He1 | exact He2]. }
  destruct He as [(mid & Hmid & Hin) _].
  assert (Hclose : wp (try_except close (fun _ => mret tt)) w2
            (fun rc wc => rc = Ret tt /\ trace wc = trace w2 ++ [Close])).
  { apply wp_try_except. unfold wp, close. destruct (close_fault w2); cbn; auto. }
  apply wp_bind. eapply wp_conseq; [exact Hclose|]. cbv beta.
  intros rc wc (-> & Hc). apply wp_modify. split; [reflexivity|].
  exists mid. split; [|exact Hin]. cbn. rewrite Hc, Hmid.
  rewrite <- !app_assoc. reflexivity.
Qed.

End Connection.

(** C8.  Whatever the peer sends and whichever [recv], [send] or [close]
    call fails, [handle_client] returns, and what it adds to the trace
    ends with the closing of the socket followed by one [disconnect]
    event; nothing before that is a [disconnect] event. *)
Theorem telnet_exactly_one_disconnect :
  forall lower client_addr w,
    exists w' mid,
      handle_client lower client_addr w = (Ret tt, w')
      /\ trace w' = trace w ++ mid ++ [Close; Log (logged_disconnect (fst client_addr))]
      /\ events "disconnect" (mid ++ [Close; Log (logged_disconnect (fst client_addr))])
           = [Log (logged_disconnect (fst client_addr))]
      /\ Forall (fun a => is_close a = false) mid.
Proof.
  intros lower client_addr w.
  pose proof (handle_client_trace lower client_addr w) as H. unfold wp in H.
  destruct (handle_client lower client_addr w) as [r w']. cbn in H.
  destruct H as (-> & mid & Ht & Hin).
  exists w', mid. split; [reflexivity|]. split; [exact Ht|]. split.
  - unfold events. rewrite List.filter_app.
    assert (List.filter (is_event "disconnect") mid = []) as ->.
    { clear Ht. induction Hin as [|a mid Ha _ IH]; [reflexivity|]. cbn.
      unfold inner in Ha. destruct (is_event "disconnect" a); [discriminate | exact IH]. }
    reflexivity.
  - eapply Forall_impl; [exact Hin|]. intros a Ha. unfold inner in Ha.
    destruct (is_close a); [|reflexivity]. now rewrite andb_false_r in Ha.
Qed.

(** *** The shell loop *)

Lemma send_str_cases s w :
  (exists b w', encode_utf8 s = Some b /\ send_str s w = (Ret tt, w')
                /\ trace w' = trace w ++ [Send b]
                /\ send_faults w' `suffix_of` send_faults w)
  \/ (exists e w', send_str s w = (Exc e, w') /\ trace w' = trace w
                   /\ (encode_utf8 s = None \/ ~ sends_ok w)).
Proof.
  unfold send_str, send, sends_ok. destruct (encode_utf8 s) as [b|].
  - destruct (send_faults w) as [|[] fs] eqn:E.
    + left. eexists _, _. repeat (split; [reflexivity|]). cbn. now rewrite E.
    + right. eexists _, _. repeat (split; [reflexivity|]). right.
      intros H. inversion H; discriminate.
    + left. eexists _, _. repeat (split; [reflexivity|]). cbn. apply suffix_cons_r.
      reflexivity.
  - right. eexists _, _. repeat (split; [reflexivity|]). now left.
Qed.

Section ShellLoop.
Variable lower : str -> str.

Lemma shell_body_line client_ip username prompt w c command w1 :
  get_input prompt false w = (Ret (Some (c :: command)), w1) ->
  shell_body lower client_ip username prompt w =
  (send_str (simulate_command_response lower (c :: command)) ≫= fun _ =>
   send_str prompt ≫= fun _ =>
   if (10 <? length (split (c :: command)))%nat then mret Break else mret Continue)
    (push (Log (logged_command client_ip username (c :: command)))
       (set_stats (fun s =>
          mkStats (total_connections s) (login_attempts s) (unique_ips s)
                  (common_usernames s) (common_passwords s)
                  (bump (c :: command) (commands_executed s))) w1)).
Proof. intros E. unfold shell_body. rewrite bind_eq, E. reflexivity. Qed.

(** One pass of the loop, case by case. *)
Lemma shell_body_cases client_ip username prompt w :
  let rd := get_input prompt false w in
  let out := shell_body lower client_ip username prompt w in
  exists line, rd.1 = Ret line /\
    match line with
    | Some ((_ :: _) as command) =>
        let ev := logged_command client_ip username command in
        (exists rb pb,
            encode_utf8 (simulate_command_response lower command) = Some rb
            /\ encode_utf8 prompt = Some pb
            /\ trace out.2 = trace rd.2 ++ [Log ev; Send rb; Send pb]
            /\ out.1 = Ret (if (10 <? length (split command))%nat then Break else Continue))
        \/ (exists e, out.1 = Exc e
              /\ (trace out.2 = trace rd.2 ++ [Log ev]
                  \/ exists rb, trace out.2 = trace rd.2 ++ [Log ev; Send rb])
              /\ (sends_ok rd.2 ->
                  encode_utf8 (simulate_command_response lower command) = None
                  \/ encode_utf8 prompt = None))
    | _ => out = (Ret Break, rd.2)
    end.
Proof.
  intros rd out. subst rd out.
  pose proof (get_input_steady prompt false w) as Hrd. unfold wp in Hrd.
  destruct (get_input prompt false w) as [r w1] eqn:Erd. cbn [fst snd] in *.
  destruct Hrd as (_ & line & -> & _). exists line. split; [reflexivity|].
  destruct line as [[|c command]|];
    try (unfold shell_body; rewrite bind_eq, Erd; reflexivity).
  rewrite (shell_body_line _ _ _ _ _ _ _ Erd).
  set (w2 := push _ _).
  assert (Ht2 : trace w2 = trace w1 ++ [Log (logged_command client_ip username (c :: command))])
    by reflexivity.
  assert (Hs2 : send_faults w2 = send_faults w1) by reflexivity.
  clearbody w2. rewrite bind_eq.
  destruct (send_str_cases (simulate_command_response lower (c :: command)) w2)
    as [(rb & w3 & Erb & E3 & Ht3 & Hs3) | (e & w3 & E3 & Ht3 & Hwhy)]; rewrite E3.
  - rewrite bind_eq.
    destruct (send_str_cases prompt w3)
      as [(pb & w4 & Epb & E4 & Ht4 & Hs4) | (e & w4 & E4 & Ht4 & Hwhy)]; rewrite E4.
    + left. exists rb, pb. split; [exact Erb|]. split; [exact Epb|]. split.
      * destruct (10 <? _)%nat; cbn; rewrite Ht4, Ht3, Ht2, <- !app_assoc; reflexivity.
      * destruct (10 <? _)%nat; reflexivity.
    + right. exists e. split; [reflexivity|]. split.
      * right. exists rb. cbn. rewrite Ht4, Ht3, Ht2, <- !app_assoc. reflexivity.
      * intros Hok. destruct Hwhy as [Hn | Hbad]; [now right|]. exfalso. apply Hbad.
        destruct Hs3 as [k Hk]. unfold sends_ok in *. rewrite <- Hs2, Hk in Hok.
        now apply Forall_app in Hok.
  - right. exists e. split; [reflexivity|]. split.
    + left. cbn. rewrite Ht3, Ht2. reflexivity.
    + intros Hok. destruct Hwhy as [Hn | Hbad]; [now left|]. exfalso. apply Hbad.
      unfold sends_ok in *. now rewrite Hs2.
Qed.

End ShellLoop.

Lemma shell_body_no_error lower client_ip username prompt w command :
  sends_ok w ->
  (get_input prompt false w).1 = Ret (Some command) ->
  is_Some (encode_utf8 (simulate_command_response lower command)) ->
  is_Some (encode_utf8 prompt) ->
  exists c, (shell_body lower client_ip username prompt w).1 = Ret c.
Proof.
  intros Hok Hrd [rb Hrb] [pb Hpb].
  destruct (shell_body_cases lower client_ip username prompt w) as (line & Hl & Hcases).
  rewrite Hrd in Hl. injection Hl as <-.
  assert (Hok1 : sends_ok (get_input prompt false w).2).
  { pose proof (get_input_steady prompt false w) as H. unfold wp in H.
    destruct H as (He & _). eapply extends_sends_ok; eauto. }
  destruct command as [|c command]; [rewrite Hcases; eauto|].
  destruct Hcases as [(? & ? & _ & _ & _ & ->) | (e & _ & _ & Hwhy)]; [eauto|].
  destruct (Hwhy Hok1); congruence.
Qed.

Lemma shell_body_continue lower client_ip username prompt w :
  (shell_body lower client_ip username prompt w).1 = Ret Continue <->
  exists command rb pb,
    (get_input prompt false w).1 = Ret (Some command)
    /\ command <> []
    /\ (length (split command) <= 10)%nat
    /\ trace (shell_body lower client_ip username prompt w).2
       = trace (get_input prompt false w).2
         ++ [Log (logged_command client_ip username command); Send rb; Send pb].
Proof.
  destruct (shell_body_cases lower client_ip username prompt w) as (line & Hl & Hcases).
  split.
  - intros Hc. destruct line as [[|c command]|]; try (rewrite Hcases in Hc; discriminate).
    destruct Hcases as [(rb & pb & _ & _ & Ht & Hr) | (e & Hr & _)]; [|congruence].
    exists (c :: command), rb, pb. split; [exact Hl|]. split; [discriminate|].
    split; [|exact Ht]. rewrite Hr in Hc.
    destruct (10 <? length (split (c :: command)))%nat eqn:E; [discriminate|].
    apply Nat.ltb_ge in E. exact E.
  - intros (command & rb & pb & Hrd & Hne & Hw & Ht).
    rewrite Hrd in Hl. injection Hl as <-.
    destruct command as [|c command]; [congruence|].
    destruct Hcases as [(rb' & pb' & _ & _ & _ & Hr) | (e & _ & [Ht' | (rb' & Ht')] & _)].
    + rewrite Hr. apply Nat.ltb_ge in Hw. now rewrite Hw.
    + rewrite Ht in Ht'. apply app_inv_head in Ht'. discriminate.
    + rewrite Ht in Ht'. apply app_inv_head in Ht'. discriminate.
Qed.

Lemma logout_reply lower :
  (forall s, is_ascii s = true -> lower s = ascii_lower s) ->
  forall cmd, cmd ∈ [lit "exit"; lit "quit"; lit "logout"] ->
    simulate_command_response lower cmd = crlf ++ lit "logout" ++ crlf
    /\ length (split cmd) = 1%nat.
Proof.
  intros Hlow cmd Hin. unfold simulate_command_response.
  rewrite !elem_of_cons in Hin.
  destruct Hin as [-> | [-> | [-> | Hin]]];
    try (rewrite Hlow by reflexivity; split; vm_compute; reflexivity).
  now apply not_elem_of_nil in Hin.
Qed.

(** C6, amended.  One pass of the shell loop: a read that gives no line
    (timeout, error, or an empty line) ends the loop with nothing emitted;
    a non-empty line emits its [command_execution] event, then the
    response and the new prompt are sent, and the loop ends when the line
    has more than 10 words and goes on otherwise; an exception raised
    while sending the response or the prompt ends the loop as well, with
    the response or the prompt missing.  So the loop goes on exactly when
    the line is non-empty, has at most 10 words, and response and prompt
    have both been sent; without a failing send or an unencodable text a
    pass never raises.  [exit], [quit] and [logout] get the fixed logout
    reply and count one word.  On every input [simulate_shell] returns. *)
Theorem telnet_shell_loop_exits :
  (forall lower client_ip username prompt w,
     let rd := get_input prompt false w in
     let out := shell_body lower client_ip username prompt w in
     exists line, rd.1 = Ret line /\
       match line with
       | Some ((_ :: _) as command) =>
           let ev := logged_command client_ip username command in
           (exists rb pb,
               encode_utf8 (simulate_command_response lower command) = Some rb
               /\ encode_utf8 prompt = Some pb
               /\ trace out.2 = trace rd.2 ++ [Log ev; Send rb; Send pb]
               /\ out.1 = Ret (if (10 <? length (split command))%nat
                               then Break else Continue))
           \/ (exists e, out.1 = Exc e
                 /\ (trace out.2 = trace rd.2 ++ [Log ev]
                     \/ exists rb, trace out.2 = trace rd.2 ++ [Log ev; Send rb])
                 /\ (sends_ok rd.2 ->
                     encode_utf8 (simulate_command_response lower command) = None
                     \/ encode_utf8 prompt = None))
       | _ => out = (Ret Break, rd.2)
       end)
  /\ (forall lower client_ip username prompt w,
        (shell_body lower client_ip username prompt w).1 = Ret Continue <->
        exists command rb pb,
          (get_input prompt false w).1 = Ret (Some command)
          /\ command <> []
          /\ (length (split command) <= 10)%nat
          /\ trace (shell_body lower client_ip username prompt w).2
             = trace (get_input prompt false w).2
               ++ [Log (logged_command client_ip username command); Send rb; Send pb])
  /\ (forall lower client_ip username prompt w command,
        sends_ok w ->
        (get_input prompt false w).1 = Ret (Some command) ->
        is_Some (encode_utf8 (simulate_command_response lower command)) ->
        is_Some (encode_utf8 prompt) ->
        exists c, (shell_body lower client_ip username prompt w).1 = Ret c)
  /\ (forall client_ip username command,
        is_event "command_execution" (Log (logged_command client_ip username command)) = true
        /\ dict_get (logged_command client_ip username command) "command"
           = Some (VStr command))
  /\ (forall lower,
        (forall s, is_ascii s = true -> lower s = ascii_lower s) ->
        forall cmd, cmd ∈ [lit "exit"; lit "quit"; lit "logout"] ->
          simulate_command_response lower cmd = crlf ++ lit "logout" ++ crlf
          /\ length (split cmd) = 1%nat)
  /\ (forall lower client_ip username w,
        exists w', simulate_shell lower client_ip username w = (Ret tt, w')).
Proof.
  repeat apply conj.
  - apply shell_body_cases.
  - apply shell_body_continue.
  - apply shell_body_no_error.
  - intros; split; reflexivity.
  - apply logout_reply.
  - intros lower client_ip username w.
    pose proof (simulate_shell_steady lower client_ip username w) as H. unfold wp in H.
    destruct (simulate_shell lower client_ip username w) as [r w']. cbn in H.
    destruct H as (-> & _). eauto.
Qed.

Lemma telnet_shell_loop_exits_witness :
  (exists c, (shell_body ascii_lower (lit "10.0.0.1") (lit "root") (lit "root@honeypot:~$ ")
                exit_world).1 = Ret c)
  /\ simulate_command_response ascii_lower (lit "exit") = crlf ++ lit "logout" ++ crlf.
Proof.
  destruct telnet_shell_loop_exits as (_ & _ & Hok & _ & Hexit & _). split.
  - apply (Hok ascii_lower (lit "10.0.0.1") (lit "root") (lit "root@honeypot:~$ ")
               exit_world (lit "exit")).
    + constructor.
    + vm_compute. reflexivity.
    + vm_compute. eexists. reflexivity.
    + vm_compute. eexists. reflexivity.
  - apply (Hexit ascii_lower (fun s _ => eq_refl) (lit "exit")).
    apply list_elem_of_here.
Defined.

(** C6 as stated fails: the read yields the one-word line [ls], yet the
    pass ends the loop (the send of the response raises, which the [try]
    around the loop catches); no response and no new prompt are sent and
    the line [pwd] is never read. *)
Lemma telnet_shell_loop_counterexample :
  let prompt := lit "root@honeypot:~$ " in
  let out := shell_body ascii_lower (lit "10.0.0.1") (lit "root") prompt broken_pipe_world in
  (get_input prompt false broken_pipe_world).1 = Ret (Some (lit "ls"))
  /\ length (split (lit "ls")) = 1%nat
  /\ out.1 = Exc SocketError
  /\ trace out.2 = [Send (blit "l"); Send (blit "s");
                    Log (logged_command (lit "10.0.0.1") (lit "root") (lit "ls"))]
  /\ inbox out.2 = map RData (blit "pwd") ++ [RData CR]
  /\ shell_loop ascii_lower 9 (lit "10.0.0.1") (lit "root") prompt broken_pipe_world
     = (Exc SocketError, out.2).
Proof. vm_compute. repeat split. Qed.

(** *** Empty credentials *)

(** C1 at the failing input.  The Telnet decoy is given the credentials
    admin and the empty password, a pair that its own table of IoT
    default credentials lists: [handle_client] logs the connection and the
    disconnect and no [login_attempt] event, and never sends the
    login-failed message. *)
Theorem telnet_empty_password_not_logged :
  let out := handle_client ascii_lower (lit "10.0.0.1", 40000%Z) empty_password_world in
  (lit "admin", lit "") ∈ iot_credentials
  /\ out.1 = Ret tt
  /\ events "login_attempt" (trace out.2) = []
  /\ trace out.2 =
     [Log (dict_update (connection_event (lit "10.0.0.1") 40000 23)
             [("timestamp"%string, VUtcNow);
              ("service"%string, VStr (lit "telnet"));
              ("honeypot_type"%string, VStr (lit "telnet_honeypot"));
              ("version"%string, VStr (lit "1.0.0"))]);
      Send banner;
      Send (blit "a"); Send (blit "d"); Send (blit "m"); Send (blit "i"); Send (blit "n");
      Send (blit "Password: ");
      Close;
      Log (logged_disconnect (lit "10.0.0.1"))].
Proof.
  split; [|vm_compute; repeat split].
  vm_compute. repeat (first [apply list_elem_of_here | apply list_elem_of_further]).
Qed.

End TelnetFacts.

(** ** The HTTP attack classifier *)

Module HttpFacts.
Import Py Http.

Lemma last_default_irrelevant {A} (l : list A) : forall x d d',
  List.last (x :: l) d = List.last (x :: l) d'.
Proof. induction l as [|y l IH]; intros x d d'; [reflexivity | apply (IH y)]. Qed.

Lemma detect_fold (rs : list (bool * (str * str))) : forall st,
  fold_left (fun st r => detect r.1 r.2.1 r.2.2 st) rs st
  = (st.1 ++ map fst (fired rs), List.last (map snd (fired rs)) st.2).
Proof.
  unfold fired.
  induction rs as [|[hit [tag level]] rs IH]; intros [tags lvl]; cbn.
  - now rewrite app_nil_r.
  - rewrite IH. destruct hit; cbn; [|reflexivity].
    rewrite <- app_assoc. cbn. f_equal.
    destruct (map snd (map snd (List.filter fst rs))) as [|l0 ls]; [reflexivity|].
    apply last_default_irrelevant.
Qed.

(** [analyze_request] returns the tags of the rules that fire, in source
    order, and the level of the last rule that fires. *)
Lemma analyze_request_last lower self request_data uri user_agent :
  get_str request_data "request_uri" = Some uri ->
  get_str request_data "user_agent" = Some user_agent ->
  analyze_request lower self request_data
  = Some (map fst (fired (rules (lower uri) (lower user_agent))),
          last_level (fired (rules (lower uri) (lower user_agent)))).
Proof.
  intros Hu Ha. unfold analyze_request. rewrite Hu, Ha. cbn [fmap option_fmap option_map mbind option_bind].
  f_equal.
  exact (detect_fold (rules (lower uri) (lower user_agent)) ([], lit "low")).
Qed.

(** C2 at the failing input.  The URI fires the SQL injection rule (high)
    and the directory traversal rule (medium) and no other; both tags are
    returned, but the level returned is [medium], the level of the rule
    that fired last, where the highest level among the fired rules is
    [high]. *)
Theorem http_threat_level_not_maximum :
  forall lower self,
    lower probe_uri = probe_uri -> lower probe_agent = probe_agent ->
    fired (rules probe_uri probe_agent)
      = [(lit "sql_injection", lit "high"); (lit "directory_traversal", lit "medium")]
    /\ analyze_request lower self probe
       = Some ([lit "sql_injection"; lit "directory_traversal"], lit "medium")
    /\ max_level (fired (rules probe_uri probe_agent)) = lit "high".
Proof.
  intros lower self Hu Ha. split; [vm_compute; reflexivity|]. split.
  - rewrite (analyze_request_last lower self probe probe_uri probe_agent) by reflexivity.
    rewrite Hu, Ha. vm_compute. reflexivity.
  - vm_compute. reflexivity.
Qed.

Lemma http_threat_level_not_maximum_witness :
  analyze_request ascii_lower no_requests probe
  = Some ([lit "sql_injection"; lit "directory_traversal"], lit "medium").
Proof.
  exact (proj1 (proj2 (http_threat_level_not_maximum ascii_lower no_requests
                         eq_refl eq_refl))).
Defined.

(** [method] is read and not used: the answer is already determined by
    the other two fields. *)
Lemma http_classifier_two_fields lower self1 self2 (request1 request2 : dict) :
  dict_get request1 "request_uri" = dict_get request2 "request_uri" ->
  dict_get request1 "user_agent" = dict_get request2 "user_agent" ->
  analyze_request lower self1 request1 = analyze_request lower self2 request2.
Proof.
  intros Hu Ha. unfold analyze_request, get_str. now rewrite Hu, Ha.
Qed.

(** C9.  The answer of [analyze_request] is a function of the three
    fields [method], [request_uri] and [user_agent] of the request: it is
    the same for any two honeypot objects and any two request records that
    agree on these fields. *)
Theorem http_classifier_pure :
  forall lower self1 self2 (request1 request2 : dict),
    dict_get request1 "method" = dict_get request2 "method" ->
    dict_get request1 "request_uri" = dict_get request2 "request_uri" ->
    dict_get request1 "user_agent" = dict_get request2 "user_agent" ->
    analyze_request lower self1 request1 = analyze_request lower self2 request2.
Proof.
  intros lower self1 self2 request1 request2 _ Hu Ha.
  now apply http_classifier_two_fields.
Qed.

Lemma http_classifier_pure_witness :
  analyze_request ascii_lower no_requests probe = analyze_request ascii_lower busy probe_again.
Proof.
  apply (http_classifier_pure ascii_lower no_requests busy probe probe_again);
    reflexivity.
Defined.

End HttpFacts.

(** ** The alert service *)

Module AlertsFacts.
Import Py Eff EffFacts Alerts.

(** *** Datetimes: order and formatting *)

Lemma days_in_month_le y m : days_in_month y m <= 31.
Proof.
  unfold days_in_month.
  repeat match goal with |- context [if ?b then _ else _] => destruct b end; lia.
Qed.

Lemma valid_bounded d : valid d -> bounded d.
Proof.
  unfold valid, bounded. intros (_ & ? & [_ Hd] & ? & ? & ? & ?).
  pose proof (days_in_month_le (year d) (month d)). repeat split; lia.
Qed.

Lemma rank_split d :
  rank d = hour_rank d * rank_hour
           + ((minute d * 60 + second d) * 1000000 + microsecond d).
Proof. unfold rank, hour_rank, rank_hour. lia. Qed.

Lemma rank_rest_lt d :
  bounded d -> (minute d * 60 + second d) * 1000000 + microsecond d < rank_hour.
Proof. unfold bounded, rank_hour. lia. Qed.

Lemma lex_step x y b :
  ((x <? y) || ((x =? y) && b)) = true <-> x < y \/ (x = y /\ b = true).
Proof.
  destruct (N.ltb_spec x y), (N.eqb_spec x y); cbn; split; intros; try lia;
    try tauto; try discriminate; intuition lia.
Qed.

Lemma dt_ltb_rank a b :
  bounded a -> bounded b -> (dt_ltb a b = true <-> rank a < rank b).
Proof.
  unfold bounded, dt_ltb, fields, rank. intros Ha Hb. cbn [lex_ltb].
  rewrite !lex_step. split.
  - intros H. repeat (destruct H as [H | [-> H]]; [lia|]). discriminate.
  - intros H.
    destruct (N.lt_trichotomy (year a) (year b)) as [?|[Ey|?]]; [tauto| |lia].
    right; split; [exact Ey|].
    destruct (N.lt_trichotomy (month a) (month b)) as [?|[Em|?]]; [tauto| |lia].
    right; split; [exact Em|].
    destruct (N.lt_trichotomy (day a) (day b)) as [?|[Ed|?]]; [tauto| |lia].
    right; split; [exact Ed|].
    destruct (N.lt_trichotomy (hour a) (hour b)) as [?|[Eh|?]]; [tauto| |lia].
    right; split; [exact Eh|].
    destruct (N.lt_trichotomy (minute a) (minute b)) as [?|[Emi|?]]; [tauto| |lia].
    right; split; [exact Emi|].
    destruct (N.lt_trichotomy (second a) (second b)) as [?|[Es|?]]; [tauto| |lia].
    right; split; [exact Es|].
    destruct (N.lt_trichotomy (microsecond a) (microsecond b)) as [?|[Eu|?]];
      [tauto|lia|lia].
Qed.

Lemma dt_ltb_false_rank a b :
  bounded a -> bounded b -> (dt_ltb a b = false <-> rank b <= rank a).
Proof.
  intros Ha Hb. pose proof (dt_ltb_rank a b Ha Hb) as H.
  destruct (dt_ltb a b).
  - split; [discriminate|]. intros Hle.
    assert (rank a < rank b) by (apply H; reflexivity). lia.
  - split; [|reflexivity]. intros _.
    destruct (N.lt_ge_cases (rank a) (rank b)) as [Hlt|]; [|lia].
    apply H in Hlt. discriminate.
Qed.

Lemma clock_mono clock i j :
  clock_ok clock -> (i <= j)%nat -> rank (clock i) <= rank (clock j).
Proof.
  intros [Hv Hm] Hij.
  apply (dt_ltb_false_rank (clock j) (clock i)); auto using valid_bounded.
Qed.

Lemma clock_hour_mono clock i j :
  clock_ok clock -> (i <= j)%nat -> hour_rank (clock i) <= hour_rank (clock j).
Proof.
  intros Hc Hij. pose proof (clock_mono clock i j Hc Hij) as H.
  destruct Hc as [Hv _].
  pose proof (rank_rest_lt _ (valid_bounded _ (Hv i))).
  pose proof (rank_rest_lt _ (valid_bounded _ (Hv j))).
  rewrite !rank_split in H. unfold rank_hour in *. nia.
Qed.

(** The day before: bounded again and a full day lower in rank. *)
Lemma minus_24h_rank b c :
  bounded b -> minus_24h b = Some c -> bounded c /\ rank c + rank_day <= rank b.
Proof.
  unfold bounded, minus_24h, rank, rank_day. intros Hb.
  pose proof (days_in_month_le (year b) (month b - 1)).
  destruct (N.ltb_spec 1 (day b)); [|destruct (N.ltb_spec 1 (month b));
    [|destruct (N.ltb_spec 1 (year b)); [|discriminate]]];
    intros [= <-]; cbn; split; try lia; repeat split; lia.
Qed.

(** *** The time line *)

Ltac month_cases m :=
  let H := fresh in
  assert (H : m = 1 \/ m = 2 \/ m = 3 \/ m = 4 \/ m = 5 \/ m = 6 \/ m = 7 \/ m = 8
              \/ m = 9 \/ m = 10 \/ m = 11 \/ m = 12) by lia;
  repeat (destruct H as [H | H]; [subst m|]); [..|subst m].

Lemma year_length (y : N) :
  1 <= y ->
  (days_before_year (Z.of_N y + 1)
   = days_before_year (Z.of_N y) + 365 + leap y)%Z.
Proof.
  intros Hy. unfold days_before_year, leap, is_leap.
  destruct (N.eqb_spec (y mod 4) 0) as [H4|H4];
    destruct (N.eqb_spec (y mod 100) 0) as [H100|H100];
    destruct (N.eqb_spec (y mod 400) 0) as [H400|H400]; cbn [negb andb orb];
    apply (f_equal Z.of_N) in H4 || apply (not_inj Z.of_N) in H4 || idtac;
    pose proof (N.Div0.mod_eq y 4); pose proof (N.Div0.mod_eq y 100);
    pose proof (N.Div0.mod_eq y 400);
    pose proof (N.mod_lt y 4 ltac:(lia)); pose proof (N.mod_lt y 100 ltac:(lia));
    pose proof (N.mod_lt y 400 ltac:(lia));
    pose proof (N.Div0.mul_div_le y 4); pose proof (N.Div0.mul_div_le y 100);
    pose proof (N.Div0.mul_div_le y 400);
    replace (Z.of_N y + 1 - 1)%Z with (Z.of_N y) by lia;
    Z.div_mod_to_equations; lia.
Qed.

Lemma days_before_year_mono (y y' : Z) :
  (y <= y')%Z -> (days_before_year y <= days_before_year y')%Z.
Proof. unfold days_before_year. intros H. Z.div_mod_to_equations. lia. Qed.

(** Days in and before each month. *)
Lemma month_table y :
  let L := leap y in
  (days_before_month y 1 = 0 /\ days_before_month y 2 = 31
   /\ days_before_month y 3 = 59 + L /\ days_before_month y 4 = 90 + L
   /\ days_before_month y 5 = 120 + L /\ days_before_month y 6 = 151 + L
   /\ days_before_month y 7 = 181 + L /\ days_before_month y 8 = 212 + L
   /\ days_before_month y 9 = 243 + L /\ days_before_month y 10 = 273 + L
   /\ days_before_month y 11 = 304 + L /\ days_before_month y 12 = 334 + L)%Z
  /\ (Z.of_N (days_in_month y 1) = 31 /\ Z.of_N (days_in_month y 2) = 28 + L
      /\ Z.of_N (days_in_month y 3) = 31 /\ Z.of_N (days_in_month y 4) = 30
      /\ Z.of_N (days_in_month y 5) = 31 /\ Z.of_N (days_in_month y 6) = 30
      /\ Z.of_N (days_in_month y 7) = 31 /\ Z.of_N (days_in_month y 8) = 31
      /\ Z.of_N (days_in_month y 9) = 30 /\ Z.of_N (days_in_month y 10) = 31
      /\ Z.of_N (days_in_month y 11) = 30 /\ Z.of_N (days_in_month y 12) = 31)%Z
  /\ (0 <= L <= 1)%Z.
Proof.
  unfold leap, days_before_month, days_in_month.
  destruct (is_leap y); cbn; repeat split; lia.
Qed.

(** Within a year the day count follows month and day. *)
Lemma month_day_order y m d m' d' :
  1 <= m <= 12 -> 1 <= m' <= 12 ->
  1 <= d <= days_in_month y m -> 1 <= d' <= days_in_month y m' ->
  m < m' ->
  (days_before_month y m + Z.of_N d < days_before_month y m' + Z.of_N d')%Z.
Proof.
  intros Hm Hm' Hd Hd' Hlt. pose proof (month_table y) as H. cbv zeta in H.
  destruct H as (Hb & Hi & HL). decompose [and] Hb. decompose [and] Hi.
  month_cases m; month_cases m'; lia.
Qed.

Lemma year_day_range y m d :
  1 <= m <= 12 -> 1 <= d <= days_in_month y m ->
  (1 <= days_before_month y m + Z.of_N d <= 365 + leap y)%Z.
Proof.
  intros Hm Hd. pose proof (month_table y) as H. cbv zeta in H.
  destruct H as (Hb & Hi & HL). decompose [and] Hb. decompose [and] Hi.
  month_cases m; lia.
Qed.

(** The day count follows the order of valid dates. *)
Lemma toordinal_order a b :
  valid a -> valid b ->
  (year a < year b
   \/ (year a = year b /\ (month a < month b
                           \/ (month a = month b /\ day a < day b)))) ->
  (toordinal a < toordinal b)%Z.
Proof.
  intros (Hya & Hma & Hda & _) (Hyb & Hmb & Hdb & _) H. unfold toordinal.
  destruct H as [Hy | [Ey [Hm | [Em Hd]]]].
  - pose proof (year_day_range _ _ _ Hma Hda).
    pose proof (year_day_range _ _ _ Hmb Hdb).
    pose proof (year_length (year a) ltac:(lia)).
    pose proof (days_before_year_mono (Z.of_N (year a) + 1) (Z.of_N (year b)) ltac:(lia)).
    lia.
  - rewrite Ey in *. pose proof (month_day_order _ _ _ _ _ Hma Hmb Hda Hdb Hm). lia.
  - rewrite Ey, Em. lia.
Qed.

Lemma microseconds_order a b :
  valid a -> valid b -> (rank a < rank b <-> (microseconds a < microseconds b)%Z).
Proof.
  intros Ha Hb.
  pose proof (toordinal_order a b Ha Hb) as Hab.
  pose proof (toordinal_order b a Hb Ha) as Hba.
  assert (Heq : year a = year b -> month a = month b -> day a = day b ->
                toordinal a = toordinal b).
  { unfold toordinal. now intros -> -> ->. }
  apply valid_bounded in Ha as (? & ? & ? & ? & ? & ?), Hb as (? & ? & ? & ? & ? & ?).
  unfold rank, microseconds.
  destruct (N.lt_trichotomy (year a) (year b)) as [Hy|[Hy|Hy]];
    [specialize (Hab ltac:(tauto)); split; intros; lia
    | | specialize (Hba ltac:(tauto)); split; intros; lia].
  destruct (N.lt_trichotomy (month a) (month b)) as [Hm|[Hm|Hm]];
    [specialize (Hab ltac:(tauto)); split; intros; lia
    | | specialize (Hba ltac:(intuition)); split; intros; lia].
  destruct (N.lt_trichotomy (day a) (day b)) as [Hd|[Hd|Hd]];
    [specialize (Hab ltac:(tauto)); split; intros; lia
    | | specialize (Hba ltac:(intuition)); split; intros; lia].
  specialize (Heq Hy Hm Hd). rewrite Heq, Hy, Hm, Hd. split; intros; lia.
Qed.

(** [minus_24h] is the datetime twenty-four hours earlier. *)
Lemma month_before y m :
  1 < m <= 12 ->
  1 <= days_in_month y (m - 1)
  /\ (days_before_month y (m - 1) + Z.of_N (days_in_month y (m - 1))
      = days_before_month y m)%Z.
Proof.
  intros Hm. pose proof (month_table y) as H. cbv zeta in H.
  destruct H as (Hb & Hi & HL). decompose [and] Hb. decompose [and] Hi.
  month_cases m; try lia;
    match goal with
    | |- context [days_before_month _ (?k - 1)] =>
        let v := eval vm_compute in (k - 1) in change (k - 1) with v
    end; lia.
Qed.

Lemma minus_24h_microseconds b c :
  valid b -> minus_24h b = Some c ->
  valid c /\ (microseconds c = microseconds b - day_us)%Z.
Proof.
  intros (Hy & Hm & Hd & Hh & Hmi & Hs & Hu). unfold minus_24h.
  destruct (N.ltb_spec 1 (day b)) as [Hd1|Hd1].
  - intros [= <-]. unfold valid, microseconds, toordinal, day_us.
    cbn [year month day hour minute second microsecond]. split; [|lia].
    repeat split; lia.
  - destruct (N.ltb_spec 1 (month b)) as [Hm1|Hm1].
    + intros [= <-].
      destruct (month_before (year b) (month b) ltac:(lia)) as [Hdim E].
      unfold valid, microseconds, toordinal, day_us.
      cbn [year month day hour minute second microsecond]. split; [|lia].
      repeat split; lia.
    + destruct (N.ltb_spec 1 (year b)) as [Hy1|Hy1]; [|discriminate].
      intros [= <-].
      pose proof (year_length (year b - 1) ltac:(lia)) as Hlen.
      replace (Z.of_N (year b - 1) + 1)%Z with (Z.of_N (year b)) in Hlen by lia.
      pose proof (month_table (year b)) as H. cbv zeta in H.
      pose proof (month_table (year b - 1)) as H'. cbv zeta in H'.
      assert (Em : month b = 1) by lia. assert (Ed : day b = 1) by lia.
      unfold valid, microseconds, toordinal, day_us.
      cbn [year month day hour minute second microsecond]. rewrite Em, Ed.
      split; [|lia]. repeat split; lia.
Qed.

Lemma strftime_length t : length (strftime_YmdH t) = 10%nat.
Proof. reflexivity. Qed.

Lemma strftime_bucket t t' :
  hour_bucket t = hour_bucket t' -> strftime_YmdH t = strftime_YmdH t'.
Proof. unfold hour_bucket, strftime_YmdH. now intros [= -> -> -> ->]. Qed.

Lemma pad2_inj n m : n < 100 -> m < 100 -> pad2 n = pad2 m -> n = m.
Proof.
  unfold pad2, digit. intros Hn Hm [= H1 H0].
  pose proof (N.div_mod n 10). pose proof (N.div_mod m 10).
  pose proof (N.mod_small (n / 10) 10). pose proof (N.mod_small (m / 10) 10).
  assert (n / 10 < 10) by (apply N.Div0.div_lt_upper_bound; lia).
  assert (m / 10 < 10) by (apply N.Div0.div_lt_upper_bound; lia).
  lia.
Qed.

Lemma pad4_inj n m : n < 10000 -> m < 10000 -> pad4 n = pad4 m -> n = m.
Proof.
  unfold pad4, digit. intros Hn Hm [= H3 H2 H1 H0].
  assert (D : forall k, k = 10 * (k / 10) + k mod 10) by (intros; apply N.div_mod; lia).
  assert (E : forall k, k / 10 / 10 = k / 100)
    by (intros; rewrite N.Div0.div_div; reflexivity).
  assert (F : forall k, k / 100 / 10 = k / 1000)
    by (intros; rewrite N.Div0.div_div; reflexivity).
  pose proof (D n) as Dn0. pose proof (D (n / 10)) as Dn1. pose proof (D (n / 100)) as Dn2.
  pose proof (D m) as Dm0. pose proof (D (m / 10)) as Dm1. pose proof (D (m / 100)) as Dm2.
  rewrite E in Dn1, Dm1. rewrite F in Dn2, Dm2.
  assert (n / 1000 < 10) by (apply N.Div0.div_lt_upper_bound; lia).
  assert (m / 1000 < 10) by (apply N.Div0.div_lt_upper_bound; lia).
  rewrite (N.mod_small (n / 1000)) in H3 by lia.
  rewrite (N.mod_small (m / 1000)) in H3 by lia.
  lia.
Qed.

(** On valid datetimes the formatted hour determines the hour bucket. *)
Lemma strftime_inj t t' :
  valid t -> valid t' -> strftime_YmdH t = strftime_YmdH t' -> hour_bucket t = hour_bucket t'.
Proof.
  intros Ht Ht' E. apply valid_bounded in Ht as Hb, Ht' as Hb'.
  destruct Ht as ([_ Hy] & _), Ht' as ([_ Hy'] & _).
  destruct Hb as (Hm & Hd & Hh & _), Hb' as (Hm' & Hd' & Hh' & _).
  unfold strftime_YmdH in E.
  apply app_inj_1 in E as [E4 E]; [|reflexivity].
  apply app_inj_1 in E as [Em E]; [|reflexivity].
  apply app_inj_1 in E as [Ed Eh]; [|reflexivity].
  apply pad4_inj in E4; [|lia|lia]. apply pad2_inj in Em; [|lia|lia].
  apply pad2_inj in Ed; [|lia|lia]. apply pad2_inj in Eh; [|lia|lia].
  unfold hour_bucket. congruence.
Qed.

Lemma hour_bucket_rank t t' : hour_bucket t = hour_bucket t' -> hour_rank t = hour_rank t'.
Proof. unfold hour_bucket, hour_rank. now intros [= -> -> -> ->]. Qed.

Lemma topic_prefix_initial c : exists tl, topic_prefix c = initial c :: tl.
Proof. destruct c; eexists; reflexivity. Qed.

(** Keys are in one-to-one correspondence with (check, dimension, hour
    bucket). *)
Lemma key_of_prefix c t : key_of c t = topic_prefix c ++ strftime_YmdH t.
Proof. destruct c; cbn [key_of topic_prefix]; rewrite <- ?app_assoc; reflexivity. Qed.

Lemma key_of_inj c c' t t' :
  valid t -> valid t' ->
  key_of c t = key_of c' t' -> c = c' /\ hour_bucket t = hour_bucket t'.
Proof.
  intros Ht Ht' E. rewrite !key_of_prefix in E.
  apply app_inj_2 in E as [Ep Es]; [|reflexivity].
  split; [|now apply strftime_inj].
  destruct (topic_prefix_initial c) as [tl Hc], (topic_prefix_initial c') as [tl' Hc'].
  assert (Hi : initial c = initial c') by congruence.
  destruct c, c'; try discriminate Hi; try reflexivity.
  cbn [topic_prefix] in Ep. apply app_inv_head in Ep. apply app_inv_tail in Ep.
  now subst.
Qed.

Lemma key_of_bucket c t t' : hour_bucket t = hour_bucket t' -> key_of c t = key_of c t'.
Proof. intros H. rewrite !key_of_prefix. now rewrite (strftime_bucket t t' H). Qed.

(** *** Steps of the service *)

Lemma now_run clock s : now clock s = (Ret (clock (ticks s)), set_ticks (S (ticks s)) s).
Proof. reflexivity. Qed.

Section Dedup.
Variable clock : nat -> datetime.
Hypothesis Hclock : clock_ok clock.

Lemma Inv_init th e u p w : Inv clock (init th e u p w).
Proof.
  split; cbn.
  - intros k ts H. now rewrite lookup_empty in H.
  - constructor.
  - intros a H. now apply not_elem_of_nil in H.
Qed.

(** A key built now or later, and absent from the store, has never been
    used: the only keys that left the store are those of hours gone by. *)
Lemma fresh_key s c n :
  Inv clock s -> (ticks s <= n)%nat ->
  sent_alerts s !! key_of c (clock n) = None ->
  key_of c (clock n) ∉ map sent_key (dispatched s).
Proof.
  intros HI Hn Hnone Hin.
  apply list_elem_of_fmap in Hin as (a & Hk & Ha).
  destruct (inv_log clock s HI a Ha) as (c' & i & Hi & Hka & Hst).
  rewrite <- Hk, Hnone in Hst. destruct Hst as (j & Hj & Hlt).
  pose proof (clock_hour_mono clock j n Hclock ltac:(lia)) as Hmono.
  destruct Hclock as [Hv _].
  assert (E : key_of c (clock n) = key_of c' (clock i)) by congruence.
  apply key_of_inj in E as [_ E]; auto.
  apply hour_bucket_rank in E. lia.
Qed.

Lemma step_Inv s s' : Inv clock s -> step clock s s' -> Inv clock s'.
Proof.
  intros HI Hs. destruct Hs as [s | s c a Hnone Hkey | s cutoff m' Hcut Hev].
  - (* a clock reading *)
    destruct HI as [H1 H2 H3]. split; cbn; auto.
    intros a Ha. destruct (H3 a Ha) as (c & i & Hi & Hk & Hst).
    exists c, i. split; [lia|]. split; [exact Hk|].
    destruct (sent_alerts s !! sent_key a).
    + destruct Hst as (i' & ? & ? & ?). exists i'. repeat split; auto; lia.
    + destruct Hst as (j & ? & ?). exists j. split; auto; lia.
  - (* a dispatch *)
    pose proof (fresh_key s c (ticks s) HI ltac:(lia) Hnone) as Hfresh.
    destruct HI as [H1 H2 H3]. split; cbn.
    + intros k ts. rewrite map_app, elem_of_app. cbn.
      destruct (decide (key_of c (clock (ticks s)) = k)) as [<-|Hne].
      * intros _. right. rewrite Hkey. apply list_elem_of_here.
      * rewrite lookup_insert_ne by exact Hne. intros H. left. eapply H1; eauto.
    + rewrite map_app. cbn. apply NoDup_app. split; [exact H2|]. split.
      * intros k Hk Hk'. apply list_elem_of_singleton in Hk'. subst k.
        rewrite Hkey in Hk. contradiction.
      * apply NoDup_singleton.
    + intros a0 Ha0. apply elem_of_app in Ha0 as [Ha0 | Ha0].
      * destruct (H3 a0 Ha0) as (c0 & i & Hi & Hk & Hst).
        exists c0, i. split; [lia|]. split; [exact Hk|].
        assert (Hne : key_of c (clock (ticks s)) <> sent_key a0).
        { intros E. apply Hfresh. rewrite E. apply list_elem_of_fmap. eauto. }
        rewrite lookup_insert_ne by exact Hne.
        destruct (sent_alerts s !! sent_key a0).
        -- destruct Hst as (i' & ? & ? & ?). exists i'. repeat split; auto; lia.
        -- destruct Hst as (j & ? & ?). exists j. split; auto; lia.
      * apply list_elem_of_singleton in Ha0. subst a0.
        exists c, (ticks s). split; [lia|]. split; [exact Hkey|].
        rewrite Hkey, lookup_insert_eq. exists (S (ticks s)). repeat split; lia.
  - (* a cleanup *)
    destruct HI as [H1 H2 H3]. split; cbn; auto.
    + intros k ts. rewrite (Hev k). destruct (sent_alerts s !! k) as [ts0|] eqn:E;
        [|discriminate].
      intros _. eapply H1; eauto.
    + intros a Ha. destruct (H3 a Ha) as (c & i & Hi & Hk & Hst).
      exists c, i. split; [lia|]. split; [exact Hk|]. rewrite (Hev (sent_key a)).
      destruct (sent_alerts s !! sent_key a) as [ts|].
      * destruct Hst as (i' & Hii' & Hi' & ->).
        destruct (dt_ltb (clock i') cutoff) eqn:Eold.
        -- exists (ticks s). split; [lia|].
           pose proof Hclock as [Hv _].
           destruct (minus_24h_rank _ _ (valid_bounded _ (Hv (ticks s))) Hcut)
             as [Hbc Hday].
           apply (dt_ltb_rank (clock i') cutoff (valid_bounded _ (Hv i')) Hbc) in Eold.
           pose proof (clock_mono clock i i' Hclock Hii') as Hmono.
           pose proof (rank_rest_lt _ (valid_bounded _ (Hv i))).
           pose proof (rank_rest_lt _ (valid_bounded _ (Hv (ticks s)))).
           rewrite !rank_split in *. unfold rank_day, rank_hour in *. nia.
        -- exists i'. repeat split; auto; lia.
      * destruct Hst as (j & ? & ?). exists j. split; auto; lia.
Qed.

Lemma steps_Inv s s' : Inv clock s -> rtc (step clock) s s' -> Inv clock s'.
Proof. intros HI Hs. induction Hs; eauto using step_Inv. Qed.

End Dedup.

(** *** The checks, step by step *)

Section Checks.
Variable clock : nat -> datetime.

Lemma once_run c subject severity message metadata s :
  once clock c subject severity message metadata s =
  match sent_alerts s !! key_of c (clock (ticks s)) with
  | None => (Ret tt, after_dispatch clock c subject severity message metadata s)
  | Some _ => (Ret tt, set_ticks (S (ticks s)) s)
  end.
Proof.
  unfold once, after_dispatch. rewrite bind_eq, now_run, bind_eq.
  cbn [get_world sent_alerts set_ticks].
  destruct (sent_alerts s !! key_of c (clock (ticks s))) eqn:E;
    match goal with |- context [decide ?P] => destruct (decide P) as [D|D] end;
    try congruence; reflexivity.
Qed.

(** Each check compares its aggregate with its threshold and, above it,
    runs the shared branch. *)
Lemma check_of_once c n by_ip s :
  check_of clock c n by_ip s =
  if (threshold_of c (thresholds s) <? n)%Z
  then once clock c (subject_of c) (severity_of c) (message_of c n by_ip) (metadata_of c n by_ip) s
  else (Ret tt, s).
Proof.
  destruct c; cbn [check_of threshold_of];
    unfold check_high_volume_attacks, check_unique_ips, check_brute_force_attacks,
      check_iot_botnet_activity; cbn [brute_force_buckets];
    rewrite bind_eq; cbn [get_world];
    destruct (_ <? n)%Z; try reflexivity.
  - (* per address: the loop over the one bucket *)
    rewrite bind_eq.
    change (now clock ≫= _) with
      (once clock (BruteForce ip) (subject_of (BruteForce ip)) (severity_of (BruteForce ip))
            (message_of (BruteForce ip) n by_ip) (metadata_of (BruteForce ip) n by_ip)).
    rewrite once_run. destruct (sent_alerts s !! _); reflexivity.
Qed.

End Checks.

(** *** Every run is a sequence of steps *)

Section Runs.
Variable clock : nat -> datetime.

Lemma check_of_run c n by_ip s :
  check_of clock c n by_ip s =
  (Ret tt,
   if (threshold_of c (thresholds s) <? n)%Z then
     match sent_alerts s !! key_of c (clock (ticks s)) with
     | None => after_dispatch clock c (subject_of c) (severity_of c)
                 (message_of c n by_ip) (metadata_of c n by_ip) s
     | Some _ => set_ticks (S (ticks s)) s
     end
   else s).
Proof.
  rewrite check_of_once, once_run.
  destruct (_ <? n)%Z; [|reflexivity]. now destruct (sent_alerts s !! _).
Qed.

Lemma check_of_steps c n by_ip s :
  rtc (step clock) s (check_of clock c n by_ip s).2.
Proof.
  rewrite check_of_run. cbn [snd].
  destruct (_ <? n)%Z; [|reflexivity].
  destruct (sent_alerts s !! key_of c (clock (ticks s))) eqn:E.
  - apply rtc_once, step_tick.
  - apply rtc_once. unfold after_dispatch. now apply step_dispatch.
Qed.

Lemma brute_force_buckets_cons ip n rest s :
  brute_force_buckets clock ((ip, n) :: rest) s
  = brute_force_buckets clock rest (check_of clock (BruteForce ip) n [] s).2.
Proof.
  assert (H : check_of clock (BruteForce ip) n [] s
              = (Ret tt, (check_of clock (BruteForce ip) n [] s).2))
    by (rewrite check_of_run; reflexivity).
  revert H. generalize ((check_of clock (BruteForce ip) n [] s).2). intros s'.
  cbn [check_of check_brute_force_attacks brute_force_buckets].
  rewrite (bind_eq get_world), (bind_eq get_world). cbn [get_world].
  apply bind_unit_then.
Qed.

Lemma brute_force_buckets_steps buckets : forall s,
  (brute_force_buckets clock buckets s).1 = Ret tt
  /\ rtc (step clock) s (brute_force_buckets clock buckets s).2.
Proof.
  induction buckets as [|[ip n] rest IH]; intros s.
  - split; reflexivity.
  - rewrite brute_force_buckets_cons. destruct (IH (check_of clock (BruteForce ip) n [] s).2)
      as [Hr Hs]. split; [exact Hr|].
    etrans; [apply check_of_steps | exact Hs].
Qed.

(** The keys that [cleanup_old_alerts] deletes. *)
Lemma lookup_foldl_delete (ks : list str) : forall (m : gmap str datetime) k,
  foldl (fun m key => delete key m) m ks !! k
  = if decide (k ∈ ks) then None else m !! k.
Proof.
  induction ks as [|k0 ks IH]; intros m k; cbn.
  - destruct (decide _) as [H|_]; [now apply not_elem_of_nil in H | reflexivity].
  - rewrite IH. destruct (decide (k ∈ ks)) as [Hin|Hnin].
    + destruct (decide _) as [_|H]; [reflexivity|]. exfalso. apply H. now right.
    + destruct (decide (k = k0)) as [->|Hne].
      * rewrite lookup_delete_eq. destruct (decide _) as [_|H]; [reflexivity|].
        exfalso. apply H. left.
      * rewrite lookup_delete_ne by congruence.
        destruct (decide _) as [H|_]; [|reflexivity].
        apply elem_of_cons in H as [?|?]; contradiction.
Qed.

Lemma cleanup_evicted (cutoff : datetime) (m : gmap str datetime) :
  evicted cutoff m
    (foldl (fun m key => delete key m) m
       (map fst (List.filter (fun kv => dt_ltb kv.2 cutoff) (map_to_list m)))).
Proof.
  intros k. rewrite lookup_foldl_delete.
  destruct (decide _) as [Hin|Hnin].
  - apply list_elem_of_fmap in Hin as ([k' ts] & -> & Hin). cbn.
    apply list_elem_of_In, filter_In in Hin as [Hin Hold].
    apply list_elem_of_In, elem_of_map_to_list in Hin. cbn in Hold.
    now rewrite Hin, Hold.
  - destruct (m !! k) as [ts|] eqn:E; [|reflexivity].
    destruct (dt_ltb ts cutoff) eqn:Hold; [|reflexivity].
    exfalso. apply Hnin. apply list_elem_of_fmap. exists (k, ts). split; [reflexivity|].
    apply list_elem_of_In, filter_In. split; [|exact Hold].
    now apply list_elem_of_In, elem_of_map_to_list.
Qed.

Lemma cleanup_run s :
  cleanup_old_alerts clock s =
  match minus_24h (clock (ticks s)) with
  | Some cutoff =>
      (Ret tt,
       mkService (thresholds s) (alert_email s) (smtp_username s) (smtp_password s)
         (slack_webhook s)
         (foldl (fun m key => delete key m) (sent_alerts s)
            (map fst (List.filter (fun kv => dt_ltb kv.2 cutoff)
                                  (map_to_list (sent_alerts s)))))
         (S (ticks s)) (dispatched s))
  | None => (Exc OverflowError, set_ticks (S (ticks s)) s)
  end.
Proof.
  unfold cleanup_old_alerts. rewrite bind_eq, now_run.
  destruct (minus_24h (clock (ticks s))); reflexivity.
Qed.

Lemma run_job_steps j s :
  (run_job clock j s).1 = Ret tt /\ rtc (step clock) s (run_job clock j s).2.
Proof.
  destruct j as [r1 r2 r3 r4|]; cbn [run_job].
  - unfold run_checks, try_except.
    assert (H1 : (check_high_volume_attacks clock r1 s).1 = Ret tt
                 /\ rtc (step clock) s (check_high_volume_attacks clock r1 s).2).
    { destruct r1 as [n|]; [|split; reflexivity].
      change (check_high_volume_attacks clock (Some n)) with (check_of clock HighVolume n []).
      split; [now rewrite check_of_run | apply check_of_steps]. }
    rewrite bind_eq. destruct (check_high_volume_attacks clock r1 s) as [x1 s1].
    cbn [fst snd] in H1. destruct H1 as [-> Hs1].
    assert (H2 : (check_unique_ips clock r2 s1).1 = Ret tt
                 /\ rtc (step clock) s1 (check_unique_ips clock r2 s1).2).
    { destruct r2 as [n|]; [|split; reflexivity].
      change (check_unique_ips clock (Some n)) with (check_of clock UniqueIps n []).
      split; [now rewrite check_of_run | apply check_of_steps]. }
    rewrite bind_eq. destruct (check_unique_ips clock r2 s1) as [x2 s2].
    cbn [fst snd] in H2. destruct H2 as [-> Hs2].
    assert (H3 : (check_brute_force_attacks clock r3 s2).1 = Ret tt
                 /\ rtc (step clock) s2 (check_brute_force_attacks clock r3 s2).2).
    { destruct r3 as [buckets|]; [|split; reflexivity].
      apply brute_force_buckets_steps. }
    rewrite bind_eq. destruct (check_brute_force_attacks clock r3 s2) as [x3 s3].
    cbn [fst snd] in H3. destruct H3 as [-> Hs3].
    assert (H4 : (check_iot_botnet_activity clock r4 s3).1 = Ret tt
                 /\ rtc (step clock) s3 (check_iot_botnet_activity clock r4 s3).2).
    { destruct r4 as [[n by_ip]|]; [|split; reflexivity].
      change (check_iot_botnet_activity clock (Some (n, by_ip)))
        with (check_of clock IotBotnet n by_ip).
      split; [now rewrite check_of_run | apply check_of_steps]. }
    destruct (check_iot_botnet_activity clock r4 s3) as [x4 s4].
    cbn [fst snd] in H4. destruct H4 as [-> Hs4]. cbn [fst snd].
    split; [reflexivity|]. repeat (etrans; [eassumption|]). reflexivity.
  - unfold try_except. rewrite cleanup_run.
    destruct (minus_24h (clock (ticks s))) as [cutoff|] eqn:E; cbn [fst snd mret M_ret].
    + split; [reflexivity|]. apply rtc_once. apply (step_evict clock s cutoff); [exact E|].
      apply cleanup_evicted.
    + split; [reflexivity|]. apply rtc_once, step_tick.
Qed.

Lemma run_jobs_steps js : forall s,
  (run_jobs clock js s).1 = Ret tt /\ rtc (step clock) s (run_jobs clock js s).2.
Proof.
  induction js as [|j js IH]; intros s; cbn [run_jobs].
  - split; reflexivity.
  - rewrite bind_eq. destruct (run_job_steps j s) as [Hr Hs].
    destruct (run_job clock j s) as [x s1]. cbn [fst snd] in *. subst x.
    destruct (IH s1) as [Hr' Hs']. split; [exact Hr'|]. etrans; eassumption.
Qed.

End Runs.

(** *** Deduplication *)

Section Reachable.
Variable clock : nat -> datetime.
Hypothesis Hclock : clock_ok clock.

Lemma step_frame s s' :
  step clock s s' ->
  thresholds s' = thresholds s /\ (ticks s <= ticks s')%nat
  /\ exists new, dispatched s' = dispatched s ++ new.
Proof.
  intros [s0 | s0 c a _ _ | s0 cutoff m' _ _]; cbn.
  - split; [reflexivity|]. split; [lia|]. exists []. now rewrite app_nil_r.
  - split; [reflexivity|]. split; [lia|]. now exists [a].
  - split; [reflexivity|]. split; [lia|]. exists []. now rewrite app_nil_r.
Qed.

Lemma steps_frame s s' :
  rtc (step clock) s s' ->
  thresholds s' = thresholds s /\ (ticks s <= ticks s')%nat
  /\ exists new, dispatched s' = dispatched s ++ new.
Proof.
  induction 1 as [s | s s1 s2 H1 _ IH].
  - split; [reflexivity|]. split; [lia|]. exists []. now rewrite app_nil_r.
  - destruct (step_frame _ _ H1) as (Ht & Hn & new1 & Hd).
    destruct IH as (Ht' & Hn' & new2 & Hd').
    split; [congruence|]. split; [lia|]. exists (new1 ++ new2).
    now rewrite Hd', Hd, app_assoc.
Qed.

(** In a state the service can be in, a key built from the present hour
    is in the store exactly when a notification was dispatched under
    it. *)
Lemma stored_iff_dispatched s c :
  Inv clock s ->
  sent_alerts s !! key_of c (clock (ticks s)) = None
  <-> key_of c (clock (ticks s)) ∉ map sent_key (dispatched s).
Proof.
  intros HI. split.
  - now apply fresh_key.
  - intros Hnin. destruct (sent_alerts s !! _) as [ts|] eqn:E; [|reflexivity].
    exfalso. apply Hnin. eapply inv_store; eauto.
Qed.

Lemma breach_suppressed s c n by_ip :
  Inv clock s -> (threshold_of c (thresholds s) < n)%Z ->
  key_of c (clock (ticks s)) ∈ map sent_key (dispatched s) ->
  dispatched (check_of clock c n by_ip s).2 = dispatched s.
Proof.
  intros HI Hn Hin. rewrite check_of_run. cbn [snd].
  apply Z.ltb_lt in Hn. rewrite Hn.
  destruct (sent_alerts s !! key_of c (clock (ticks s))) eqn:E; [reflexivity|].
  apply (stored_iff_dispatched s c HI) in E. contradiction.
Qed.

Lemma breach_dispatched s c n by_ip :
  Inv clock s -> (threshold_of c (thresholds s) < n)%Z ->
  key_of c (clock (ticks s)) ∉ map sent_key (dispatched s) ->
  exists a, dispatched (check_of clock c n by_ip s).2 = dispatched s ++ [a]
            /\ sent_key a = key_of c (clock (ticks s))
            /\ subject a = subject_of c /\ severity a = severity_of c.
Proof.
  intros HI Hn Hnin. rewrite check_of_run. cbn [snd].
  apply Z.ltb_lt in Hn. rewrite Hn.
  apply (stored_iff_dispatched s c HI) in Hnin. rewrite Hnin.
  eexists. split; [reflexivity|]. repeat split.
Qed.

(** After a breach its key is in the dispatch log, whether the breach
    dispatched or was suppressed. *)
Lemma breach_logged s c n by_ip :
  Inv clock s -> (threshold_of c (thresholds s) < n)%Z ->
  key_of c (clock (ticks s)) ∈ map sent_key (dispatched (check_of clock c n by_ip s).2).
Proof.
  intros HI Hn.
  destruct (decide (key_of c (clock (ticks s)) ∈ map sent_key (dispatched s))) as [Hin|Hnin].
  - now rewrite breach_suppressed.
  - destruct (breach_dispatched s c n by_ip HI Hn Hnin) as (a & -> & Hk & _).
    rewrite map_app, elem_of_app. right. cbn. rewrite Hk. apply list_elem_of_here.
Qed.

Lemma reach_Inv th e u p w jobs :
  Inv clock (run_jobs clock jobs (init th e u p w)).2
  /\ thresholds (run_jobs clock jobs (init th e u p w)).2 = th.
Proof.
  destruct (run_jobs_steps clock jobs (init th e u p w)) as [_ Hs]. split.
  - eapply steps_Inv; [exact Hclock | apply Inv_init | exact Hs].
  - now destruct (steps_frame _ _ Hs) as (-> & _).
Qed.

End Reachable.

(** C3.  On a clock that shows valid datetimes and does not run
    backwards, in every state [s] that the service reaches from its start
    by any sequence of check rounds and cleanups: (1) no two dispatched
    notifications have the same key, and each key is the key of a check
    (with its address, for the per-address check) at an hour of the clock;
    (2) two keys are equal exactly when check, address and hour bucket are;
    (3) a check that finds its aggregate above the threshold dispatches
    nothing if a notification with its key was dispatched before, and
    exactly one notification with that key otherwise; (4) a second breach
    of the same check and address whose key is built in the same hour
    bucket dispatches nothing, whatever ran in between, and the log then
    holds the key of the two breaches once; (5) a breach whose
    key is built in an hour bucket that no earlier reading of the clock
    fell into dispatches a new notification. *)
Theorem alert_dedup_per_key :
  forall clock, clock_ok clock ->
  forall th e u p w jobs,
    let s := (run_jobs clock jobs (init th e u p w)).2 in
    (NoDup (map sent_key (dispatched s))
     /\ forall a, a ∈ dispatched s ->
          exists c i, (i < ticks s)%nat /\ sent_key a = key_of c (clock i))
    /\ (forall c c' t t', valid t -> valid t' ->
          (key_of c t = key_of c' t' <-> c = c' /\ hour_bucket t = hour_bucket t'))
    /\ (forall c n by_ip,
          (threshold_of c th < n)%Z ->
          let k := key_of c (clock (ticks s)) in
          let s' := (check_of clock c n by_ip s).2 in
          (k ∈ map sent_key (dispatched s) -> dispatched s' = dispatched s)
          /\ (k ∉ map sent_key (dispatched s) ->
              exists a, dispatched s' = dispatched s ++ [a] /\ sent_key a = k))
    /\ (forall c n by_ip jobs' n' by_ip',
          (threshold_of c th < n)%Z -> (threshold_of c th < n')%Z ->
          let s1 := (check_of clock c n by_ip s).2 in
          let s2 := (run_jobs clock jobs' s1).2 in
          let s3 := (check_of clock c n' by_ip' s2).2 in
          hour_bucket (clock (ticks s2)) = hour_bucket (clock (ticks s)) ->
          dispatched s3 = dispatched s2
          /\ key_of c (clock (ticks s)) ∈ map sent_key (dispatched s3)
          /\ NoDup (map sent_key (dispatched s3)))
    /\ (forall c n by_ip,
          (threshold_of c th < n)%Z ->
          (forall i, (i < ticks s)%nat ->
             hour_bucket (clock i) <> hour_bucket (clock (ticks s))) ->
          exists a, dispatched (check_of clock c n by_ip s).2 = dispatched s ++ [a]
                    /\ sent_key a = key_of c (clock (ticks s))).
Proof.
  intros clock Hclock th e u p w jobs s.
  destruct (reach_Inv clock Hclock th e u p w jobs) as [HI Hth]. fold s in HI, Hth.
  repeat apply conj.
  - apply (inv_nodup clock s HI).
  - intros a Ha. destruct (inv_log clock s HI a Ha) as (c & i & Hi & Hk & _). eauto.
  - intros c c' t t' Ht Ht'. split; [now apply key_of_inj|].
    intros [-> Hb]. now apply key_of_bucket.
  - intros c n by_ip Hn k s'. rewrite <- Hth in Hn. split.
    + intros Hin. now apply breach_suppressed.
    + intros Hnin.
      destruct (breach_dispatched clock Hclock s c n by_ip HI Hn Hnin) as (a & ? & ? & _).
      eauto.
  - intros c n by_ip jobs' n' by_ip' Hn Hn' s1 s2 s3 Hb.
    rewrite <- Hth in Hn.
    pose proof (breach_logged clock Hclock s c n by_ip HI Hn) as Hlogged. fold s1 in Hlogged.
    assert (Hs1 : rtc (step clock) s s1) by apply check_of_steps.
    destruct (run_jobs_steps clock jobs' s1) as [_ Hs2]. fold s2 in Hs2.
    assert (HI2 : Inv clock s2).
    { eapply steps_Inv; [exact Hclock | exact HI | etrans; eassumption]. }
    destruct (steps_frame clock _ _ Hs2) as (Ht2 & _ & new & Hd2).
    destruct (steps_frame clock _ _ Hs1) as (Ht1 & _ & _).
    assert (Hin2 : key_of c (clock (ticks s)) ∈ map sent_key (dispatched s2)).
    { rewrite Hd2, map_app, elem_of_app. now left. }
    assert (Hd3 : dispatched s3 = dispatched s2).
    { apply breach_suppressed; [exact Hclock | exact HI2 | congruence |].
      now rewrite (key_of_bucket c _ _ Hb). }
    rewrite Hd3. split; [reflexivity|]. split; [exact Hin2|].
    apply (inv_nodup clock s2 HI2).
  - intros c n by_ip Hn Hnew. rewrite <- Hth in Hn.
    destruct (breach_dispatched clock Hclock s c n by_ip HI Hn) as (a & ? & ? & _); [|eauto].
    intros Hin. apply list_elem_of_fmap in Hin as (a & Hk & Ha).
    destruct (inv_log clock s HI a Ha) as (c' & i & Hi & Hka & _).
    destruct Hclock as [Hv _].
    assert (E : key_of c (clock (ticks s)) = key_of c' (clock i)) by congruence.
    apply key_of_inj in E as [_ E]; auto. now apply (Hnew i Hi).
Qed.

(** Closed comparisons of numbers, by evaluation. *)
Ltac by_evaluation :=
  vm_compute; first [reflexivity | discriminate | intro; discriminate].

Ltac valid_by_evaluation :=
  unfold valid; cbn [year month day hour minute second microsecond];
  repeat split; by_evaluation.

Lemma two_hours_ok : clock_ok two_hours.
Proof.
  split.
  - intros i. unfold two_hours. destruct (i <? 3)%nat; valid_by_evaluation.
  - intros i j Hij. unfold two_hours.
    destruct (Nat.ltb_spec i 3), (Nat.ltb_spec j 3); try lia; reflexivity.
Qed.

Lemma alert_dedup_per_key_witness :
  let s := (run_jobs two_hours three_rounds (init limits None None None None)).2 in
  clock_ok two_hours
  /\ NoDup (map sent_key (dispatched s))
  /\ map sent_key (dispatched s) = [lit "high_volume_2024051710"; lit "high_volume_2024051711"].
Proof.
  split; [exact two_hours_ok|]. split.
  - exact (proj1 (proj1 (alert_dedup_per_key two_hours two_hours_ok limits
                           None None None None three_rounds))).
  - vm_compute. reflexivity.
Defined.

(** *** Thresholds *)

Lemma below_threshold clock c n by_ip s :
  (n <= threshold_of c (thresholds s))%Z -> check_of clock c n by_ip s = (Ret tt, s).
Proof.
  intros Hn. rewrite check_of_run. apply Z.ltb_ge in Hn. now rewrite Hn.
Qed.

Lemma brute_force_alerts clock buckets : forall s,
  exists new,
    dispatched (brute_force_buckets clock buckets s).2 = dispatched s ++ new
    /\ thresholds (brute_force_buckets clock buckets s).2 = thresholds s
    /\ Forall (fun a => exists ip n,
                 (ip, n) ∈ buckets
                 /\ (brute_force_attempts (thresholds s) < n)%Z
                 /\ metadata a = metadata_of (BruteForce ip) n []) new.
Proof.
  induction buckets as [|[ip n] rest IH]; intros s.
  - exists []. cbn. rewrite app_nil_r. auto.
  - rewrite brute_force_buckets_cons.
    set (s1 := (check_of clock (BruteForce ip) n [] s).2).
    destruct (IH s1) as (new & Hd & Ht & Hall).
    assert (H1 : thresholds s1 = thresholds s
                 /\ exists first, dispatched s1 = dispatched s ++ first
                      /\ Forall (fun a => (brute_force_attempts (thresholds s) < n)%Z
                                          /\ metadata a = metadata_of (BruteForce ip) n [])
                                first).
    { subst s1. rewrite check_of_run. cbn [snd threshold_of].
      destruct (Z.ltb_spec (brute_force_attempts (thresholds s)) n) as [Hlt|Hge].
      - destruct (sent_alerts s !! _).
        + split; [reflexivity|]. exists []. rewrite app_nil_r. auto.
        + split; [reflexivity|]. eexists. split; [reflexivity|].
          constructor; [|constructor]. split; [exact Hlt | reflexivity].
      - split; [reflexivity|]. exists []. rewrite app_nil_r. auto. }
    destruct H1 as (Ht1 & first & Hd1 & Hfirst).
    exists (first ++ new). rewrite Hd, Hd1, app_assoc. split; [reflexivity|].
    split; [congruence|]. apply Forall_app. split.
    + eapply Forall_impl; [exact Hfirst|]. intros a [? ?]. exists ip, n.
      split; [apply list_elem_of_here | auto].
    + eapply Forall_impl; [exact Hall|]. intros a (ip' & n' & Hin & Hlt & Hm).
      exists ip', n'. split; [now apply list_elem_of_further|]. rewrite <- Ht1. auto.
Qed.

(** C10.  Each of the four checks acts only on an aggregate strictly
    above its threshold: with an aggregate below or equal to the threshold
    the check leaves the service as it is (no key is built, nothing is
    dispatched); a check that dispatches has an aggregate above the
    threshold; and the per-address check dispatches only for buckets whose
    count is above the threshold. *)
Theorem alert_threshold_strict :
  forall clock s,
    (forall n, (n <= high_volume_attacks (thresholds s))%Z ->
       check_high_volume_attacks clock (Some n) s = (Ret tt, s))
    /\ (forall n, (n <= unique_ips_per_hour (thresholds s))%Z ->
          check_unique_ips clock (Some n) s = (Ret tt, s))
    /\ (forall buckets,
          Forall (fun b => (b.2 <= brute_force_attempts (thresholds s))%Z) buckets ->
          check_brute_force_attacks clock (Some buckets) s = (Ret tt, s))
    /\ (forall n by_ip, (n <= iot_botnet_activity (thresholds s))%Z ->
          check_iot_botnet_activity clock (Some (n, by_ip)) s = (Ret tt, s))
    /\ (forall c n by_ip,
          dispatched (check_of clock c n by_ip s).2 <> dispatched s ->
          (threshold_of c (thresholds s) < n)%Z)
    /\ (forall buckets,
          exists new,
            dispatched (check_brute_force_attacks clock (Some buckets) s).2
              = dispatched s ++ new
            /\ Forall (fun a => exists ip n,
                         (ip, n) ∈ buckets
                         /\ (brute_force_attempts (thresholds s) < n)%Z
                         /\ metadata a = metadata_of (BruteForce ip) n []) new).
Proof.
  intros clock s. repeat apply conj.
  - intros n Hn. exact (below_threshold clock HighVolume n [] s Hn).
  - intros n Hn. exact (below_threshold clock UniqueIps n [] s Hn).
  - intros buckets. cbn [check_brute_force_attacks].
    induction 1 as [|[ip n] rest Hn _ IH]; [reflexivity|].
    rewrite brute_force_buckets_cons, (below_threshold clock (BruteForce ip) n [] s Hn).
    exact IH.
  - intros n by_ip Hn. exact (below_threshold clock IotBotnet n by_ip s Hn).
  - intros c n by_ip Hd. destruct (Z.lt_ge_cases (threshold_of c (thresholds s)) n) as [|Hge];
      [assumption|].
    exfalso. apply Hd. rewrite below_threshold by lia. reflexivity.
  - intros buckets. destruct (brute_force_alerts clock buckets s) as (new & Hd & _ & Hall).
    eauto.
Qed.

Lemma alert_threshold_strict_witness :
  check_high_volume_attacks two_hours (Some 100%Z) (init limits None None None None)
  = (Ret tt, init limits None None None None)
  /\ check_brute_force_attacks two_hours (Some [(lit "10.0.0.1", 20%Z); (lit "10.0.0.2", 3%Z)])
       (init limits None None None None)
     = (Ret tt, init limits None None None None).
Proof.
  destruct (alert_threshold_strict two_hours (init limits None None None None))
    as (Hvol & _ & Hbrute & _). split.
  - apply Hvol. by_evaluation.
  - apply Hbrute. repeat constructor; by_evaluation.
Defined.

(** *** Cleanup *)

Lemma older_than_cutoff now cutoff ts :
  valid now -> valid ts -> minus_24h now = Some cutoff ->
  (dt_ltb ts cutoff = true <-> (day_us < microseconds now - microseconds ts)%Z).
Proof.
  intros Hnow Hts Hcut.
  destruct (minus_24h_microseconds now cutoff Hnow Hcut) as [Hvc Hus].
  rewrite (dt_ltb_rank ts cutoff (valid_bounded _ Hts) (valid_bounded _ Hvc)).
  rewrite (microseconds_order ts cutoff Hts Hvc). lia.
Qed.

(** C7.  A cleanup at a valid time [now] later than the first day of year
    1, on a store of valid dispatch times: [cleanup_old_alerts] returns,
    every entry whose time lies more than twenty-four hours before [now]
    is absent afterwards, every entry at most twenty-four hours old is
    there with the same time, no entry is added; the dispatch log and the
    thresholds are as before. *)
Theorem cleanup_evicts_old :
  forall clock s,
    let now := clock (ticks s) in
    valid now ->
    (1 < year now \/ 1 < month now \/ 1 < day now) ->
    (forall k ts, sent_alerts s !! k = Some ts -> valid ts) ->
    exists s',
      cleanup_old_alerts clock s = (Ret tt, s')
      /\ (forall k ts, sent_alerts s !! k = Some ts ->
            (day_us < microseconds now - microseconds ts)%Z ->
            sent_alerts s' !! k = None)
      /\ (forall k ts, sent_alerts s !! k = Some ts ->
            (microseconds now - microseconds ts <= day_us)%Z ->
            sent_alerts s' !! k = Some ts)
      /\ (forall k, sent_alerts s !! k = None -> sent_alerts s' !! k = None)
      /\ dispatched s' = dispatched s
      /\ thresholds s' = thresholds s.
Proof.
  intros clock s now Hnow Hlater Hstore.
  assert (Hcut : exists cutoff, minus_24h now = Some cutoff).
  { unfold minus_24h. destruct (N.ltb_spec 1 (day now)); [eauto|].
    destruct (N.ltb_spec 1 (month now)); [eauto|].
    destruct (N.ltb_spec 1 (year now)); [eauto|]. lia. }
  destruct Hcut as [cutoff Hcut]. rewrite cleanup_run. fold now. rewrite Hcut.
  eexists. split; [reflexivity|]. cbn [sent_alerts dispatched thresholds].
  pose proof (cleanup_evicted cutoff (sent_alerts s)) as Hev.
  repeat apply conj; try reflexivity.
  - intros k ts Hk Hold. rewrite (Hev k), Hk.
    apply (older_than_cutoff now cutoff ts Hnow (Hstore k ts Hk) Hcut) in Hold.
    now rewrite Hold.
  - intros k ts Hk Hyoung. rewrite (Hev k), Hk.
    destruct (dt_ltb ts cutoff) eqn:E; [|reflexivity].
    apply (older_than_cutoff now cutoff ts Hnow (Hstore k ts Hk) Hcut) in E. lia.
  - intros k Hk. now rewrite (Hev k), Hk.
Qed.

Lemma cleanup_evicts_old_witness :
  exists s',
    cleanup_old_alerts cleanup_time two_entries = (Ret tt, s')
    /\ sent_alerts s' !! lit "high_volume_2024051609" = None
    /\ sent_alerts s' !! lit "unique_ips_2024051610" = Some young_stamp.
Proof.
  destruct (cleanup_evicts_old cleanup_time two_entries) as (s' & E & Hold & Hyoung & _).
  - valid_by_evaluation.
  - left. by_evaluation.
  - intros k ts. unfold two_entries. cbn [sent_alerts].
    rewrite lookup_insert. destruct (decide _) as [_|_].
    + intros [= <-]. valid_by_evaluation.
    + rewrite lookup_insert. destruct (decide _) as [_|_]; [|now rewrite lookup_empty].
      intros [= <-]. valid_by_evaluation.
  - exists s'. split; [exact E|]. split.
    + apply (Hold _ old_stamp); [reflexivity|]. vm_compute. reflexivity.
    + apply (Hyoung _ young_stamp); [reflexivity|]. vm_compute. discriminate.
Defined.

End AlertsFacts.

(** ** Authentication on the other decoys *)

Module AuthFacts.
Import Py Eff.

(** FTP: every pair is logged once, as given, and refused. *)
Lemma ftp_authentication_refused username password remote_ip h :
  exists ev,
    Ftp.validate_authentication username password remote_ip h
      = (Exc AuthenticationFailed,
         Ftp.mkHoneypot
           (Ftp.mkStats (Ftp.total_connections (Ftp.stats h))
              (Ftp.login_attempts (Ftp.stats h) + 1)%Z (Ftp.unique_ips (Ftp.stats h))
              (bump username (Ftp.common_usernames (Ftp.stats h)))
              (bump password (Ftp.common_passwords (Ftp.stats h)))
              (Ftp.file_operations (Ftp.stats h)))
           (Ftp.logged h ++ [ev]))
    /\ dict_get ev "event_type" = Some (VStr (lit "login_attempt"))
    /\ dict_get ev "username" = Some (VStr username)
    /\ dict_get ev "password" = Some (VStr password)
    /\ dict_get ev "success" = Some (VBool false).
Proof. eexists. split; [reflexivity|]. repeat split. Qed.

(** SSH: every pair is logged once, as given, and refused. *)
Lemma ssh_authentication_refused client_ip username password h :
  exists ev,
    Ssh.check_auth_password client_ip username password h
      = (Ret Ssh.AUTH_FAILED,
         Ssh.mkHoneypot
           (Ssh.mkStats (Ssh.total_connections (Ssh.stats h))
              (Ssh.auth_attempts (Ssh.stats h) + 1)%Z
              ({[client_ip]} ∪ Ssh.unique_ips (Ssh.stats h))
              (bump username (Ssh.common_usernames (Ssh.stats h)))
              (bump password (Ssh.common_passwords (Ssh.stats h))))
           (Ssh.logged h ++ [ev]))
    /\ dict_get ev "event_type" = Some (VStr (lit "auth_attempt"))
    /\ dict_get ev "username" = Some (VStr username)
    /\ dict_get ev "password" = Some (VStr password)
    /\ dict_get ev "success" = Some (VBool false).
Proof. eexists. split; [reflexivity|]. repeat split. Qed.

(** HTTP: a POST to the login form is logged once, with the form fields
    as given (empty when missing), and answered with the failure page. *)
Lemma http_login_refused req h :
  Http.method req = lit "POST" ->
  exists ev,
    Http.fake_login req h
      = (Http.LoginFailedPage, Http.mkHoneypot (Http.stats h) (Http.logged h ++ [ev]))
    /\ dict_get ev "event_type" = Some (VStr (lit "login_attempt"))
    /\ dict_get ev "username"
       = Some (VStr (Http.form_get (Http.form req) (lit "username")))
    /\ dict_get ev "password"
       = Some (VStr (Http.form_get (Http.form req) (lit "password")))
    /\ dict_get ev "success" = Some (VBool false).
Proof.
  intros Hm. unfold Http.fake_login. rewrite Hm.
  eexists. split; [reflexivity|]. repeat split.
Qed.

(** Telnet with non-empty credentials, for comparison: one
    [login_attempt] event is logged. *)
Lemma telnet_login_logged :
  Telnet.events "login_attempt"
    (Telnet.trace (Telnet.handle_client ascii_lower (lit "10.0.0.1", 40000%Z)
                     Telnet.admin_admin_world).2)
  = [Telnet.Log
       (dict_update (Telnet.login_event (lit "10.0.0.1") (lit "admin") (lit "admin"))
          [("timestamp"%string, VUtcNow);
           ("service"%string, VStr (lit "telnet"));
           ("honeypot_type"%string, VStr (lit "telnet_honeypot"));
           ("version"%string, VStr (lit "1.0.0"))])].
Proof. vm_compute. reflexivity. Qed.

End AuthFacts.

(** ** Strings, UTF-8 and counters *)

Module PyFacts.
Import Py PyText.

Ltac bools :=
  repeat match goal with
  | H : (_ && _) = true |- _ => apply andb_true_iff in H as [? ?]
  | H : (_ && _) = false |- _ => apply andb_false_iff in H as [?|?]
  | H : (_ || _) = false |- _ => apply orb_false_iff in H as [? ?]
  | H : (_ || _) = true |- _ => apply orb_true_iff in H as [?|?]
  | H : negb _ = true |- _ => apply negb_true_iff in H
  | H : negb _ = false |- _ => apply negb_false_iff in H
  | H : (_ <? _) = true |- _ => apply N.ltb_lt in H
  | H : (_ <? _) = false |- _ => apply N.ltb_ge in H
  | H : (_ <=? _) = true |- _ => apply N.leb_le in H
  | H : (_ <=? _) = false |- _ => apply N.leb_gt in H
  | H : (_ =? _) = true |- _ => apply N.eqb_eq in H
  | H : (_ =? _) = false |- _ => apply N.eqb_neq in H
  end.

Lemma startswith_spec p : forall s,
  startswith s p = true <-> exists post, s = p ++ post.
Proof.
  induction p as [|a p IH]; intros s; cbn.
  - split; [intros _; now exists s | intros _; now destruct s].
  - destruct s as [|b s]; cbn.
    + split; [discriminate | intros [post H]; discriminate].
    + rewrite andb_true_iff, N.eqb_eq, IH. split.
      * intros [-> [post ->]]. eauto.
      * intros [post [= -> ->]]. eauto.
Qed.

Lemma contains_spec p : forall s,
  contains s p = true <-> exists pre post, s = pre ++ p ++ post.
Proof.
  induction s as [|c s IH]; cbn [contains]; rewrite orb_true_iff, startswith_spec.
  - split.
    + intros [[post H] | H]; [|discriminate]. exists [], post. exact H.
    + intros (pre & post & H). left. destruct pre; [eauto|discriminate].
  - rewrite IH. split.
    + intros [[post H] | (pre & post & H)].
      * exists [], post. exact H.
      * exists (c :: pre), post. cbn. now rewrite H.
    + intros (pre & post & H). destruct pre as [|c' pre]; cbn in H.
      * left. eauto.
      * right. injection H as -> ->. eauto.
Qed.

Lemma contains_trans s p q :
  contains s p = true -> contains p q = true -> contains s q = true.
Proof.
  rewrite !contains_spec. intros (a & b & ->) (c & d & ->).
  exists (a ++ c), (d ++ b). now rewrite <- !app_assoc.
Qed.

Lemma contains_app s pre post p :
  contains s p = true -> contains (pre ++ s ++ post) p = true.
Proof.
  rewrite !contains_spec. intros (a & b & ->).
  exists (pre ++ a), (b ++ post). now rewrite <- !app_assoc.
Qed.

(** ** UTF-8 *)

Ltac bools_if :=
  repeat first
    [ progress bools
    | match goal with
      | H : (if ?c then _ else _) = _ |- _ => destruct c eqn:?
      end ].

Ltac divlia := zify; Z.to_euclidean_division_equations; lia.

Lemma to_N_lt b : Byte.to_N b < 256.
Proof. pose proof (Byte.to_N_bounded b). lia. Qed.

Lemma byte_of_to_N n : n < 256 -> Byte.to_N (byte_of n) = n.
Proof.
  intros H. unfold byte_of. destruct (Byte.of_N n) eqn:E.
  - now apply Byte.to_of_N.
  - apply Byte.of_N_None_iff in E. lia.
Qed.

Ltac forget_bytes :=
  repeat match goal with
  | |- context [Byte.to_N ?b] =>
      pose proof (to_N_lt b); generalize dependent (Byte.to_N b); intros
  | H : context [Byte.to_N ?b] |- _ =>
      pose proof (to_N_lt b); generalize dependent (Byte.to_N b); intros
  end.

Lemma decode_scalar_len n : forall b,
  (length b <= n)%nat -> Forall scalar (decode_utf8_ignore b).
Proof.
  induction n as [|n IH]; intros b Hl.
  - destruct b; [constructor | cbn in Hl; lia].
  - destruct b as [|b1 r1]; [constructor|]. cbn [decode_utf8_ignore]. cbv zeta.
    repeat match goal with
      | |- context [if ?c then _ else _] => destruct c eqn:?
      | |- Forall _ (match ?r with [] => _ | _ :: _ => _ end) => destruct r as [|? ?]
      | |- Forall _ [] => constructor
      | |- Forall _ (decode_utf8_ignore _) => apply IH; cbn [length] in *; lia
      | |- Forall _ (_ :: _) => constructor
      end;
    clear IH Hl; unfold scalar, is_cont in *; bools_if; forget_bytes; lia.
Qed.

Lemma decode_scalar b : Forall scalar (decode_utf8_ignore b).
Proof. now apply (decode_scalar_len (length b)). Qed.

Lemma encode_cp_scalar c : is_Some (encode_cp c) <-> scalar c.
Proof.
  unfold encode_cp, scalar.
  repeat match goal with |- context [if ?c then _ else _] => destruct c eqn:? end;
    bools; (split; [intros [? ?]; try discriminate; lia | intros ?; try (eexists; reflexivity); lia]).
Qed.

Lemma encode_scalar s : is_Some (encode_utf8 s) <-> Forall scalar s.
Proof.
  induction s as [|c s IH]; cbn [encode_utf8].
  - split; [constructor | eauto].
  - rewrite Forall_cons, <- IH, <- encode_cp_scalar.
    destruct (encode_cp c), (encode_utf8 s); split;
      try (intros [? ?]; discriminate); try (intros [[? ?] [? ?]]; discriminate); eauto.
Qed.

Ltac head_if :=
  match goal with
  | |- (if ?c then _ else _) = _ => destruct c eqn:?; bools_if; try lia
  end.

(** One character of one, two, three and four bytes. *)
Lemma decode_1 b1 r c1 :
  Byte.to_N b1 = c1 -> c1 < 128 ->
  decode_utf8_ignore (b1 :: r) = c1 :: decode_utf8_ignore r.
Proof.
  intros E1 H1. cbn [decode_utf8_ignore]. cbv zeta. rewrite E1. now head_if.
Qed.

Lemma decode_2 b1 b2 r c1 c2 :
  Byte.to_N b1 = c1 -> Byte.to_N b2 = c2 -> 194 <= c1 < 224 -> 128 <= c2 < 192 ->
  decode_utf8_ignore (b1 :: b2 :: r) = ((c1 - 192) * 64 + (c2 - 128)) :: decode_utf8_ignore r.
Proof.
  intros E1 E2 H1 H2. remember (b2 :: r) as r1 eqn:Er.
  cbn [decode_utf8_ignore]. cbv zeta. rewrite E1. do 3 head_if.
  subst r1. rewrite E2. unfold is_cont. now head_if.
Qed.

Lemma decode_3 b1 b2 b3 r c1 c2 c3 :
  Byte.to_N b1 = c1 -> Byte.to_N b2 = c2 -> Byte.to_N b3 = c3 ->
  224 <= c1 < 240 -> 128 <= c2 < 192 -> 128 <= c3 < 192 ->
  (c1 = 224 -> 160 <= c2) -> (c1 = 237 -> c2 < 160) ->
  decode_utf8_ignore (b1 :: b2 :: b3 :: r)
  = ((c1 - 224) * 4096 + (c2 - 128) * 64 + (c3 - 128)) :: decode_utf8_ignore r.
Proof.
  intros E1 E2 E3 H1 H2 H3 Hlow Hsur. remember (b2 :: b3 :: r) as r1 eqn:Er.
  cbn [decode_utf8_ignore]. cbv zeta. rewrite E1. do 4 head_if.
  subst r1. rewrite E2. unfold is_cont. head_if; rewrite E3; now head_if.
Qed.

Lemma decode_4 b1 b2 b3 b4 r c1 c2 c3 c4 :
  Byte.to_N b1 = c1 -> Byte.to_N b2 = c2 -> Byte.to_N b3 = c3 -> Byte.to_N b4 = c4 ->
  240 <= c1 < 245 -> 128 <= c2 < 192 -> 128 <= c3 < 192 -> 128 <= c4 < 192 ->
  (c1 = 240 -> 144 <= c2) -> (c1 = 244 -> c2 < 144) ->
  decode_utf8_ignore (b1 :: b2 :: b3 :: b4 :: r)
  = ((c1 - 240) * 262144 + (c2 - 128) * 4096 + (c3 - 128) * 64 + (c4 - 128))
    :: decode_utf8_ignore r.
Proof.
  intros E1 E2 E3 E4 H1 H2 H3 H4 Hlow Hhigh. remember (b2 :: b3 :: b4 :: r) as r1 eqn:Er.
  cbn [decode_utf8_ignore]. cbv zeta. rewrite E1. do 5 head_if.
  subst r1. rewrite E2. unfold is_cont. head_if; rewrite E3; head_if;
    rewrite E4; now head_if.
Qed.

Lemma decode_encode_cp c bc rest :
  encode_cp c = Some bc -> decode_utf8_ignore (bc ++ rest) = c :: decode_utf8_ignore rest.
Proof.
  unfold encode_cp. intros H.
  repeat match type of H with (if ?c then _ else _) = _ => destruct c eqn:? end;
    try discriminate; injection H as <-; bools; cbn [app].
  - now apply decode_1; [apply byte_of_to_N; lia|].
  - rewrite (decode_2 _ _ _ (192 + c / 64) (128 + c mod 64));
      try (apply byte_of_to_N); try divlia; f_equal; divlia.
  - rewrite (decode_3 _ _ _ _ (224 + c / 4096) (128 + (c / 64) mod 64) (128 + c mod 64));
      try (apply byte_of_to_N); try divlia; f_equal; divlia.
  - rewrite (decode_3 _ _ _ _ (224 + c / 4096) (128 + (c / 64) mod 64) (128 + c mod 64));
      try (apply byte_of_to_N); try divlia; f_equal; divlia.
  - rewrite (decode_4 _ _ _ _ _ (240 + c / 262144) (128 + (c / 4096) mod 64)
               (128 + (c / 64) mod 64) (128 + c mod 64));
      try (apply byte_of_to_N); try divlia; f_equal; divlia.
  - rewrite (decode_4 _ _ _ _ _ (240 + c / 262144) (128 + (c / 4096) mod 64)
               (128 + (c / 64) mod 64) (128 + c mod 64));
      try (apply byte_of_to_N); try divlia; f_equal; divlia.
Qed.

Lemma decode_encode s : forall b, encode_utf8 s = Some b -> decode_utf8_ignore b = s.
Proof.
  induction s as [|c s IH]; cbn [encode_utf8]; intros b H.
  - now injection H as <-.
  - destruct (encode_cp c) as [bc|] eqn:Ec; [|discriminate].
    destruct (encode_utf8 s) as [bs|] eqn:Es; [|discriminate].
    injection H as <-. rewrite (decode_encode_cp _ _ _ Ec). f_equal. now apply IH.
Qed.

(** ** [strip] *)

Lemma lstrip_split s :
  exists pre, s = pre ++ lstrip s /\ blank pre
    /\ match lstrip s with c :: _ => isspace c = false | [] => True end.
Proof.
  induction s as [|c s (pre & E & Hpre & Hhd)]; cbn [lstrip].
  - exists []. repeat split. constructor.
  - destruct (isspace c) eqn:Ec.
    + exists (c :: pre). cbn. rewrite <- E. repeat split; [now constructor | exact Hhd].
    + exists []. repeat split; [constructor | exact Ec].
Qed.

Lemma strip_split s :
  exists pre post, s = pre ++ strip s ++ post /\ blank pre /\ blank post /\ trimmed (strip s).
Proof.
  unfold strip, rstrip.
  destruct (lstrip_split s) as (pre & E & Hpre & Hhd).
  destruct (lstrip_split (rev (lstrip s))) as (tl & E' & Htl & Hlast).
  set (l := lstrip s) in *. set (m := lstrip (rev l)) in *.
  assert (El : l = rev m ++ rev tl).
  { rewrite <- (rev_involutive l), E', rev_app_distr. reflexivity. }
  exists pre, (rev tl). split; [now rewrite <- El|]. split; [exact Hpre|].
  split; [unfold blank in *; now apply Forall_rev|].
  unfold trimmed. destruct (rev m) as [|c t] eqn:Em; [exact I|].
  assert (Hm : m = rev (c :: t)) by (rewrite <- Em; now rewrite rev_involutive).
  split.
  - rewrite El in Hhd. exact Hhd.
  - destruct m as [|d m']; [destruct t; discriminate|].
    assert (Hl : List.last (c :: t) 0 = d).
    { rewrite <- Em. cbn [rev]. apply last_last. }
    now rewrite Hl.
Qed.

Lemma lstrip_head_id s :
  match s with c :: _ => isspace c = false | [] => True end -> lstrip s = s.
Proof. destruct s as [|c s]; [reflexivity|]. cbn. now intros ->. Qed.

Lemma strip_trimmed s : trimmed s -> strip s = s.
Proof.
  unfold trimmed, strip, rstrip. destruct s as [|c t] eqn:Es; [reflexivity|].
  intros [Hc Hl]. rewrite <- Es in *.
  rewrite (lstrip_head_id s) by (now rewrite Es).
  rewrite lstrip_head_id; [apply rev_involutive|].
  destruct (rev s) as [|d m] eqn:Er; [exact I|].
  assert (E : s = rev m ++ [d]) by (rewrite <- (rev_involutive s), Er; reflexivity).
  rewrite E, last_last in Hl. exact Hl.
Qed.

Lemma strip_idem s : strip (strip s) = strip s.
Proof. destruct (strip_split s) as (_ & _ & _ & _ & _ & H). now apply strip_trimmed. Qed.

Lemma strip_Forall (P : N -> Prop) s : Forall P s -> Forall P (strip s).
Proof.
  intros H. destruct (strip_split s) as (pre & post & E & _).
  rewrite E in H. apply Forall_app in H as [_ H]. now apply Forall_app in H as [H _].
Qed.

Lemma lit_scalar s : Forall scalar (lit s).
Proof.
  unfold lit. induction s as [|a s IH]; cbn; constructor; [|exact IH].
  left. pose proof (N_ascii_bounded a). lia.
Qed.

End PyFacts.

Module CountersFacts.
Import Py Counters.

Lemma total_insert_new (m : gmap str Z) (k : str) (v : Z) :
  m !! k = None -> total (<[k := v]> m) = (v + total m)%Z.
Proof.
  intros H. unfold total.
  rewrite (map_fold_insert_L (fun _ v acc => (v + acc)%Z)); [reflexivity | | exact H].
  intros; lia.
Qed.

Lemma total_bump (k : str) (m : gmap str Z) : total (bump k m) = (total m + 1)%Z.
Proof.
  unfold bump. destruct (m !! k) as [v|] eqn:E; cbn [default].
  - rewrite <- (insert_delete_eq m k (v + 1)%Z).
    rewrite total_insert_new by apply lookup_delete_eq.
    rewrite <- (insert_delete_id m k v E) at 2.
    rewrite total_insert_new by apply lookup_delete_eq. lia.
  - rewrite total_insert_new by exact E. lia.
Qed.

Lemma tally_cons {A} (p : A -> bool) a l :
  tally p (a :: l) = ((if p a then 1 else 0) + tally p l)%Z.
Proof. unfold tally. cbn [List.filter]. destruct (p a); cbn [length]; lia. Qed.

End CountersFacts.

(** ** Frame rules *)

Module FrameFacts.
Import Eff EffFacts Frame.

Section Rules.
Context {W T : Type} (f : W -> T).

Lemma keeps_ret {A} (a : A) : keeps f (mret a : M W A).
Proof. intros w. reflexivity. Qed.

Lemma keeps_raise {A} e : keeps f (raise e : M W A).
Proof. intros w. reflexivity. Qed.

Lemma keeps_get_world : keeps f (get_world : M W W).
Proof. intros w. reflexivity. Qed.

Lemma keeps_modify g : (forall w, f (g w) = f w) -> keeps f (modify g).
Proof. intros H w. apply H. Qed.

Lemma keeps_bind {A B} (m : M W A) (k : A -> M W B) :
  keeps f m -> (forall a, keeps f (k a)) -> keeps f (m ≫= k).
Proof.
  intros Hm Hk w. rewrite bind_eq. specialize (Hm w).
  destruct (m w) as [[a|e|] w1]; cbn [snd] in *; [|exact Hm..].
  now rewrite Hk.
Qed.

Lemma keeps_try_except {A} (m : M W A) h :
  keeps f m -> (forall e, keeps f (h e)) -> keeps f (try_except m h).
Proof.
  intros Hm Hh w. unfold try_except. specialize (Hm w).
  destruct (m w) as [[a|e|] w1]; cbn [snd] in *; [exact Hm| |exact Hm].
  now rewrite Hh.
Qed.

End Rules.

End FrameFacts.

(** ** The Telnet connection *)

Module TelnetSessionFacts.
Import Py PyText PyFacts Eff EffFacts Frame FrameFacts Counters CountersFacts.
Import Telnet TelnetFacts TelnetSession.

(** *** Counters *)

Lemma count_snoc t tr a :
  count t (tr ++ [a]) = (count t tr + if is_event t a then 1 else 0)%Z.
Proof.
  unfold count, events. rewrite List.filter_app, length_app. cbn [List.filter].
  destruct (is_event t a); cbn [length]; lia.
Qed.

(** *** What a part of the handler leaves unchanged *)

Section Measure.
Context {T : Type} (f : world -> T).
Hypothesis f_send : forall d w, f (push (Send d) w) = f w.
Hypothesis f_faults : forall fs w, f (set_send_faults fs w) = f w.
Hypothesis f_inbox : forall i w, f (set_inbox i w) = f w.

Lemma keeps_send d : keeps f (send d).
Proof.
  intros w. unfold send.
  destruct (send_faults w) as [|[] fs]; cbn [snd]; rewrite ?f_send, ?f_faults; reflexivity.
Qed.

Lemma keeps_send_str s : keeps f (send_str s).
Proof. unfold send_str. destruct (encode_utf8 s); [apply keeps_send | apply keeps_raise]. Qed.

Lemma keeps_get_input_loop hide pending : forall data,
  keeps f (get_input_loop hide pending data).
Proof.
  induction pending as [|ev rest IH]; intros data; cbn [get_input_loop].
  - apply keeps_raise.
  - apply keeps_bind; [apply keeps_modify, f_inbox|]. intros _.
    destruct ev as [chunk| | |]; try apply keeps_raise; try apply keeps_ret.
    destruct (Byte.eqb chunk CR || Byte.eqb chunk LF); [apply keeps_ret|].
    destruct (Byte.eqb chunk BS || Byte.eqb chunk DEL).
    + destruct data; [apply IH|]. apply keeps_bind; [|intros; apply IH].
      destruct (negb hide); [apply keeps_send | apply keeps_ret].
    + apply keeps_bind; [|intros; apply IH].
      destruct (negb hide); apply keeps_send.
Qed.

Lemma keeps_get_input prompt hide : keeps f (get_input prompt hide).
Proof.
  unfold get_input. apply keeps_try_except; [|intros; apply keeps_ret].
  apply keeps_bind; [apply keeps_get_world|]. intros w0.
  apply keeps_bind; [apply keeps_get_input_loop|]. intros; apply keeps_ret.
Qed.

(** A counter update followed by the logging of its event, seen as one
    step. *)
Lemma keeps_counted {A} g ev (k : M A) :
  (forall w, f (push (Log (stamped ev)) (set_stats g w)) = f w) ->
  keeps f k -> keeps f (modify (set_stats g) ;; log_event ev ;; k).
Proof.
  intros H Hk w.
  change ((modify (set_stats g) ;; log_event ev ;; k) w)
    with (k (push (Log (stamped ev)) (set_stats g w))).
  rewrite Hk. apply H.
Qed.

Hypothesis f_command : forall client_ip username command w,
  f (push (Log (stamped (command_event client_ip username command)))
       (set_stats (fun s =>
          mkStats (total_connections s) (login_attempts s) (unique_ips s)
                  (common_usernames s) (common_passwords s)
                  (bump command (commands_executed s))) w)) = f w.

Variable lower : str -> str.

Lemma keeps_shell_body client_ip username prompt :
  keeps f (shell_body lower client_ip username prompt).
Proof.
  unfold shell_body. apply keeps_bind; [apply keeps_get_input|].
  intros [[|c command]|]; try apply keeps_ret.
  apply keeps_counted; [intros w; apply f_command|].
  apply keeps_bind; [apply keeps_send_str|]. intros _.
  apply keeps_bind; [apply keeps_send_str|]. intros _.
  destruct (10 <? _)%nat; apply keeps_ret.
Qed.

Lemma keeps_shell_loop client_ip username prompt fuel :
  keeps f (shell_loop lower fuel client_ip username prompt).
Proof.
  induction fuel as [|n IH]; cbn [shell_loop]; [intros w; reflexivity|].
  apply keeps_bind; [apply keeps_shell_body|]. intros [|]; [exact IH | apply keeps_ret].
Qed.

Lemma keeps_simulate_shell client_ip username :
  keeps f (simulate_shell lower client_ip username).
Proof.
  unfold simulate_shell. apply keeps_try_except; [|intros; apply keeps_ret].
  apply keeps_bind; [apply keeps_send_str|]. intros _.
  apply keeps_bind; [apply keeps_get_world|]. intros w0. apply keeps_shell_loop.
Qed.

Hypothesis f_login : forall client_ip username password w,
  f (push (Log (stamped (login_event client_ip username password)))
       (set_stats (fun s =>
          mkStats (total_connections s) (login_attempts s + 1)%Z (unique_ips s)
                  (bump username (common_usernames s))
                  (bump password (common_passwords s))
                  (commands_executed s)) w)) = f w.
Hypothesis f_sleep : forall secs w, f (push (Sleep secs) w) = f w.

Lemma keeps_handle_login_attempt client_ip username password :
  keeps f (handle_login_attempt client_ip username password).
Proof. intros w. exact (f_login client_ip username password w). Qed.

Lemma keeps_dialogue client_ip : keeps f (dialogue lower client_ip).
Proof.
  unfold dialogue. apply keeps_try_except; [|intros; apply keeps_ret].
  apply keeps_bind; [apply keeps_send|]. intros _.
  apply keeps_bind; [apply keeps_get_input|].
  intros [[|c username]|]; try apply keeps_ret.
  apply keeps_bind; [apply keeps_send|]. intros _.
  apply keeps_bind; [apply keeps_get_input|].
  intros [[|c' password]|]; try apply keeps_ret.
  apply keeps_bind; [apply keeps_handle_login_attempt|]. intros _.
  apply keeps_bind; [apply keeps_send|]. intros _.
  apply keeps_bind; [apply keeps_modify, f_sleep|]. intros _.
  apply keeps_simulate_shell.
Qed.

End Measure.

(** [handle_client] is: greet, talk, part. *)
Lemma handle_client_run lower client_addr w :
  exists w3,
    dialogue lower (fst client_addr) (greeted client_addr w) = (Ret tt, w3)
    /\ handle_client lower client_addr w = (Ret tt, parted (fst client_addr) w3).
Proof.
  pose proof (dialogue_steady lower (fst client_addr) (greeted client_addr w)) as H.
  unfold wp in H. fold (dialogue lower (fst client_addr)) in H.
  destruct (dialogue lower (fst client_addr) (greeted client_addr w)) as [r w3] eqn:E.
  cbn [fst snd] in H. destruct H as [-> _]. exists w3. split; [reflexivity|].
  unfold handle_client. rewrite bind_eq. cbn [modify]. rewrite bind_eq. cbn [get_world].
  rewrite bind_eq. cbn [log_event modify].
  unfold try_finally. fold (dialogue lower (fst client_addr)).
  change (push _ (set_stats _ w)) with (greeted client_addr w). rewrite E.
  rewrite bind_eq. unfold try_except, close, parted.
  destruct (close_fault w3); reflexivity.
Qed.

(** *** Statistics and events *)

Lemma audit_send d w : audit (push (Send d) w) = audit w.
Proof. unfold audit. cbn [stats trace push]. rewrite !count_snoc. cbn. now rewrite !Z.add_0_r. Qed.

Lemma audit_sleep secs w : audit (push (Sleep secs) w) = audit w.
Proof. unfold audit. cbn [stats trace push]. rewrite !count_snoc. cbn. now rewrite !Z.add_0_r. Qed.

Lemma audit_faults fs w : audit (set_send_faults fs w) = audit w.
Proof. reflexivity. Qed.

Lemma audit_inbox i w : audit (set_inbox i w) = audit w.
Proof. reflexivity. Qed.

Lemma audit_command client_ip username command w :
  audit (push (Log (stamped (command_event client_ip username command)))
           (set_stats (fun s =>
              mkStats (total_connections s) (login_attempts s) (unique_ips s)
                      (common_usernames s) (common_passwords s)
                      (bump command (commands_executed s))) w)) = audit w.
Proof.
  unfold audit. cbn [stats trace push set_stats total_connections login_attempts unique_ips
    common_usernames common_passwords commands_executed].
  rewrite !count_snoc, total_bump.
  change (is_event "connection" _) with false. change (is_event "disconnect" _) with false.
  change (is_event "login_attempt" _) with false.
  change (is_event "command_execution" _) with true.
  f_equal; lia.
Qed.

Lemma audit_login client_ip username password w :
  audit (push (Log (stamped (login_event client_ip username password)))
           (set_stats (fun s =>
              mkStats (total_connections s) (login_attempts s + 1)%Z (unique_ips s)
                      (bump username (common_usernames s))
                      (bump password (common_passwords s))
                      (commands_executed s)) w)) = audit w.
Proof.
  unfold audit. cbn [stats trace push set_stats total_connections login_attempts unique_ips
    common_usernames common_passwords commands_executed].
  rewrite !count_snoc, !total_bump.
  assert (E : forall t, is_event t (Log (stamped (login_event client_ip username password)))
                        = str_eqb (lit "login_attempt") (lit t)).
  { intros t. unfold login_event. destruct (classify_login _ _). reflexivity. }
  rewrite !E.
  change (str_eqb (lit "login_attempt") (lit "connection")) with false.
  change (str_eqb (lit "login_attempt") (lit "disconnect")) with false.
  change (str_eqb (lit "login_attempt") (lit "login_attempt")) with true.
  change (str_eqb (lit "login_attempt") (lit "command_execution")) with false.
  f_equal; lia.
Qed.

Lemma audit_dialogue lower client_ip w :
  audit (dialogue lower client_ip w).2 = audit w.
Proof.
  apply (keeps_dialogue audit audit_send audit_faults audit_inbox audit_command lower
           audit_login audit_sleep).
Qed.

(** X1.  Counters and events of one connection.  Whatever the peer sends
    and whichever socket call fails, [handle_client] counts the connection
    once and records its address, logs one [connection] and one
    [disconnect] event, and moves the other counters in step with the
    events it logs: [login_attempts] and the sums of [common_usernames] and
    [common_passwords] grow by the number of [login_attempt] events logged,
    the sum of [commands_executed] by the number of [command_execution]
    events. *)
Theorem telnet_counters_follow_events :
  forall lower client_addr w,
    let w' := (handle_client lower client_addr w).2 in
    let s := stats w in
    let s' := stats w' in
    let logins := (count "login_attempt" (trace w') - count "login_attempt" (trace w))%Z in
    total_connections s' = (total_connections s + 1)%Z
    /\ unique_ips s' = {[client_addr.1]} ∪ unique_ips s
    /\ count "connection" (trace w') = (count "connection" (trace w) + 1)%Z
    /\ count "disconnect" (trace w') = (count "disconnect" (trace w) + 1)%Z
    /\ (login_attempts s' - login_attempts s)%Z = logins
    /\ (total (common_usernames s') - total (common_usernames s))%Z = logins
    /\ (total (common_passwords s') - total (common_passwords s))%Z = logins
    /\ (total (commands_executed s') - total (commands_executed s))%Z
       = (count "command_execution" (trace w') - count "command_execution" (trace w))%Z.
Proof.
  intros lower client_addr w.
  destruct (handle_client_run lower client_addr w) as (w3 & Ed & ->). cbn [snd].
  pose proof (audit_dialogue lower client_addr.1 (greeted client_addr w)) as Ha.
  rewrite Ed in Ha. cbn [snd] in Ha. unfold audit in Ha.
  cbn [greeted stats trace push set_stats total_connections login_attempts unique_ips
    common_usernames common_passwords commands_executed] in Ha.
  rewrite !count_snoc in Ha.
  change (is_event "connection" _) with true in Ha.
  change (is_event "disconnect" _) with false in Ha.
  change (is_event "login_attempt" _) with false in Ha.
  change (is_event "command_execution" _) with false in Ha.
  injection Ha as H1 H2 H3 H4 H5 H6 H7 H8.
  cbn [parted stats trace push]. rewrite !count_snoc.
  change (is_event "connection" Close) with false.
  change (is_event "disconnect" Close) with false.
  change (is_event "login_attempt" Close) with false.
  change (is_event "command_execution" Close) with false.
  change (is_event "connection" (Log _)) with false.
  change (is_event "disconnect" (Log _)) with true.
  change (is_event "login_attempt" (Log _)) with false.
  change (is_event "command_execution" (Log _)) with false.
  repeat apply conj; try assumption; lia.
Qed.

(** *** Reading a line *)

Lemma send_ok_run d w :
  sends_ok w ->
  exists w', send d w = (Ret tt, w') /\ sends_ok w'
             /\ trace w' = trace w ++ [Send d] /\ inbox w' = inbox w
             /\ stats w' = stats w.
Proof.
  unfold sends_ok, send. intros H. destruct (send_faults w) as [|[] fs] eqn:E.
  - eexists. split; [reflexivity|]. cbn. rewrite E. auto.
  - inversion H; discriminate.
  - eexists. split; [reflexivity|]. cbn. inversion H; auto.
Qed.

(** The keys before the line end are taken into the buffer and echoed;
    the loop goes on with what follows them. *)
Lemma get_input_loop_prefix hide keys : forall data tail w,
  Forall (fun k => is_eol k = false) keys -> sends_ok w ->
  exists w1,
    get_input_loop hide (map RData keys ++ tail) data w
      = get_input_loop hide tail (edit keys data) w1
    /\ sends_ok w1 /\ trace w1 = trace w ++ echo hide keys data
    /\ stats w1 = stats w
    /\ (keys = [] -> w1 = w) /\ (keys <> [] -> inbox w1 = tail).
Proof.
  induction keys as [|k keys IH]; intros data tail w Hk Hs.
  - exists w. cbn. rewrite app_nil_r. repeat split; auto. congruence.
  - inversion Hk as [|? ? Hk1 Hk2]; subst.
    cbn [map app get_input_loop edit echo]. unfold is_eol in Hk1. unfold is_erase.
    rewrite bind_eq. cbn [modify]. rewrite Hk1.
    set (w0 := set_inbox (map RData keys ++ tail) w).
    assert (Hs0 : sends_ok w0) by exact Hs.
    assert (Hi0 : inbox w0 = map RData keys ++ tail) by reflexivity.
    assert (Hnext : forall data' w0' pre,
      sends_ok w0' -> inbox w0' = map RData keys ++ tail -> trace w0' = trace w ++ pre ->
      stats w0' = stats w ->
      exists w1,
        get_input_loop hide (map RData keys ++ tail) data' w0'
          = get_input_loop hide tail (edit keys data') w1
        /\ sends_ok w1 /\ trace w1 = trace w ++ pre ++ echo hide keys data'
        /\ stats w1 = stats w
        /\ (k :: keys = [] -> w1 = w) /\ (k :: keys <> [] -> inbox w1 = tail)).
    { intros data' w0' pre Hs' Hi' Ht' Hst'.
      destruct (IH data' tail w0' Hk2 Hs') as (w1 & E & Hs1 & Ht1 & Hst1 & Hnil & Hcons).
      exists w1. split; [exact E|]. split; [exact Hs1|].
      split; [now rewrite Ht1, Ht', <- app_assoc|]. split; [congruence|].
      split; [discriminate|]. intros _.
      destruct keys as [|k' keys']; [|apply Hcons; discriminate].
      rewrite (Hnil eq_refl). exact Hi'. }
    destruct (Byte.eqb k BS || Byte.eqb k DEL).
    + destruct data as [|d0 data'].
      * apply (Hnext [] w0 []); auto; cbn; now rewrite app_nil_r.
      * rewrite bind_eq. destruct hide; cbn [negb].
        -- apply (Hnext _ w0 []); auto; cbn; now rewrite app_nil_r.
        -- destruct (send_ok_run [BS; x20; BS] _ Hs0)
             as (w0' & -> & Hs0' & Ht0 & Hi0' & Hst0).
           apply (Hnext _ w0' [Send [BS; x20; BS]]); auto; congruence.
    + rewrite bind_eq.
      assert ((if negb hide then send [k] else send (blit "*"))
              = send (if hide then blit "*" else [k])) as -> by (destruct hide; reflexivity).
      destruct (send_ok_run (if hide then blit "*" else [k]) _ Hs0)
        as (w0' & -> & Hs0' & Ht0 & Hi0' & Hst0).
      destruct (Hnext (data ++ [k]) w0' [Send (if hide then blit "*" else [k])])
        as (w1 & E & Hs1 & Ht1 & Hst1 & Hn & Hc); auto; try congruence.
      exists w1. split; [exact E|]. split; [exact Hs1|]. split; [|auto].
      rewrite Ht1. destruct hide; reflexivity.
Qed.

(** How [get_input] ends, by what follows the keys of the line. *)
Lemma get_input_run prompt hide keys tail w :
  Forall (fun k => is_eol k = false) keys -> sends_ok w ->
  inbox w = map RData keys ++ tail ->
  exists w',
    sends_ok w' /\ trace w' = trace w ++ echo hide keys []
    /\ stats w' = stats w
    /\ match tail with
       | [] => get_input prompt hide w = (Ret None, w') /\ inbox w' = []
       | RData t :: rest =>
           is_eol t = true ->
           get_input prompt hide w = (Ret (Some (line_of keys)), w') /\ inbox w' = rest
       | REof :: rest =>
           get_input prompt hide w = (Ret (Some (line_of keys)), w') /\ inbox w' = rest
       | _ :: rest => get_input prompt hide w = (Ret None, w') /\ inbox w' = rest
       end.
Proof.
  intros Hk Hs Hi.
  destruct (get_input_loop_prefix hide keys [] tail w Hk Hs)
    as (w1 & E & Hs1 & Ht1 & Hst1 & Hnil & Hcons).
  assert (Hi1 : inbox w1 = tail).
  { destruct keys; [rewrite (Hnil eq_refl); exact Hi | apply Hcons; discriminate]. }
  unfold get_input, try_except. rewrite bind_eq. cbn [get_world].
  rewrite bind_eq. rewrite Hi. rewrite E. clear E.
  destruct tail as [|[t| | |] rest]; cbn [get_input_loop].
  - exists w1. repeat split; auto.
  - unfold is_eol. rewrite bind_eq. cbn [modify].
    destruct (Byte.eqb t CR || Byte.eqb t LF) eqn:Et.
    + exists (set_inbox rest w1). repeat split; auto.
    + exists w1. split; [exact Hs1|]. split; [exact Ht1|]. split; [exact Hst1|].
      discriminate.
  - exists (set_inbox rest w1). repeat split; auto.
  - exists (set_inbox rest w1). repeat split; auto.
  - exists (set_inbox rest w1). repeat split; auto.
Qed.

(** X2.  How a line ends.  When the keys of a line are followed by the end
    of the stream, [get_input] returns the line typed so far, as it does
    at CR or LF; when they are followed by a timeout, a socket error or
    nothing more, it returns [None] and the keys typed are lost.  In each
    case the keys have been echoed, the terminating event is consumed and
    the statistics are untouched. *)
Theorem telnet_input_endings :
  forall prompt hide keys tail w,
    Forall (fun k => is_eol k = false) keys -> sends_ok w ->
    inbox w = map RData keys ++ tail ->
    (forall k rest, tail <> RData k :: rest) ->
    let out := get_input prompt hide w in
    out.1 = Ret (match tail with REof :: _ => Some (line_of keys) | _ => None end)
    /\ trace out.2 = trace w ++ echo hide keys []
    /\ inbox out.2 = List.tl tail
    /\ stats out.2 = stats w.
Proof.
  intros prompt hide keys tail w Hk Hs Hi Htail.
  destruct (get_input_run prompt hide keys tail w Hk Hs Hi) as (w' & _ & Ht & Hst & Hend).
  destruct tail as [|[k| | |] rest]; [|now destruct (Htail k rest)|..];
    destruct Hend as [E Hin]; cbv zeta; rewrite E; cbn [fst snd List.tl]; auto.
Qed.

Lemma telnet_input_endings_witness :
  (get_input [] false
     (mkWorld 23 idle_stats (map RData (blit "ls") ++ [REof; RData CR]) [] false [])).1
    = Ret (Some (lit "ls"))
  /\ (get_input [] false
        (mkWorld 23 idle_stats (map RData (blit "ls") ++ [RTimeout; RData CR]) [] false [])).1
     = Ret None.
Proof.
  split.
  - apply (telnet_input_endings [] false (blit "ls") [REof; RData CR]
             (mkWorld 23 idle_stats (map RData (blit "ls") ++ [REof; RData CR]) [] false []));
      [repeat constructor | constructor | reflexivity | discriminate].
  - apply (telnet_input_endings [] false (blit "ls") [RTimeout; RData CR]
             (mkWorld 23 idle_stats (map RData (blit "ls") ++ [RTimeout; RData CR]) [] false []));
      [repeat constructor | constructor | reflexivity | discriminate].
Defined.

(** [get_input] returns [None] or the stripped decoding of some bytes. *)
Lemma get_input_shape prompt hide w :
  (get_input prompt hide w).1 = Ret None
  \/ exists data, (get_input prompt hide w).1 = Ret (Some (strip (decode_utf8_ignore data))).
Proof.
  unfold get_input, try_except. rewrite bind_eq. cbn [get_world]. rewrite bind_eq.
  pose proof (get_input_loop_steady hide (inbox w) [] w eq_refl) as H. unfold wp in H.
  destruct (get_input_loop hide (inbox w) [] w) as [[data|e|] w1]; cbn [fst snd] in *.
  - right. now exists data.
  - now left.
  - destruct H as [[_ H] _]. congruence.
Qed.

Lemma get_input_clean prompt hide w :
  exists o, (get_input prompt hide w).1 = Ret o
    /\ forall line, o = Some line ->
         trimmed line /\ strip line = line /\ Forall scalar line.
Proof.
  destruct (get_input_shape prompt hide w) as [-> | [data ->]]; eexists; (split; [reflexivity|]).
  - discriminate.
  - intros line [= <-].
    destruct (strip_split (decode_utf8_ignore data)) as (_ & _ & _ & _ & _ & Htr).
    split; [exact Htr|]. split; [apply strip_idem|]. apply strip_Forall, decode_scalar.
Qed.

(** X3.  What a line looks like.  [get_input] never raises; a line it
    returns has no white space at either end, is left as it is by another
    [strip], and consists of Unicode scalar values only, so that
    [str.encode()] accepts it. *)
Theorem telnet_input_line_clean :
  forall prompt hide w,
    exists o, (get_input prompt hide w).1 = Ret o
      /\ forall line, o = Some line ->
           trimmed line /\ strip line = line /\ Forall scalar line
           /\ is_Some (encode_utf8 line).
Proof.
  intros prompt hide w. destruct (get_input_clean prompt hide w) as (o & E & H).
  exists o. split; [exact E|]. intros line Hl. destruct (H line Hl) as (? & ? & ?).
  repeat split; auto. now apply encode_scalar.
Qed.

(** *** A line typed in UTF-8 *)

Lemma edit_plain keys : forall data,
  Forall (fun k => is_erase k = false) keys -> edit keys data = data ++ keys.
Proof.
  induction keys as [|k keys IH]; intros data H; cbn [edit].
  - now rewrite app_nil_r.
  - inversion H as [|? ? Hk Hr]; subst. rewrite Hk, IH by exact Hr.
    now rewrite <- app_assoc.
Qed.

Lemma byte_of_eqb x b :
  x < 256 -> x <> Byte.to_N b -> Byte.eqb (byte_of x) b = false.
Proof.
  intros Hx Hne. destruct (Byte.eqb (byte_of x) b) eqn:E; [|reflexivity].
  apply Byte.byte_dec_bl in E. subst b. now rewrite byte_of_to_N in Hne.
Qed.

(** A code point that is none of backspace, line feed, carriage return
    and DEL. *)
Lemma encode_cp_plain c bc :
  encode_cp c = Some bc -> plain_cp c ->
  Forall (fun k => is_eol k = false /\ is_erase k = false) bc.
Proof.
  unfold encode_cp, plain_cp, is_eol, is_erase, CR, LF, BS, DEL. intros H Hc.
  repeat match type of H with (if ?c then _ else _) = _ => destruct c eqn:? end;
    try discriminate; injection H as <-; bools;
    repeat constructor;
    rewrite !byte_of_eqb; try reflexivity; cbn [Byte.to_N]; try divlia.
Qed.

Lemma encode_plain s : forall keys,
  encode_utf8 s = Some keys -> Forall plain_cp s ->
  Forall (fun k => is_eol k = false /\ is_erase k = false) keys.
Proof.
  induction s as [|c s IH]; cbn [encode_utf8]; intros keys H Hs.
  - injection H as <-. constructor.
  - inversion Hs as [|? ? Hc Hr]; subst.
    destruct (encode_cp c) as [bc|] eqn:Ec; [|discriminate].
    destruct (encode_utf8 s) as [bs|] eqn:Es; [|discriminate].
    injection H as <-. apply Forall_app. split; [now apply (encode_cp_plain c)|].
    now apply IH.
Qed.

(** X4.  A line typed in UTF-8 comes back as typed.  When the peer sends
    the UTF-8 encoding of a string that contains no backspace, DEL, CR or
    LF, followed by CR or LF, and the echo goes through, [get_input]
    returns that string, stripped. *)
Theorem telnet_utf8_line_round_trip :
  forall prompt hide s keys term rest w,
    encode_utf8 s = Some keys -> Forall plain_cp s ->
    is_eol term = true -> sends_ok w ->
    inbox w = map RData keys ++ RData term :: rest ->
    (get_input prompt hide w).1 = Ret (Some (strip s)).
Proof.
  intros prompt hide s keys term rest w He Hp Ht Hs Hi.
  pose proof (encode_plain s keys He Hp) as Hk.
  assert (Hk1 : Forall (fun k => is_eol k = false) keys)
    by (eapply Forall_impl; [exact Hk|]; now intros k [? _]).
  assert (Hk2 : Forall (fun k => is_erase k = false) keys)
    by (eapply Forall_impl; [exact Hk|]; now intros k [_ ?]).
  destruct (get_input_run prompt hide keys _ w Hk1 Hs Hi) as (w' & _ & _ & _ & Hend).
  destruct (Hend Ht) as [-> _]. cbn [fst]. unfold line_of.
  rewrite (edit_plain keys [] Hk2). cbn [app]. now rewrite (decode_encode s keys He).
Qed.

Lemma telnet_utf8_line_round_trip_witness :
  (get_input [] false
     (mkWorld 23 idle_stats (map RData [x68; xc3; xa9; x20] ++ [RData CR]) [] false [])).1
  = Ret (Some [104; 233]).
Proof.
  apply (telnet_utf8_line_round_trip [] false [104; 233; 32] [x68; xc3; xa9; x20] CR []
           (mkWorld 23 idle_stats (map RData [x68; xc3; xa9; x20] ++ [RData CR]) [] false []));
    [reflexivity | repeat constructor; vm_compute; intuition discriminate
    | reflexivity | constructor | reflexivity].
Defined.

(** *** Text the shell sends *)

Lemma crlf_scalar : Forall scalar crlf.
Proof. repeat constructor; left; reflexivity. Qed.

Lemma response_scalar lower command :
  Forall scalar (strip (lower command)) ->
  Forall scalar (simulate_command_response lower command).
Proof.
  intros H. unfold simulate_command_response.
  repeat match goal with |- context [if ?b then _ else _] => destruct b end;
    repeat (apply Forall_app; split); auto using lit_scalar, crlf_scalar.
Qed.

Lemma send_str_outcome s w :
  is_Some (encode_utf8 s) ->
  (send_str s w).1 = Ret tt \/ (send_str s w).1 = Exc SocketError.
Proof.
  intros [b Hb]. unfold send_str, send. rewrite Hb.
  destruct (send_faults w) as [|[] fs]; auto.
Qed.

(** X5.  The shell never fails to encode.  Given that [str.lower] maps
    scalar values to scalar values, and a user name made of scalar values
    (as [get_input] returns it), the prompt can be encoded, a pass of the
    shell loop never raises [UnicodeEncodeError], and it raises nothing at
    all when no [send] fails: the only exceptions of the shell come from
    the socket. *)
Theorem telnet_shell_text_encodable :
  forall lower,
    (forall s, Forall scalar s -> Forall scalar (lower s)) ->
    forall client_ip username w,
      Forall scalar username ->
      let prompt := username ++ lit "@honeypot:~$ " in
      let out := shell_body lower client_ip username prompt w in
      is_Some (encode_utf8 prompt)
      /\ out.1 <> Exc UnicodeEncodeError
      /\ (sends_ok w -> exists c, out.1 = Ret c).
Proof.
  intros lower Hlower client_ip username w Hu prompt out.
  assert (Hp : is_Some (encode_utf8 prompt)).
  { apply encode_scalar, Forall_app. split; [exact Hu | apply lit_scalar]. }
  split; [exact Hp|].
  destruct (get_input_clean prompt false w) as (o & Eo & Hclean).
  assert (Hresp : forall command, o = Some command ->
            is_Some (encode_utf8 (simulate_command_response lower command))).
  { intros command Hc. destruct (Hclean command Hc) as (_ & _ & Hs).
    apply encode_scalar, response_scalar, strip_Forall, Hlower, Hs. }
  destruct (get_input prompt false w) as [r w1] eqn:Erd. cbn [fst] in Eo. subst r.
  subst out. destruct o as [[|c command]|].
  - unfold shell_body. rewrite bind_eq, Erd. split; [discriminate | eauto].
  - split.
    + rewrite (shell_body_line lower client_ip username prompt w c command w1 Erd).
      set (w2 := push _ _). rewrite bind_eq.
      destruct (send_str_outcome (simulate_command_response lower (c :: command)) w2
                  (Hresp _ eq_refl)) as [E|E];
        destruct (send_str _ w2) as [r3 w3]; cbn [fst] in E; subst r3; [|discriminate].
      rewrite bind_eq.
      destruct (send_str_outcome prompt w3 Hp) as [E|E];
        destruct (send_str prompt w3) as [r4 w4]; cbn [fst] in E; subst r4; [|discriminate].
      destruct (10 <? _)%nat; discriminate.
    + intros Hok.
      apply (shell_body_no_error lower client_ip username prompt w (c :: command));
        auto. now rewrite Erd.
  - unfold shell_body. rewrite bind_eq, Erd. split; [discriminate | eauto].
Qed.

Lemma ascii_lower_scalar s : Forall scalar s -> Forall scalar (ascii_lower s).
Proof.
  unfold ascii_lower. intros H. apply Forall_map. eapply Forall_impl; [exact H|].
  intros c Hc. unfold scalar, ascii_lower_cp in *.
  destruct ((65 <=? c) && (c <=? 90)) eqn:E; [|exact Hc]. bools. lia.
Qed.

Lemma telnet_shell_text_encodable_witness :
  exists c, (shell_body ascii_lower (lit "10.0.0.1") (lit "root")
               (lit "root" ++ lit "@honeypot:~$ ") exit_world).1 = Ret c.
Proof.
  destruct (telnet_shell_text_encodable ascii_lower ascii_lower_scalar
              (lit "10.0.0.1") (lit "root") exit_world (lit_scalar "root"))
    as (_ & _ & H).
  apply H. constructor.
Defined.

(** *** Login attempts of one connection *)

Lemma keeps_wp {T A} (f : world -> T) (m : M A) w (Q : res A -> world -> Prop) :
  keeps f m -> (forall r w', f w' = f w -> Q r w') -> wp m w Q.
Proof. intros Hk HQ. unfold wp. apply HQ, Hk. Qed.

Lemma logins_send d w : logins (push (Send d) w) = logins w.
Proof.
  unfold logins. cbn [trace push]. rewrite count_snoc.
  cbn [is_event]. lia.
Qed.

Lemma logins_command client_ip username command w :
  logins (push (Log (stamped (command_event client_ip username command)))
            (set_stats (fun s =>
               mkStats (total_connections s) (login_attempts s) (unique_ips s)
                       (common_usernames s) (common_passwords s)
                       (bump command (commands_executed s))) w)) = logins w.
Proof.
  unfold logins. cbn [trace push set_stats]. rewrite count_snoc.
  change (is_event "login_attempt" _) with false. cbv iota. lia.
Qed.

Lemma dialogue_logins lower client_ip w :
  wp (dialogue lower client_ip) w
    (fun _ w' => logins w' = logins w \/ logins w' = (logins w + 1)%Z).
Proof.
  assert (Ksend : forall d, keeps logins (send d))
    by (intros; apply keeps_send; auto using logins_send).
  assert (Kin : forall p h, keeps logins (get_input p h))
    by (intros; apply keeps_get_input; auto using logins_send).
  assert (Kshell : forall u, keeps logins (simulate_shell lower client_ip u)).
  { intros. apply keeps_simulate_shell; auto using logins_send, logins_command. }
  unfold dialogue. apply wp_try_except, wp_bind.
  apply (keeps_wp logins); [apply Ksend|]. intros [[]|e|] w1 E1; [|apply wp_ret; auto|auto].
  apply wp_bind. apply (keeps_wp logins); [apply Kin|].
  intros [[[|c username]|]|e|] w2 E2; try (apply wp_ret; left; congruence);
    [|left; congruence].
  apply wp_bind. apply (keeps_wp logins); [apply Ksend|].
  intros [[]|e|] w3 E3; [|apply wp_ret; left; congruence|left; congruence].
  apply wp_bind. apply (keeps_wp logins); [apply Kin|].
  intros [[[|c' password]|]|e|] w4 E4; try (apply wp_ret; left; congruence);
    [|left; congruence].
  apply wp_bind. unfold handle_login_attempt. apply wp_bind, wp_modify, wp_modify.
  set (w5 := push _ _).
  assert (E5 : logins w5 = (logins w + 1)%Z).
  { subst w5. unfold logins in *. cbn [trace push set_stats]. rewrite count_snoc.
    assert (is_event "login_attempt"
              (Log (dict_update (login_event client_ip (c :: username) (c' :: password))
                 [("timestamp"%string, VUtcNow);
                  ("service"%string, VStr (lit "telnet"));
                  ("honeypot_type"%string, VStr (lit "telnet_honeypot"));
                  ("version"%string, VStr (lit "1.0.0"))])) = true) as ->.
    { unfold login_event. destruct (classify_login _ _). reflexivity. }
    lia. }
  apply wp_bind. apply (keeps_wp logins); [apply Ksend|].
  intros [[]|e|] w6 E6; [|apply wp_ret; right; congruence|right; congruence].
  apply wp_bind, wp_modify.
  apply (keeps_wp logins); [apply Kshell|].
  intros r w8 E8. assert (logins w8 = (logins w + 1)%Z).
  { rewrite E8. unfold logins in *. cbn [trace push]. rewrite count_snoc.
    cbn [is_event]. lia. }
  destruct r; [auto|apply wp_ret; auto|auto].
Qed.

(** X6.  At most one login attempt per connection.  Whatever the peer
    sends and whichever socket call fails, a connection logs at most one
    [login_attempt] event. *)
Theorem telnet_one_login_per_connection :
  forall lower client_addr w,
    let w' := (handle_client lower client_addr w).2 in
    (0 <= count "login_attempt" (trace w') - count "login_attempt" (trace w) <= 1)%Z.
Proof.
  intros lower client_addr w.
  destruct (handle_client_run lower client_addr w) as (w3 & Ed & ->). cbn [snd].
  pose proof (dialogue_logins lower client_addr.1 (greeted client_addr w)) as H.
  unfold wp in H. rewrite Ed in H. cbn [snd] in H. unfold logins in H.
  cbn [greeted parted trace push set_stats] in *. rewrite !count_snoc in *.
  change (is_event "login_attempt" (Log _)) with false in H.
  change (is_event "login_attempt" Close) with false.
  change (is_event "login_attempt" (Log _)) with false.
  cbv beta iota zeta in H |- *. lia.
Qed.

(** *** The dialogue, line by line *)

Lemma others_send d w : others (push (Send d) w) = others w.
Proof. unfold others. cbn [trace push]. rewrite List.filter_app. cbn. apply app_nil_r. Qed.

Lemma others_command client_ip username command w :
  others (push (Log (stamped (command_event client_ip username command)))
            (set_stats (fun s =>
               mkStats (total_connections s) (login_attempts s) (unique_ips s)
                       (common_usernames s) (common_passwords s)
                       (bump command (commands_executed s))) w)) = others w.
Proof.
  unfold others. cbn [trace push set_stats]. rewrite List.filter_app.
  change (List.filter _ [_]) with (@nil action). apply app_nil_r.
Qed.

Lemma filter_nil_Forall {A} (p : A -> bool) l :
  List.filter p l = [] -> Forall (fun a => p a = false) l.
Proof.
  induction l as [|a l IH]; cbn; [constructor|].
  destruct (p a) eqn:E; [discriminate|]. intros H. constructor; auto.
Qed.

(** The shell simulation when no [send] fails: the prompt, then sends
    and [command_execution] events only. *)
Lemma simulate_shell_run lower client_ip username w :
  sends_ok w -> Forall scalar username ->
  exists pb w' shell,
    encode_utf8 (username ++ lit "@honeypot:~$ ") = Some pb
    /\ simulate_shell lower client_ip username w = (Ret tt, w')
    /\ trace w' = trace w ++ Send pb :: shell
    /\ Forall (fun a => is_shell_action a = true) shell.
Proof.
  intros Hs Hu.
  assert (Hp : is_Some (encode_utf8 (username ++ lit "@honeypot:~$ "))).
  { apply encode_scalar, Forall_app. split; [exact Hu | apply lit_scalar]. }
  destruct Hp as [pb Hpb]. exists pb.
  unfold simulate_shell, try_except. rewrite bind_eq. unfold send_str. rewrite Hpb.
  destruct (send_ok_run pb w Hs) as (w1 & -> & Hs1 & Ht1 & Hi1 & _).
  rewrite bind_eq. cbn [get_world].
  pose proof (shell_loop_steady lower client_ip username (username ++ lit "@honeypot:~$ ")
                (S (length (inbox w1))) w1 ltac:(lia)) as H.
  pose proof (keeps_shell_loop others others_send (fun _ _ => eq_refl) (fun _ _ => eq_refl)
                others_command lower client_ip username (username ++ lit "@honeypot:~$ ")
                (S (length (inbox w1))) w1) as Hk.
  unfold wp in H.
  destruct (shell_loop lower (S (length (inbox w1))) client_ip username
              (username ++ lit "@honeypot:~$ ") w1) as [r w2].
  cbn [fst snd] in *. destruct H as [[(ext & Hext & _) _] Hr].
  exists w2, ext. split; [reflexivity|].
  split; [destruct r as [[]|e|]; [reflexivity | reflexivity | congruence]|].
  split; [rewrite Hext, Ht1, <- app_assoc; reflexivity|].
  unfold others in Hk. rewrite Hext, List.filter_app in Hk.
  rewrite <- (app_nil_r (List.filter _ (trace w1))) in Hk at 2.
  apply app_inv_head in Hk. apply filter_nil_Forall in Hk.
  eapply Forall_impl; [exact Hk|]. intros a Ha. now apply negb_false_iff.
Qed.

Lemma dialogue_run lower client_ip ukeys t1 pkeys t2 rest w :
  Forall (fun k => is_eol k = false) ukeys -> is_eol t1 = true ->
  Forall (fun k => is_eol k = false) pkeys -> is_eol t2 = true ->
  sends_ok w ->
  inbox w = map RData ukeys ++ RData t1 :: map RData pkeys ++ RData t2 :: rest ->
  exists w' said,
    dialogue lower client_ip w = (Ret tt, w')
    /\ trace w' = trace w ++ Send banner :: echo false ukeys [] ++ said
    /\ match line_of ukeys, line_of pkeys with
       | [], _ => said = [] /\ inbox w' = map RData pkeys ++ RData t2 :: rest
       | _ :: _, [] =>
           said = Send (blit "Password: ") :: echo true pkeys [] /\ inbox w' = rest
       | _ :: _, _ :: _ =>
           exists pb shell,
             encode_utf8 (line_of ukeys ++ lit "@honeypot:~$ ") = Some pb
             /\ said = Send (blit "Password: ") :: echo true pkeys []
                       ++ [Log (stamped (login_event client_ip (line_of ukeys) (line_of pkeys)));
                           Send (bcrlf ++ blit "Login incorrect" ++ bcrlf);
                           Sleep 2; Send pb] ++ shell
             /\ Forall (fun a => is_shell_action a = true) shell
       end.
Proof.
  intros Hu Ht1 Hp Ht2 Hs Hi. unfold dialogue, try_except. rewrite bind_eq.
  destruct (send_ok_run banner w Hs) as (w1 & -> & Hs1 & Htr1 & Hi1 & _).
  rewrite bind_eq. rewrite Hi in Hi1.
  destruct (get_input_run (lit "login: ") false ukeys _ w1 Hu Hs1 Hi1)
    as (w2 & Hs2 & Htr2 & _ & Hend). destruct (Hend Ht1) as [-> Hi2]. clear Hend.
  assert (Hclean : Forall scalar (line_of ukeys)) by apply strip_Forall, decode_scalar.
  destruct (line_of ukeys) as [|c username] eqn:Eu.
  { exists w2, []. split; [reflexivity|]. rewrite app_nil_r.
    split; [now rewrite Htr2, Htr1, <- app_assoc|]. auto. }
  rewrite bind_eq.
  destruct (send_ok_run (blit "Password: ") w2 Hs2) as (w3 & -> & Hs3 & Htr3 & Hi3 & _).
  rewrite bind_eq. rewrite Hi2 in Hi3.
  destruct (get_input_run (lit "Password: ") true pkeys _ w3 Hp Hs3 Hi3)
    as (w4 & Hs4 & Htr4 & _ & Hend). destruct (Hend Ht2) as [-> Hi4]. clear Hend.
  assert (Htr : trace w4 = trace w ++ Send banner :: echo false ukeys []
                           ++ Send (blit "Password: ") :: echo true pkeys []).
  { rewrite Htr4, Htr3, Htr2, Htr1, <- !app_assoc. reflexivity. }
  destruct (line_of pkeys) as [|c' password] eqn:Ep.
  { exists w4, (Send (blit "Password: ") :: echo true pkeys []).
    split; [reflexivity|]. auto. }
  rewrite bind_eq. unfold handle_login_attempt. rewrite bind_eq. cbn [modify log_event].
  set (w5 := push _ (set_stats _ w4)).
  assert (Hs5 : sends_ok w5) by exact Hs4.
  rewrite bind_eq.
  destruct (send_ok_run (bcrlf ++ blit "Login incorrect" ++ bcrlf) w5 Hs5)
    as (w6 & -> & Hs6 & Htr6 & _ & _).
  rewrite bind_eq. cbn [sleep modify].
  assert (Hs7 : sends_ok (push (Sleep 2) w6)) by exact Hs6.
  destruct (simulate_shell_run lower client_ip (c :: username) _ Hs7 Hclean)
    as (pb & w8 & shell & Hpb & -> & Htr8 & Hshell).
  exists w8. eexists. split; [reflexivity|]. split.
  - rewrite Htr8. cbn [trace push]. rewrite Htr6. subst w5. cbn [trace push set_stats].
    rewrite Htr, <- !app_assoc. cbn [app]. rewrite <- !app_assoc. cbn [app]. reflexivity.
  - exists pb, shell. split; [exact Hpb|]. split; [reflexivity | exact Hshell].
Qed.

Lemma events_echo t hide keys : forall data, events t (echo hide keys data) = [].
Proof.
  unfold events. induction keys as [|k keys IH]; intros data; cbn [echo]; [reflexivity|].
  destruct (is_erase k).
  - destruct data; [apply IH|]. destruct hide; cbn; apply IH.
  - destruct hide; cbn; apply IH.
Qed.

(** X7.  The login dialogue when no [send] fails.  The peer types a line
    for the user name and a line for the password, each ended by CR or LF.
    [handle_client] logs the connection, sends the banner and echoes the
    first line.  An empty user name ends the connection there, with the
    second line unread.  Otherwise the password prompt is sent and the
    second line is echoed as stars; an empty password ends the connection
    without a [login_attempt] event.  Otherwise one [login_attempt] event
    with the two lines is logged, the login is refused, two seconds pass
    and the shell prompt of that user is sent; from there on only sends
    and [command_execution] events follow.  The connection always ends
    with the closing of the socket and the [disconnect] event. *)
Theorem telnet_login_dialogue :
  forall lower client_addr ukeys t1 pkeys t2 rest w,
    Forall (fun k => is_eol k = false) ukeys -> is_eol t1 = true ->
    Forall (fun k => is_eol k = false) pkeys -> is_eol t2 = true ->
    sends_ok w ->
    inbox w = map RData ukeys ++ RData t1 :: map RData pkeys ++ RData t2 :: rest ->
    let client_ip := client_addr.1 in
    let w' := (handle_client lower client_addr w).2 in
    exists said,
      trace w' = trace w
                 ++ Log (stamped (connection_event client_ip client_addr.2 (port w)))
                 :: Send banner :: echo false ukeys []
                 ++ said ++ [Close; Log (stamped (disconnect_event client_ip))]
      /\ match line_of ukeys, line_of pkeys with
         | [], _ => said = [] /\ inbox w' = map RData pkeys ++ RData t2 :: rest
         | _ :: _, [] =>
             said = Send (blit "Password: ") :: echo true pkeys [] /\ inbox w' = rest
         | _ :: _, _ :: _ =>
             exists pb shell,
               encode_utf8 (line_of ukeys ++ lit "@honeypot:~$ ") = Some pb
               /\ said = Send (blit "Password: ") :: echo true pkeys []
                         ++ [Log (stamped (login_event client_ip (line_of ukeys)
                                             (line_of pkeys)));
                             Send (bcrlf ++ blit "Login incorrect" ++ bcrlf);
                             Sleep 2; Send pb] ++ shell
               /\ Forall (fun a => is_shell_action a = true) shell
         end.
Proof.
  intros lower client_addr ukeys t1 pkeys t2 rest w Hu Ht1 Hp Ht2 Hs Hi client_ip.
  destruct (handle_client_run lower client_addr w) as (w3 & Ed & ->). cbn [snd].
  destruct (dialogue_run lower client_ip ukeys t1 pkeys t2 rest (greeted client_addr w)
              Hu Ht1 Hp Ht2 Hs Hi) as (w3' & said & Ed' & Htr & Hcases).
  fold client_ip in Ed. rewrite Ed in Ed'. injection Ed' as <-.
  exists said. split.
  - cbn [parted trace push]. rewrite Htr. cbn [greeted trace push set_stats].
    rewrite <- !app_assoc. cbn [app]. rewrite <- !app_assoc. reflexivity.
  - exact Hcases.
Qed.

Lemma telnet_login_dialogue_witness :
  exists said,
    trace (handle_client ascii_lower (lit "10.0.0.1", 40000%Z) admin_admin_world).2
    = [] ++ Log (stamped (connection_event (lit "10.0.0.1") 40000 23))
         :: Send banner :: echo false (blit "admin") []
         ++ said ++ [Close; Log (stamped (disconnect_event (lit "10.0.0.1")))]
    /\ exists pb shell,
         encode_utf8 (lit "admin" ++ lit "@honeypot:~$ ") = Some pb
         /\ said = Send (blit "Password: ") :: echo true (blit "admin") []
                   ++ [Log (stamped (login_event (lit "10.0.0.1") (lit "admin") (lit "admin")));
                       Send (bcrlf ++ blit "Login incorrect" ++ bcrlf);
                       Sleep 2; Send pb] ++ shell
         /\ Forall (fun a => is_shell_action a = true) shell.
Proof.
  apply (telnet_login_dialogue ascii_lower (lit "10.0.0.1", 40000%Z)
           (blit "admin") CR (blit "admin") CR [] admin_admin_world);
    first [reflexivity | repeat constructor].
Defined.

(** X8.  Lines ended by CR LF.  When the peer ends the user name with CR
    followed by LF, as Telnet clients do, the LF is read as an empty
    password line: the connection is closed after the password prompt, no
    [login_attempt] event is logged, and nothing the peer sends after the
    LF is read. *)
Theorem telnet_crlf_skips_password :
  forall lower client_addr ukeys rest w,
    Forall (fun k => is_eol k = false) ukeys -> sends_ok w ->
    inbox w = map RData ukeys ++ RData CR :: RData LF :: rest ->
    let client_ip := client_addr.1 in
    let w' := (handle_client lower client_addr w).2 in
    events "login_attempt" (trace w') = events "login_attempt" (trace w)
    /\ trace w' = trace w
                  ++ Log (stamped (connection_event client_ip client_addr.2 (port w)))
                  :: Send banner :: echo false ukeys []
                  ++ match line_of ukeys with
                     | [] => []
                     | _ :: _ => [Send (blit "Password: ")]
                     end
                  ++ [Close; Log (stamped (disconnect_event client_ip))]
    /\ inbox w' = match line_of ukeys with
                  | [] => RData LF :: rest
                  | _ :: _ => rest
                  end.
Proof.
  intros lower client_addr ukeys rest w Hu Hs Hi. cbv zeta.
  destruct (handle_client_run lower client_addr w) as (w3 & Ed & ->). cbn [snd].
  destruct (dialogue_run lower client_addr.1 ukeys CR [] LF rest (greeted client_addr w)
              Hu eq_refl ltac:(constructor) eq_refl Hs Hi) as (w3' & said & Ed' & Htr & Hcases).
  rewrite Ed in Ed'. injection Ed' as <-.
  change (line_of []) with (@nil N) in Hcases.
  assert (Hsaid : said = match line_of ukeys with
                         | [] => []
                         | _ :: _ => [Send (blit "Password: ")]
                         end
                  /\ inbox w3 = match line_of ukeys with
                                | [] => RData LF :: rest
                                | _ :: _ => rest
                                end).
  { destruct (line_of ukeys); destruct Hcases as [-> ->]; auto. }
  destruct Hsaid as [-> Hin].
  assert (Htrace : trace (parted client_addr.1 w3)
            = trace w
              ++ Log (stamped (connection_event client_addr.1 client_addr.2 (port w)))
              :: Send banner :: echo false ukeys []
              ++ match line_of ukeys with
                 | [] => []
                 | _ :: _ => [Send (blit "Password: ")]
                 end
              ++ [Close; Log (stamped (disconnect_event client_addr.1))]).
  { cbn [parted trace push]. rewrite Htr. cbn [greeted trace push set_stats].
    rewrite <- !app_assoc. cbn [app]. rewrite <- !app_assoc. reflexivity. }
  split; [|split; [exact Htrace | exact Hin]].
  rewrite Htrace. unfold events. rewrite List.filter_app.
  rewrite <- (app_nil_r (List.filter _ (trace w))) at 2. f_equal.
  cbn [List.filter]. change (is_event "login_attempt" (Log (stamped (connection_event _ _ _))))
    with false. cbn [is_event]. rewrite List.filter_app.
  fold (events "login_attempt" (echo false ukeys [])). rewrite events_echo.
  destruct (line_of ukeys); reflexivity.
Qed.

Lemma telnet_crlf_skips_password_witness :
  let w' := (handle_client ascii_lower (lit "10.0.0.1", 40000%Z) crlf_client_world).2 in
  events "login_attempt" (trace w') = []
  /\ inbox w' = map RData (blit "secret") ++ [RData CR; RData LF].
Proof.
  destruct (telnet_crlf_skips_password ascii_lower (lit "10.0.0.1", 40000%Z) (blit "admin")
              (map RData (blit "secret") ++ [RData CR; RData LF]) crlf_client_world)
    as (H1 & _ & H3); [repeat constructor | constructor | reflexivity |].
  split; [exact H1 | exact H3].
Defined.

(** *** Commands of a shell session *)

Lemma send_str_ok_run s w :
  Forall scalar s -> sends_ok w ->
  exists b w', encode_utf8 s = Some b /\ send_str s w = (Ret tt, w') /\ sends_ok w'
               /\ trace w' = trace w ++ [Send b] /\ inbox w' = inbox w
               /\ stats w' = stats w.
Proof.
  intros Hs Hok. apply encode_scalar in Hs as [b Hb]. exists b.
  unfold send_str. rewrite Hb.
  destruct (send_ok_run b w Hok) as (w' & E & H1 & H2 & H3 & H4). eauto 10.
Qed.

Section Shell.
Variable lower : str -> str.
Hypothesis lower_scalar : forall s, Forall scalar s -> Forall scalar (lower s).
Variables (client_ip username : str).
Hypothesis username_scalar : Forall scalar username.

Let prompt : str := username ++ lit "@honeypot:~$ ".

Lemma prompt_scalar : Forall scalar prompt.
Proof. apply Forall_app. split; [exact username_scalar | apply lit_scalar]. Qed.

(** A pass of the loop on a command: it is counted and logged, and the
    loop goes on. *)
Lemma shell_body_command keys t tail w :
  command_keys keys -> is_eol t = true -> sends_ok w ->
  inbox w = map RData keys ++ RData t :: tail ->
  exists w',
    shell_body lower client_ip username prompt w = (Ret Continue, w')
    /\ sends_ok w' /\ inbox w' = tail
    /\ events "command_execution" (trace w')
       = events "command_execution" (trace w)
         ++ [Log (logged_command client_ip username (line_of keys))]
    /\ stats w' = mkStats (total_connections (stats w)) (login_attempts (stats w))
                    (unique_ips (stats w)) (common_usernames (stats w))
                    (common_passwords (stats w))
                    (bump (line_of keys) (commands_executed (stats w))).
Proof.
  intros (Hk & Hne & Hwords) Ht Hs Hi.
  destruct (get_input_run prompt false keys _ w Hk Hs Hi) as (w1 & Hs1 & Ht1 & Hst1 & Hend).
  destruct (Hend Ht) as [E Hi1]. clear Hend.
  assert (Hline : Forall scalar (line_of keys)) by apply strip_Forall, decode_scalar.
  destruct (line_of keys) as [|c command] eqn:El; [congruence|].
  rewrite (shell_body_line lower client_ip username prompt w c command w1 E).
  set (w2 := push _ _).
  assert (Hs2 : sends_ok w2) by exact Hs1.
  rewrite bind_eq.
  destruct (send_str_ok_run (simulate_command_response lower (c :: command)) w2)
    as (rb & w3 & _ & -> & Hs3 & Ht3 & Hi3 & Hst3);
    [apply response_scalar, strip_Forall, lower_scalar, Hline | exact Hs2 |].
  rewrite bind_eq.
  destruct (send_str_ok_run prompt w3 prompt_scalar Hs3)
    as (pb & w4 & _ & -> & Hs4 & Ht4 & Hi4 & Hst4).
  apply Nat.ltb_ge in Hwords. rewrite Hwords.
  exists w4. split; [reflexivity|]. split; [exact Hs4|].
  split; [now rewrite Hi4, Hi3|]. split.
  - rewrite Ht4, Ht3. subst w2. cbn [trace push set_stats]. rewrite Ht1.
    unfold events. rewrite !List.filter_app.
    fold (events "command_execution" (echo false keys [])). rewrite events_echo.
    cbn. now rewrite !app_nil_r.
  - rewrite Hst4, Hst3. subst w2. cbn [stats push set_stats]. now rewrite Hst1.
Qed.

(** A pass of the loop on an empty line: the loop ends and nothing is
    logged. *)
Lemma shell_body_empty_line t rest w :
  is_eol t = true -> sends_ok w -> inbox w = RData t :: rest ->
  exists w',
    shell_body lower client_ip username prompt w = (Ret Break, w')
    /\ inbox w' = rest /\ trace w' = trace w /\ stats w' = stats w.
Proof.
  intros Ht Hs Hi.
  destruct (get_input_run prompt false [] _ w ltac:(constructor) Hs Hi)
    as (w1 & Hs1 & Ht1 & Hst1 & Hend).
  destruct (Hend Ht) as [E Hi1]. exists w1.
  unfold shell_body. rewrite bind_eq, E. change (line_of []) with (@nil N).
  split; [reflexivity|]. cbn [echo] in Ht1. rewrite app_nil_r in Ht1. auto.
Qed.

Lemma shell_loop_commands lines : forall fuel t rest w,
  Forall command_keys lines -> is_eol t = true -> sends_ok w ->
  inbox w = typed lines ++ RData t :: rest ->
  (length lines < fuel)%nat ->
  exists w',
    shell_loop lower fuel client_ip username prompt w = (Ret tt, w')
    /\ inbox w' = rest
    /\ events "command_execution" (trace w')
       = events "command_execution" (trace w)
         ++ map (fun keys => Log (logged_command client_ip username (line_of keys))) lines
    /\ commands_executed (stats w')
       = bump_all (map line_of lines) (commands_executed (stats w))
    /\ total_connections (stats w') = total_connections (stats w)
    /\ login_attempts (stats w') = login_attempts (stats w).
Proof.
  induction lines as [|keys lines IH]; intros fuel t rest w Hl Ht Hs Hi Hf;
    (destruct fuel as [|fuel]; [cbn in Hf; lia|]); cbn [shell_loop].
  - cbn [typed flat_map app] in Hi.
    destruct (shell_body_empty_line t rest w Ht Hs Hi) as (w' & E & Hi' & Ht' & Hst').
    exists w'. rewrite bind_eq, E. split; [reflexivity|]. split; [exact Hi'|].
    rewrite Ht', Hst'. cbn [map]. rewrite app_nil_r. auto.
  - inversion Hl as [|? ? Hk Hl']; subst.
    cbn [typed flat_map] in Hi. fold (typed lines) in Hi. rewrite <- !app_assoc in Hi.
    cbn [app] in Hi.
    destruct (shell_body_command keys CR _ w Hk eq_refl Hs Hi)
      as (w1 & E & Hs1 & Hi1 & Hev1 & Hst1).
    rewrite bind_eq, E.
    destruct (IH fuel t rest w1 Hl' Ht Hs1 Hi1 ltac:(cbn in Hf; lia))
      as (w' & E' & Hi' & Hev' & Hc' & Htc' & Hla').
    exists w'. split; [exact E'|]. split; [exact Hi'|].
    split; [rewrite Hev', Hev1, <- app_assoc; reflexivity|].
    rewrite Hc', Htc', Hla', Hst1. auto.
Qed.

Lemma typed_length lines : (length lines <= length (typed lines))%nat.
Proof.
  induction lines as [|keys lines IH]; cbn [typed flat_map length]; [lia|].
  fold (typed lines). rewrite !length_app. cbn [length]. lia.
Qed.

Lemma simulate_shell_commands lines t rest w :
  Forall command_keys lines -> is_eol t = true -> sends_ok w ->
  inbox w = typed lines ++ RData t :: rest ->
  exists w',
    simulate_shell lower client_ip username w = (Ret tt, w')
    /\ inbox w' = rest
    /\ events "command_execution" (trace w')
       = events "command_execution" (trace w)
         ++ map (fun keys => Log (logged_command client_ip username (line_of keys))) lines
    /\ commands_executed (stats w')
       = bump_all (map line_of lines) (commands_executed (stats w))
    /\ total_connections (stats w') = total_connections (stats w)
    /\ login_attempts (stats w') = login_attempts (stats w).
Proof.
  intros Hl Ht Hs Hi. unfold simulate_shell, try_except. fold prompt. rewrite bind_eq.
  destruct (send_str_ok_run prompt w prompt_scalar Hs)
    as (pb & w1 & _ & -> & Hs1 & Ht1 & Hi1 & Hst1).
  rewrite bind_eq. cbn [get_world]. rewrite Hi in Hi1.
  destruct (shell_loop_commands lines (S (length (inbox w1))) t rest w1 Hl Ht Hs1 Hi1)
    as (w' & -> & Hi' & Hev' & Hc' & Htc' & Hla').
  { rewrite Hi1, length_app. pose proof (typed_length lines). cbn [length]. lia. }
  exists w'. split; [reflexivity|]. split; [exact Hi'|].
  rewrite Hev', Hc', Htc', Hla', Ht1, Hst1. unfold events. rewrite List.filter_app.
  cbn. rewrite app_nil_r. auto.
Qed.

End Shell.

(** X9.  The shell logs every command.  In a shell session on which no
    [send] fails, the peer types commands, each ended by CR, not empty and
    of at most ten words, and then an empty line.  [simulate_shell] logs
    one [command_execution] event per command, in the order typed and
    with the line as [get_input] returns it, counts each command once in
    [commands_executed], and returns at the empty line, leaving what
    follows unread.  A peer that ends its lines with CR LF therefore gets
    one command logged: the LF is the empty line that ends the session. *)
Theorem telnet_shell_logs_every_command :
  forall lower client_ip username lines t rest w,
    (forall s, Forall scalar s -> Forall scalar (lower s)) ->
    Forall scalar username ->
    Forall command_keys lines -> is_eol t = true -> sends_ok w ->
    inbox w = typed lines ++ RData t :: rest ->
    let out := simulate_shell lower client_ip username w in
    out.1 = Ret tt
    /\ events "command_execution" (trace out.2)
       = events "command_execution" (trace w)
         ++ map (fun keys => Log (logged_command client_ip username (line_of keys))) lines
    /\ commands_executed (stats out.2)
       = bump_all (map line_of lines) (commands_executed (stats w))
    /\ inbox out.2 = rest.
Proof.
  intros lower client_ip username lines t rest w Hlower Hu Hl Ht Hs Hi. cbv zeta.
  destruct (simulate_shell_commands lower Hlower client_ip username Hu lines t rest w
              Hl Ht Hs Hi) as (w' & -> & Hi' & Hev & Hc & _).
  cbn [fst snd]. auto.
Qed.

Lemma telnet_shell_logs_every_command_witness :
  let out := simulate_shell ascii_lower (lit "10.0.0.1") (lit "root") crlf_shell_world in
  events "command_execution" (trace out.2)
  = [Log (logged_command (lit "10.0.0.1") (lit "root") (lit "id"))]
  /\ inbox out.2 = map RData (blit "uname -a") ++ [RData CR; RData LF].
Proof.
  destruct (telnet_shell_logs_every_command ascii_lower (lit "10.0.0.1") (lit "root")
              [blit "id"] LF (map RData (blit "uname -a") ++ [RData CR; RData LF])
              crlf_shell_world ascii_lower_scalar (lit_scalar "root"))
    as (_ & Hev & _ & Hin);
    [ constructor; [|constructor];
      split; [repeat constructor | split; [vm_compute; discriminate | vm_compute; lia]]
    | reflexivity | constructor | reflexivity | ].
  split; [exact Hev | exact Hin].
Defined.

End TelnetSessionFacts.

(** ** The HTTP request hook *)

Module HttpRequestsFacts.
Import Py PyText PyFacts Http HttpFacts Counters CountersFacts HttpRequests.















(** *** The hook *)








(** *** The level that the classifier returns *)

Ltac decide_closed :=
  match goal with
  | |- ?P => apply (bool_decide_unpack P); vm_compute; reflexivity
  end.

(** X13.  The level of a request, rule by rule.  [analyze_request] returns
    the tags of the blocks that fire, each once and in the order of the
    blocks.  The level is [low] exactly when no block fires; it is [high]
    exactly when command injection or file inclusion fires, or SQL
    injection or XSS fires and none of traversal, admin access and
    scanner does; it is [medium] exactly when traversal, admin access or
    scanner fires and neither command injection nor file inclusion does.
    It is never [critical]. *)
Theorem http_threat_level_rule :
  forall lower self request_data uri ua,
    get_str request_data "request_uri" = Some uri ->
    get_str request_data "user_agent" = Some ua ->
    let sql := any_in sql_patterns (lower uri) in
    let xss := any_in xss_patterns (lower uri) in
    let trav := contains (lower uri) (lit "../") || contains (lower uri) [46; 46; 92] in
    let admin := any_in admin_patterns (lower uri) in
    let scan := any_in scanner_agents (lower ua) in
    let incl := contains (lower uri) (lit "include") || contains (lower uri) (lit "require") in
    let cmd := any_in cmd_patterns (lower uri) in
    exists tags level,
      analyze_request lower self request_data = Some (tags, level)
      /\ tags = map snd (List.filter fst
                  (combine [sql; xss; trav; admin; scan; incl; cmd] all_tags))
      /\ NoDup tags
      /\ (level = lit "low" <-> tags = [])
      /\ (level = lit "high" <->
          cmd || incl || ((sql || xss) && negb (trav || admin || scan)) = true)
      /\ (level = lit "medium" <->
          negb (cmd || incl) && (trav || admin || scan) = true)
      /\ level <> lit "critical".
Proof.
  intros lower self request_data uri ua Hu Ha. cbv zeta.
  rewrite (analyze_request_last lower self request_data uri ua Hu Ha).
  unfold rules, fired, last_level.
  generalize (any_in sql_patterns (lower uri)) (any_in xss_patterns (lower uri))
    (contains (lower uri) (lit "../") || contains (lower uri) [46; 46; 92])
    (any_in admin_patterns (lower uri)) (any_in scanner_agents (lower ua))
    (contains (lower uri) (lit "include") || contains (lower uri) (lit "require"))
    (any_in cmd_patterns (lower uri)).
  intros [] [] [] [] [] [] []; eexists _, _; (split; [reflexivity|]);
    repeat apply conj; decide_closed.
Qed.

Lemma http_threat_level_rule_witness :
  exists tags, analyze_request ascii_lower no_requests probe = Some (tags, lit "medium").
Proof.
  destruct (http_threat_level_rule ascii_lower no_requests probe probe_uri probe_agent
              eq_refl eq_refl) as (tags & level & E & _ & _ & _ & _ & Hm & _).
  exists tags. rewrite E. do 2 f_equal. apply Hm. vm_compute. reflexivity.
Defined.

(** *** Patterns that never decide *)

(** X14.  Patterns that change nothing.  A URI that contains [wp-admin],
    [phpmyadmin] or [administrator] contains [admin], one that contains
    [||] contains [|], and one that contains [$(] contains [$]: the admin
    test and the command injection test give the same answer without
    these five patterns. *)
Theorem http_redundant_patterns :
  forall uri,
    any_in admin_patterns uri = any_in [lit "admin"; lit "login"; lit "manager"] uri
    /\ any_in cmd_patterns uri
       = any_in [lit "|"; lit ";"; lit "&&"; lit "`"; lit "$"] uri.
Proof.
  intros uri.
  assert (H : forall p q, contains p q = true ->
                contains uri p = true -> contains uri q = true)
    by (intros p q Hpq Hp; now apply (contains_trans uri p q)).
  pose proof (H (lit "wp-admin") (lit "admin") eq_refl) as H1.
  pose proof (H (lit "phpmyadmin") (lit "admin") eq_refl) as H2.
  pose proof (H (lit "administrator") (lit "admin") eq_refl) as H3.
  pose proof (H (lit "||") (lit "|") eq_refl) as H4.
  pose proof (H (lit "$(") (lit "$") eq_refl) as H5.
  unfold any_in, admin_patterns, cmd_patterns. cbn [existsb]. split.
  - destruct (contains uri (lit "admin")); [reflexivity|].
    destruct (contains uri (lit "wp-admin")); [now specialize (H1 eq_refl)|].
    destruct (contains uri (lit "phpmyadmin")); [now specialize (H2 eq_refl)|].
    destruct (contains uri (lit "administrator")); [now specialize (H3 eq_refl)|].
    reflexivity.
  - destruct (contains uri (lit "|")); [reflexivity|].
    destruct (contains uri (lit "||")); [now specialize (H4 eq_refl)|].
    destruct (contains uri (lit "$")); [now rewrite !orb_true_r|].
    destruct (contains uri (lit "$(")); [now specialize (H5 eq_refl)|].
    reflexivity.
Qed.

(** *** Text around an attack *)

Lemma any_in_app ps s pre post :
  any_in ps s = true -> any_in ps (pre ++ s ++ post) = true.
Proof.
  unfold any_in. rewrite !existsb_exists. intros (p & Hp & H).
  exists p. split; [exact Hp | now apply contains_app].
Qed.

(** Rules that fire at least where others do give at least their tags. *)
Lemma fired_sublist rs rs' :
  Forall2 (fun r r' : bool * (str * str) => r.2 = r'.2 /\ (r.1 = true -> r'.1 = true)) rs rs' ->
  sublist (map fst (fired rs)) (map fst (fired rs')).
Proof.
  unfold fired. induction 1 as [|[b r] [b' r'] rs rs' [E Hb] _ IH]; cbn [List.filter map].
  - constructor.
  - cbn [fst snd] in *. subst r'. destruct b; cbn [map].
    + rewrite (Hb eq_refl). cbn [map]. now apply sublist_skip.
    + destruct b'; cbn [map]; [now apply sublist_cons | exact IH].
Qed.

(** X15.  Padding hides no attack.  When text is put before and behind the
    URI and the User-Agent of a request, and lower-casing goes through the
    concatenation, [analyze_request] returns every tag it returned before,
    in the same order: a tag is not lost by adding text. *)
Theorem http_padding_keeps_tags :
  forall lower self request_data request_data' uri pre post ua pre_ua post_ua,
    get_str request_data "request_uri" = Some uri ->
    get_str request_data "user_agent" = Some ua ->
    get_str request_data' "request_uri" = Some (pre ++ uri ++ post) ->
    get_str request_data' "user_agent" = Some (pre_ua ++ ua ++ post_ua) ->
    lower (pre ++ uri ++ post) = lower pre ++ lower uri ++ lower post ->
    lower (pre_ua ++ ua ++ post_ua) = lower pre_ua ++ lower ua ++ lower post_ua ->
    exists tags level tags' level',
      analyze_request lower self request_data = Some (tags, level)
      /\ analyze_request lower self request_data' = Some (tags', level')
      /\ sublist tags tags'.
Proof.
  intros lower self rd rd' uri pre post ua pre_ua post_ua Hu Ha Hu' Ha' El El'.
  rewrite (analyze_request_last lower self rd uri ua Hu Ha).
  rewrite (analyze_request_last lower self rd' _ _ Hu' Ha').
  eexists _, _, _, _. split; [reflexivity|]. split; [reflexivity|].
  rewrite El, El'. apply fired_sublist. unfold rules.
  repeat (constructor; [split; [reflexivity|]; cbn [fst]|]); try constructor;
    try apply any_in_app.
  - rewrite !orb_true_iff. intros [H|H]; [left | right]; now apply contains_app.
  - rewrite !orb_true_iff. intros [H|H]; [left | right]; now apply contains_app.
Qed.

Lemma http_padding_keeps_tags_witness :
  exists tags' level',
    analyze_request ascii_lower no_requests padded_probe = Some (tags', level')
    /\ sublist [lit "sql_injection"; lit "directory_traversal"] tags'.
Proof.
  destruct (http_padding_keeps_tags ascii_lower no_requests probe padded_probe
              probe_uri (lit "/a/..") (lit "&x=1") probe_agent (lit "Mozilla/5.0 ") (lit " (x11)")
              eq_refl eq_refl eq_refl eq_refl eq_refl eq_refl)
    as (tags & level & tags' & level' & E & E' & Hsub).
  exists tags', level'. split; [exact E'|].
  vm_compute in E. injection E as <- _. exact Hsub.
Defined.

End HttpRequestsFacts.

(** ** The FTP callbacks *)

Module FtpHandlerFacts.
Import Py Eff EffFacts Ftp Counters CountersFacts FtpHandler.

(** One call: its outcome, its event, its effect on the counters. *)
Lemma dispatch_run remote_ip c h :
  exists ev,
    dispatch remote_ip c h
    = (match c with
       | ValidateAuthentication _ _ => Exc AuthenticationFailed
       | _ => Ret tt
       end,
       mkHoneypot (counted remote_ip c (stats h)) (logged h ++ [ev]))
    /\ dict_get ev "event_type" = Some (VStr (kind_of c))
    /\ dict_get ev "source_ip" = Some (VStr remote_ip)
    /\ dict_get ev "service" = Some (VStr (lit "ftp")).
Proof.
  destruct c; (eexists; split; [|repeat split]);
    try reflexivity; destruct h as [[] ?]; reflexivity.
Qed.

(** X16.  One event per call.  Whatever calls pyftpdlib makes into the FTP
    decoy, for whichever connections and in whichever order, each call
    appends exactly one event to the log, of the type of the call, with
    the address of its connection; [validate_authentication] always ends
    with the exception that refuses the login, every other call returns
    normally. *)
Theorem ftp_one_event_per_call :
  forall calls h,
    (exists evs,
       logged (after calls h) = logged h ++ evs
       /\ Forall2 (fun (call : str * callback) ev =>
                     dict_get ev "event_type" = Some (VStr (kind_of call.2))
                     /\ dict_get ev "source_ip" = Some (VStr call.1)
                     /\ dict_get ev "service" = Some (VStr (lit "ftp")))
                  calls evs)
    /\ (forall remote_ip c,
          (dispatch remote_ip c h).1
          = match c with
            | ValidateAuthentication _ _ => Exc AuthenticationFailed
            | _ => Ret tt
            end).
Proof.
  intros calls h. split.
  - revert h. induction calls as [|[remote_ip c] rest IH]; intros h; cbn [after].
    + exists []. rewrite app_nil_r. split; [reflexivity | constructor].
    + destruct (dispatch_run remote_ip c h) as (ev & E & H1 & H2 & H3). rewrite E. cbn [snd].
      destruct (IH (mkHoneypot (counted remote_ip c (stats h)) (logged h ++ [ev])))
        as (evs & El & Hall).
      exists (ev :: evs). rewrite El. cbn [logged]. rewrite <- app_assoc.
      split; [reflexivity|]. constructor; auto.
  - intros remote_ip c. destruct (dispatch_run remote_ip c h) as (ev & -> & _). reflexivity.
Qed.

(** X17.  Counters of the FTP decoy.  After any series of calls,
    [total_connections] has grown by the number of [on_connect] calls and
    [unique_ips] by their addresses; [login_attempts] and the sums of
    [common_usernames] and [common_passwords] have each grown by the
    number of authentication calls; [file_operations] is what it was: no
    call writes it, uploads and downloads included. *)
Theorem ftp_counters :
  forall calls h,
    let s := stats h in
    let s' := stats (after calls h) in
    total_connections s' = (total_connections s + tally is_connect calls)%Z
    /\ unique_ips s' = list_to_set (map fst (List.filter is_connect calls)) ∪ unique_ips s
    /\ login_attempts s' = (login_attempts s + tally is_authentication calls)%Z
    /\ total (common_usernames s')
       = (total (common_usernames s) + tally is_authentication calls)%Z
    /\ total (common_passwords s')
       = (total (common_passwords s) + tally is_authentication calls)%Z
    /\ file_operations s' = file_operations s.
Proof.
  intros calls h. cbv zeta. revert h.
  induction calls as [|[remote_ip c] rest IH]; intros h; cbn [after].
  - unfold tally. cbn. rewrite !Z.add_0_r. repeat split. now rewrite (left_id_L ∅ (∪)).
  - destruct (dispatch_run remote_ip c h) as (ev & E & _). rewrite E. cbn [snd].
    match goal with |- context [after rest ?h1] => specialize (IH h1) end.
    destruct IH as (H1 & H2 & H3 & H4 & H5 & H6).
    rewrite H1, H2, H3, H4, H5, H6, !tally_cons. unfold is_connect, is_authentication.
    cbn [stats snd List.filter]. clear.
    destruct c; cbn [counted total_connections login_attempts unique_ips common_usernames
      common_passwords file_operations map fst list_to_set];
      rewrite ?total_bump; repeat split; try lia.
    rewrite (assoc_L (∪)), (comm_L (∪) _ {[remote_ip]}). reflexivity.
Qed.

Lemma ftp_one_event_per_call_witness :
  exists evs, logged (after session fresh) = evs /\ length evs = 5%nat.
Proof.
  destruct (ftp_one_event_per_call session fresh) as [(evs & E & Hall) _].
  exists evs. split; [exact E|]. apply Forall2_length in Hall. now rewrite <- Hall.
Defined.

End FtpHandlerFacts.

(** ** The SSH server interface *)

Module SshInterfaceFacts.
Import Py Eff EffFacts Ssh Counters CountersFacts SshInterface.

Lemma answer_run client_ip q h :
  exists ev,
    answer client_ip q h
    = (Ret AUTH_FAILED, mkHoneypot (counted client_ip q (stats h)) (logged h ++ [ev]))
    /\ dict_get ev "event_type" = Some (VStr (kind_of q))
    /\ dict_get ev "source_ip" = Some (VStr client_ip)
    /\ dict_get ev "username" = Some (VStr (username_of q))
    /\ dict_get ev "success" = Some (VBool false).
Proof.
  destruct q; (eexists; split; [|repeat split]);
    try reflexivity; destruct h as [[] ?]; reflexivity.
Qed.

(** X18.  Authentication on the SSH decoy.  Every password and every public
    key that paramiko passes to the server interface of a connection is
    refused with [AUTH_FAILED] and logged as one event with the address of
    the connection and the user name given, in the order of the requests.
    A password attempt is counted: [auth_attempts] and the sums of
    [common_usernames] and [common_passwords] grow by one and the address
    is recorded.  A public-key attempt is logged and not counted: it
    leaves every statistic as it is, so that a client that offers keys
    only never shows in [unique_ips].  No request changes
    [total_connections]. *)
Theorem ssh_authentication_requests :
  forall client_ip requests h,
    let s := stats h in
    let s' := stats (after client_ip requests h) in
    let passwords := tally is_password requests in
    (forall q, (answer client_ip q h).1 = Ret AUTH_FAILED)
    /\ (exists evs,
          logged (after client_ip requests h) = logged h ++ evs
          /\ Forall2 (fun q ev =>
                        dict_get ev "event_type" = Some (VStr (kind_of q))
                        /\ dict_get ev "source_ip" = Some (VStr client_ip)
                        /\ dict_get ev "username" = Some (VStr (username_of q))
                        /\ dict_get ev "success" = Some (VBool false))
                     requests evs)
    /\ auth_attempts s' = (auth_attempts s + passwords)%Z
    /\ total (common_usernames s') = (total (common_usernames s) + passwords)%Z
    /\ total (common_passwords s') = (total (common_passwords s) + passwords)%Z
    /\ unique_ips s' = (if existsb is_password requests
                        then {[client_ip]} ∪ unique_ips s else unique_ips s)
    /\ total_connections s' = total_connections s.
Proof.
  intros client_ip requests h. cbv zeta. split.
  { intros q. destruct (answer_run client_ip q h) as (ev & -> & _). reflexivity. }
  split; [|split; [|split; [|split; [|split]]]].
  - revert h. induction requests as [|q rest IH]; intros h; cbn [after].
    + exists []. rewrite app_nil_r. split; [reflexivity | constructor].
    + destruct (answer_run client_ip q h) as (ev & E & H1 & H2 & H3 & H4). rewrite E. cbn [snd].
      destruct (IH (mkHoneypot (counted client_ip q (stats h)) (logged h ++ [ev])))
        as (evs & El & Hall).
      exists (ev :: evs). rewrite El. cbn [logged]. rewrite <- app_assoc.
      split; [reflexivity|]. constructor; auto.
  - revert h. induction requests as [|q rest IH]; intros h; cbn [after].
    + unfold tally. cbn. lia.
    + destruct (answer_run client_ip q h) as (ev & E & _). rewrite E. cbn [snd].
      rewrite IH, tally_cons. destruct q; cbn; lia.
  - revert h. induction requests as [|q rest IH]; intros h; cbn [after].
    + unfold tally. cbn. lia.
    + destruct (answer_run client_ip q h) as (ev & E & _). rewrite E. cbn [snd].
      rewrite IH, tally_cons.
      destruct q; cbn [is_password stats counted common_usernames]; rewrite ?total_bump; lia.
  - revert h. induction requests as [|q rest IH]; intros h; cbn [after].
    + unfold tally. cbn. lia.
    + destruct (answer_run client_ip q h) as (ev & E & _). rewrite E. cbn [snd].
      rewrite IH, tally_cons.
      destruct q; cbn [is_password stats counted common_passwords]; rewrite ?total_bump; lia.
  - revert h. induction requests as [|q rest IH]; intros h; cbn [after existsb].
    + reflexivity.
    + destruct (answer_run client_ip q h) as (ev & E & _). rewrite E. cbn [snd].
      rewrite IH.
      destruct q; cbn [is_password orb stats counted unique_ips]; [|reflexivity].
      destruct (existsb is_password rest); [|reflexivity].
      rewrite (assoc_L (∪)), (idemp_L (∪)). reflexivity.
  - revert h. induction requests as [|q rest IH]; intros h; cbn [after].
    + reflexivity.
    + destruct (answer_run client_ip q h) as (ev & E & _). rewrite E. cbn [snd].
      rewrite IH. destruct q; reflexivity.
Qed.

Lemma ssh_authentication_requests_witness :
  auth_attempts (stats (after (lit "10.0.0.1") attempts fresh)) = 2%Z
  /\ length (logged (after (lit "10.0.0.1") attempts fresh)) = 3%nat.
Proof.
  destruct (ssh_authentication_requests (lit "10.0.0.1") attempts fresh)
    as (_ & (evs & E & Hall) & Ha & _).
  split; [exact Ha|]. rewrite E. change (length evs = 3%nat).
  apply Forall2_length in Hall. now rewrite <- Hall.
Defined.

End SshInterfaceFacts.

(** ** Alerts and their channels *)

Module AlertChannelsFacts.
Import Py Eff EffFacts Alerts AlertsFacts AlertChannels.

Lemma message_of_ticks c n by_ip k s :
  message_of c n by_ip (set_ticks k s) = message_of c n by_ip s.
Proof. destruct c; reflexivity. Qed.

(** X19.  The key is stored whatever the channels.  A check that finds its
    aggregate above the threshold, under a key the store does not hold,
    makes one call of [send_alert] with the subject, the severity, the
    message and the metadata of the check; the call goes to e-mail exactly
    when address, SMTP user and SMTP password are all set and to Slack
    exactly when the webhook is set; and the key is stored with the next
    reading of the clock in every case, also when no channel is
    configured: the same breach is then suppressed for the rest of the
    hour although nobody has been notified. *)
Theorem alert_recorded_whatever_the_channels :
  forall clock s c n by_ip,
    (threshold_of c (thresholds s) < n)%Z ->
    sent_alerts s !! key_of c (clock (ticks s)) = None ->
    let s' := (check_of clock c n by_ip s).2 in
    exists a,
      dispatched s' = dispatched s ++ [a]
      /\ subject a = subject_of c /\ severity a = severity_of c
      /\ message a = message_of c n by_ip s /\ metadata a = metadata_of c n by_ip
      /\ (Email ∈ channels a <->
          is_set (alert_email s) && is_set (smtp_username s) && is_set (smtp_password s)
          = true)
      /\ (Slack ∈ channels a <-> is_set (slack_webhook s) = true)
      /\ sent_alerts s' = <[key_of c (clock (ticks s)) := clock (S (ticks s))]> (sent_alerts s)
      /\ (forall n' by_ip',
            hour_bucket (clock (ticks s')) = hour_bucket (clock (ticks s)) ->
            dispatched (check_of clock c n' by_ip' s').2 = dispatched s').
Proof.
  intros clock s c n by_ip Hn Hnone. cbv zeta.
  assert (E : (check_of clock c n by_ip s).2
              = after_dispatch clock c (subject_of c) (severity_of c)
                  (message_of c n by_ip) (metadata_of c n by_ip) s).
  { rewrite check_of_run. cbn [snd]. apply Z.ltb_lt in Hn. now rewrite Hn, Hnone. }
  rewrite E. set (s1 := after_dispatch _ _ _ _ _ _ _).
  assert (Hstore : sent_alerts s1
            = <[key_of c (clock (ticks s)) := clock (S (ticks s))]> (sent_alerts s))
    by reflexivity.
  eexists. split; [reflexivity|]. cbn [subject severity message metadata channels].
  split; [reflexivity|]. split; [reflexivity|]. split; [apply message_of_ticks|].
  split; [reflexivity|]. unfold fan_out.
  split; [|split; [|split; [exact Hstore|]]].
  - destruct (is_set (alert_email s) && is_set (smtp_username s) && is_set (smtp_password s));
      destruct (is_set (slack_webhook s)); cbn [app]; split; intros H; try reflexivity;
      try discriminate; try apply list_elem_of_here.
    + apply elem_of_cons in H as [H|H]; [discriminate | now apply not_elem_of_nil in H].
    + now apply not_elem_of_nil in H.
  - destruct (is_set (alert_email s) && is_set (smtp_username s) && is_set (smtp_password s));
      destruct (is_set (slack_webhook s)); cbn [app]; split; intros H; try reflexivity;
      try discriminate; try (repeat constructor).
    + apply elem_of_cons in H as [H|H]; [discriminate | now apply not_elem_of_nil in H].
    + now apply not_elem_of_nil in H.
  - intros n' by_ip' Hb. rewrite check_of_run. cbn [snd].
    destruct (_ <? n')%Z; [|reflexivity].
    rewrite (key_of_bucket c _ _ Hb), Hstore, lookup_insert_eq. reflexivity.
Qed.

Lemma alert_recorded_whatever_the_channels_witness :
  exists a,
    dispatched (check_of two_hours HighVolume 150 [] silent).2 = [a]
    /\ channels a = []
    /\ sent_key a = lit "high_volume_2024051710".
Proof.
  destruct (alert_recorded_whatever_the_channels two_hours silent HighVolume 150 [])
    as (a & E & _); [reflexivity | reflexivity |].
  exists a. split; [exact E|]. vm_compute in E. injection E as <-. split; reflexivity.
Defined.

(** *** The per-address check *)

Lemma offenders_thresholds s1 s buckets :
  thresholds s1 = thresholds s -> offenders s1 buckets = offenders s buckets.
Proof. unfold offenders. now intros ->. Qed.

Lemma alert_for_thresholds s1 s b a :
  thresholds s1 = thresholds s -> alert_for s1 b a -> alert_for s b a.
Proof. unfold alert_for, brute_message. now intros ->. Qed.

Lemma brute_force_each_offender clock buckets :
  (forall i, valid (clock i)) ->
  forall s,
    NoDup (map fst buckets) ->
    (forall ip t, ip ∈ map fst buckets -> valid t ->
       sent_alerts s !! key_of (BruteForce ip) t = None) ->
    exists new,
      dispatched (brute_force_buckets clock buckets s).2 = dispatched s ++ new
      /\ Forall2 (alert_for s) (offenders s buckets) new.
Proof.
  intros Hv. induction buckets as [|[ip n] rest IH]; intros s Hnd Hnone.
  - exists []. cbn. rewrite app_nil_r. split; [reflexivity | constructor].
  - rewrite brute_force_buckets_cons. cbn [map fst] in Hnd.
    apply NoDup_cons in Hnd as [Hnotin Hnd].
    set (s1 := (check_of clock (BruteForce ip) n [] s).2).
    assert (H1 : thresholds s1 = thresholds s
                 /\ (forall ip' t, ip' ∈ map fst rest -> valid t ->
                       sent_alerts s1 !! key_of (BruteForce ip') t = None)
                 /\ exists first,
                      dispatched s1 = dispatched s ++ first
                      /\ Forall2 (alert_for s) (offenders s [(ip, n)]) first).
    { subst s1. rewrite check_of_run. cbn [snd threshold_of]. unfold offenders.
      cbn [List.filter snd].
      destruct (brute_force_attempts (thresholds s) <? n)%Z.
      - rewrite (Hnone ip (clock (ticks s))) by (auto; apply list_elem_of_here).
        split; [reflexivity|]. split.
        + intros ip' t Hin Ht. unfold after_dispatch. cbn [sent_alerts].
          rewrite lookup_insert_ne.
          * apply Hnone; [now apply list_elem_of_further | exact Ht].
          * intros E. apply key_of_inj in E as [[= ->] _]; auto.
        + eexists. split; [reflexivity|]. constructor; [|constructor].
          unfold alert_for. cbn [subject severity message metadata sent_key fst snd].
          repeat split. eauto.
      - split; [reflexivity|]. split.
        + intros ip' t Hin Ht. apply Hnone; [now apply list_elem_of_further | exact Ht].
        + exists []. rewrite app_nil_r. split; [reflexivity | constructor]. }
    destruct H1 as (Ht1 & Hnone1 & first & Hd1 & Hfirst).
    destruct (IH s1 Hnd Hnone1) as (new & Hd & Hall).
    exists (first ++ new). rewrite Hd, Hd1, app_assoc. split; [reflexivity|].
    change ((ip, n) :: rest) with ([(ip, n)] ++ rest).
    unfold offenders at 1. rewrite List.filter_app. apply Forall2_app; [exact Hfirst|].
    rewrite (offenders_thresholds s1 s rest Ht1) in Hall.
    eapply Forall2_impl; [exact Hall|]. intros b a. now apply alert_for_thresholds.
Qed.

(** X20.  No offender is missed.  When the addresses of the search answer
    are distinct and the store holds no per-address key of any of them,
    [check_brute_force_attacks] sends one alert for each bucket whose
    count is above the threshold, in the order of the buckets and for no
    other: each alert names its address and its count in the message and
    in the metadata. *)
Theorem brute_force_no_offender_missed :
  forall clock buckets s,
    (forall i, valid (clock i)) ->
    NoDup (map fst buckets) ->
    (forall ip t, ip ∈ map fst buckets -> valid t ->
       sent_alerts s !! key_of (BruteForce ip) t = None) ->
    let s' := (check_brute_force_attacks clock (Some buckets) s).2 in
    exists new,
      dispatched s' = dispatched s ++ new
      /\ Forall2 (alert_for s) (offenders s buckets) new.
Proof.
  intros clock buckets s Hv Hnd Hnone. cbv zeta. cbn [check_brute_force_attacks].
  now apply brute_force_each_offender.
Qed.

Lemma brute_force_no_offender_missed_witness :
  exists a1 a2,
    dispatched (check_brute_force_attacks two_hours (Some three_buckets) silent).2 = [a1; a2]
    /\ alert_for silent (lit "10.0.0.1", 40%Z) a1
    /\ alert_for silent (lit "10.0.0.3", 21%Z) a2.
Proof.
  destruct (brute_force_no_offender_missed two_hours three_buckets silent)
    as (new & E & Hall).
  - apply two_hours_ok.
  - apply (bool_decide_unpack _). vm_compute. reflexivity.
  - intros ip t _ _. apply lookup_empty.
  - change (offenders silent three_buckets)
      with [(lit "10.0.0.1", 40%Z); (lit "10.0.0.3", 21%Z)] in Hall.
    inversion Hall as [|b1 a1 l1 r1 H1 Hr1]; subst.
    inversion Hr1 as [|b2 a2 l2 r2 H2 Hr2]; subst.
    inversion Hr2; subst. exists a1, a2. auto.
Defined.

End AlertChannelsFacts.
